(** * EIP-7702 dispatch scripts: a shallow embedding and its properties

    The repository is a set of one-shot TypeScript scripts that talk to a
    chain (viem's public client), to a signer (the owner EOA) and to a
    bundler (permissionless' smart account client).  The scripts are
    embedded as programs of a small reader/state/error monad:

    - the reader part, [World], holds everything the scripts do not own:
      [process.env], the two addresses, and the answers of the external
      capabilities (as functions of the current chain state);
    - the state part, [State], is the chain state together with the log
      of every interaction of the script with the outside, in order;
    - the error part, [Outcome], distinguishes a value, a thrown error
      and [process.exit].

    [console.log] lines only format values for the operator and are left
    out; [console.error] and [console.warn] lines are kept as entries of
    the log.

    A script is embedded twice.  Its [script] is the process from the
    call of [main] on: [main().catch(handler)] and the end of the
    process.  Its [Program] is the whole process: the modules the script
    imports ([publicClient], [owner], [clients]) are evaluated first, in
    the order of the import statements, and check [SEPOLIA_RPC_URL],
    [PRIVATE_KEY] and [PIMLICO_API_KEY]; an error they throw is caught by
    nothing.  A property of a [script] is a property of the runs that
    reach [main].

    The file has two parts: the embedding (data, monad, capabilities,
    the two dispatching scripts, the clients module, the call data of a
    batch, the [.env] file, the maintenance scripts and the whole
    programs, concrete worlds), then the properties. *)

From stdpp Require Import base strings gmap list pretty.
From Stdlib Require Import ZArith Lia Ascii.
From Stdlib Require Strings.Byte SpecFloat.

Local Open Scope Z_scope.
Local Open Scope string_scope.

(** ** Data *)

Definition Address := string.
Definition Hex := string.
Definition Hash := string.
Definition Signature := string.

(** One element of the [calls] array: [{ to, value, data }]. *)
Record Call : Type := mkCall {
  call_to : Address;
  call_value : Z;
  call_data : Hex
}.

(** The argument of [owner.signAuthorization]. *)
Record Authorization : Type := mkAuthorization {
  contractAddress : Address;
  chainId : Z;
  nonce : Z
}.

(** What [owner.signAuthorization] resolves to: the request's fields and
    the signature over them. *)
Record SignedAuthorization : Type := mkSigned {
  auth_payload : Authorization;
  auth_signature : Signature
}.

(** The [txParams] object; the [authorization] key is optional. *)
Record TxParams : Type := mkTx {
  tx_to : Address;
  tx_value : Z;
  tx_data : Hex;
  tx_authorization : option SignedAuthorization
}.

Inductive Status : Type := success | reverted.

Record Log : Type := mkLog {
  log_address : Address;
  log_topics : list Hex
}.

Record Receipt : Type := mkReceipt {
  status : Status;
  blockNumber : Z;
  gasUsed : Z;
  logs : list Log
}.

Inductive AbiArg : Type :=
| ArgAddress (a : Address)
| ArgUint (n : Z).

(** The part of the chain state the scripts can observe or depend on.
    [account_nonce] is the sequence number the smart account keeps for
    its own operations (the EntryPoint nonce); no script reads it. *)
Record Chain : Type := mkChain {
  has_code : Address -> bool;
  tx_count : Address -> Z;
  account_nonce : Address -> Z
}.

(** ** Errors and diagnostics *)

(** How an awaited external call can reject. *)
Inductive ExternalError : Type :=
| TransportError (detail : string)
| WaitForTransactionReceiptTimeoutError
| LibraryError (detail : string).

(** What a script can throw: its own [new Error('... is missing in .env')]
    or the rejection of an external call, passed on unchanged. *)
Inductive Error : Type :=
| MissingEnv (name : string)
| Rejected (e : ExternalError).

Definition is_timeout_error (e : Error) : bool :=
  match e with
  | Rejected WaitForTransactionReceiptTimeoutError => true
  | _ => false
  end.

(** Lines written to the error stream. *)
Inductive Diagnostic : Type :=
| TransactionFailed (e : Error)
| DebugInfo (deployed : bool) (account owner : Address) (authorizationIncluded : bool)
| TransactionReverted
| FatalError (e : Error)
| ErrorMessage (e : Error)
| FullError (e : Error)
| UnexpectedTransferEvents (found : nat).

(** ** The interaction log *)

Inductive Request : Type :=
| GetSmartAccountClient
| ReadContract (address : Address) (functionName : string) (args : list AbiArg)
| EncodeFunctionData (functionName : string) (args : list AbiArg)
| IsDeployed (account : Address)
| GetTransactionCount (address : Address)
| SignAuthorization (signer : Address) (request : Authorization)
| EncodeCalls (calls : list Call)
| SendTransaction (tx : TxParams)
| WaitForTransactionReceipt (hash : Hash) (timeout : Z)
| ConsoleError (d : Diagnostic)
| ProcessExit (code : Z).

Inductive Response : Type :=
| RUnit
| RBool (b : bool)
| RNumber (n : Z)
| RHex (h : Hex)
| RSigned (a : SignedAuthorization)
| RReceipt (r : Receipt)
| RRejected (e : ExternalError).

Definition Entry : Type := Request * Response.

(** Requests that go over the network (chain RPC or bundler). *)
Definition is_network (r : Request) : bool :=
  match r with
  | GetSmartAccountClient | ReadContract _ _ _ | IsDeployed _
  | GetTransactionCount _ | SendTransaction _
  | WaitForTransactionReceipt _ _ => true
  | _ => false
  end.

Definition network_calls (t : list Entry) : list Entry :=
  List.filter (fun e => is_network (fst e)) t.

Definition submission_of (e : Entry) : option TxParams :=
  match fst e with SendTransaction tx => Some tx | _ => None end.

Fixpoint submissions (t : list Entry) : list TxParams :=
  match t with
  | [] => []
  | e :: t' =>
      match submission_of e with
      | Some tx => tx :: submissions t'
      | None => submissions t'
      end
  end.

(** ** The world outside the scripts *)

Record World : Type := mkWorld {
  process_env : gmap string string;
  owner_address : Address;
  account_address : Address;
  (** [faults n = Some e]: the external call made as the [n]-th entry of
      the log rejects with [e]. *)
  faults : nat -> option ExternalError;
  owner_signature : Authorization -> Signature;
  abi_encode : string -> list AbiArg -> Hex;
  account_encode_calls : list Call -> Hex;
  contract_view : Chain -> Address -> string -> list AbiArg -> Z;
  bundler : Chain -> TxParams -> Hash * Chain;
  inclusion : Chain -> Hash -> Z -> option Receipt
}.

Record State : Type := mkState {
  chain : Chain;
  trace : list Entry
}.

Definition record (st : State) (rq : Request) (rs : Response) : State :=
  {| chain := chain st; trace := trace st ++ [(rq, rs)] |}.

(** ** The monad *)

Inductive Outcome (A : Type) : Type :=
| Returned (a : A)
| Threw (e : Error)
| Exited (code : Z).
Arguments Returned {A} a.
Arguments Threw {A} e.
Arguments Exited {A} code.

Definition M (A : Type) : Type := World -> State -> Outcome A * State.

Definition ret {A} (a : A) : M A := fun _ st => (Returned a, st).

Definition bind {A B} (m : M A) (k : A -> M B) : M B :=
  fun w st =>
    match m w st with
    | (Returned a, st') => k a w st'
    | (Threw e, st') => (Threw e, st')
    | (Exited c, st') => (Exited c, st')
    end.

Notation "'let*' x ':=' m 'in' k" := (bind m (fun x => k))
  (at level 10, x name, m at level 100, k at level 200).
Notation "m ';;' k" := (bind m (fun _ => k))
  (at level 100, k at level 200, right associativity).

Definition ask : M World := fun w st => (Returned w, st).

Definition throw {A} (e : Error) : M A := fun _ st => (Threw e, st).

(** [try { m } catch (error) { h error }] *)
Definition try_catch {A} (m : M A) (h : Error -> M A) : M A :=
  fun w st =>
    match m w st with
    | (Threw e, st') => h e w st'
    | r => r
    end.

(** [await Promise.all([m1, m2, ...])]: every call is made, in order,
    whether or not an earlier one rejects.  When several of the calls
    reject, JavaScript reports the rejection that comes first in time,
    with the other calls still in flight; time is not part of the log,
    so that the calls are logged with their answers in the order they
    were made and the rejection reported is the first in that order.
    Nothing below depends on which of several rejections is reported,
    nor on the answers logged after a rejection. *)
Fixpoint promise_all {A} (ms : list (M A)) : M (list A) :=
  fun w st =>
    match ms with
    | [] => (Returned [], st)
    | m :: ms' =>
        let (o, st1) := m w st in
        let (os, st2) := promise_all ms' w st1 in
        (match o, os with
         | Returned a, Returned l => Returned (a :: l)
         | Returned _, Threw e => Threw e
         | Returned _, Exited c => Exited c
         | Threw e, _ => Threw e
         | Exited c, _ => Exited c
         end, st2)
    end.

(** An awaited call of an external capability: it is logged with its
    answer, and rejects when the world says so. *)
Definition extcall {A} (rq : Request) (inj : A -> Response)
    (answer : World -> Chain -> A * Chain) : M A :=
  fun w st =>
    match faults w (length (trace st)) with
    | Some e => (Threw (Rejected e), record st rq (RRejected e))
    | None =>
        let '(a, ch) := answer w (chain st) in
        (Returned a, {| chain := ch; trace := trace st ++ [(rq, inj a)] |})
    end.

Definition console_error (d : Diagnostic) : M unit :=
  fun _ st => (Returned tt, record st (ConsoleError d) RUnit).

(** [process.exit(code)]: nothing after it runs. *)
Definition process_exit {A} (code : Z) : M A :=
  fun _ st => (Exited code, record st (ProcessExit code) RUnit).

(** ** The external capabilities, as the scripts call them *)

(** The clients module hands out the smart account client; building it
    may reach the network.  [Clients] below models its caching. *)
Definition getSmartAccountClient : M unit :=
  extcall GetSmartAccountClient (fun _ => RUnit) (fun _ ch => (tt, ch)).

Definition readContract (address : Address) (functionName : string)
    (args : list AbiArg) : M Z :=
  extcall (ReadContract address functionName args) RNumber
    (fun w ch => (contract_view w ch address functionName args, ch)).

Definition encodeFunctionData (functionName : string) (args : list AbiArg) : M Hex :=
  extcall (EncodeFunctionData functionName args) RHex
    (fun w ch => (abi_encode w functionName args, ch)).

(** Modelled from the spec: the is-deployed check of the account object
    ([smartAccountClient.account.isDeployed()], code of the account
    library) is the chain read "get code / is-deployed at address"
    against the current chain state; it changes nothing. *)
Definition account_isDeployed : M bool :=
  fun w st =>
    extcall (IsDeployed (account_address w)) RBool
      (fun w ch => (has_code ch (account_address w), ch)) w st.

Definition getTransactionCount (address : Address) : M Z :=
  extcall (GetTransactionCount address) RNumber
    (fun _ ch => (tx_count ch address, ch)).

Definition signAuthorization (request : Authorization) : M SignedAuthorization :=
  fun w st =>
    extcall (SignAuthorization (owner_address w) request) RSigned
      (fun w ch => (mkSigned request (owner_signature w request), ch)) w st.

(** [account.encodeCalls(calls)] of the account library.  For an empty
    array the library throws ["No calls to encode"]; for the others the
    world gives the call data ([Abi] below has the encoding). *)
Definition encodeCalls (calls : list Call) : M Hex :=
  match calls with
  | [] =>
      fun _ st =>
        (Threw (Rejected (LibraryError "No calls to encode")),
         record st (EncodeCalls []) (RRejected (LibraryError "No calls to encode")))
  | _ :: _ =>
      extcall (EncodeCalls calls) RHex
        (fun w ch => (account_encode_calls w calls, ch))
  end.

Definition sendTransaction (tx : TxParams) : M Hash :=
  extcall (SendTransaction tx) RHex (fun w ch => bundler w ch tx).

Definition waitForTransactionReceipt (hash : Hash) (timeout : Z) : M Receipt :=
  fun w st =>
    let rq := WaitForTransactionReceipt hash timeout in
    match faults w (length (trace st)) with
    | Some e => (Threw (Rejected e), record st rq (RRejected e))
    | None =>
        match inclusion w (chain st) hash timeout with
        | Some r => (Returned r, record st rq (RReceipt r))
        | None =>
            (Threw (Rejected WaitForTransactionReceiptTimeoutError),
             record st rq (RRejected WaitForTransactionReceiptTimeoutError))
        end
    end.

(** ** JavaScript values of [process.env] *)

(** [!v] for [v : string | undefined]. *)
Definition falsy (v : option string) : bool :=
  match v with
  | None => true
  | Some s => if decide (s = "") then true else false
  end.

(** [v === lit] *)
Definition strict_eq (v : option string) (lit : string) : bool :=
  match v with
  | None => false
  | Some s => if decide (s = lit) then true else false
  end.

(** The value as it is used once the checks have passed. *)
Definition as_hex (v : option string) : string := default "undefined" v.

Definition lower_ascii (c : Ascii.ascii) : Ascii.ascii :=
  let n := Ascii.nat_of_ascii c in
  if ((65 <=? n) && (n <=? 90))%nat then Ascii.ascii_of_nat (n + 32) else c.

Fixpoint toLowerCase (s : string) : string :=
  match s with
  | EmptyString => EmptyString
  | String c s' => String (lower_ascii c) (toLowerCase s')
  end.

(** [s.startsWith('0x')] *)
Definition startsWith (s prefix : string) : bool := String.prefix prefix s.

(** ** JavaScript numbers

    A [number] is an IEEE 754 binary64 value: 53 bits of precision,
    exponents below 1024. *)

Definition JsNumber : Type := SpecFloat.spec_float.

(** [Number(n)] for a [bigint]: the number nearest to [n], ties to even. *)
Definition Number (n : Z) : JsNumber := SpecFloat.binary_normalize 53 1024 n 0 false.

(** [x / y] *)
Definition js_div (x y : JsNumber) : JsNumber := SpecFloat.SFdiv 53 1024 x y.

(** [Number(amount) / 1e18]; the literal [1e18] is the number 10^18,
    which binary64 holds exactly. *)
Definition in_units (amount : Z) : JsNumber :=
  js_div (Number amount) (Number 1000000000000000000).

Arguments Number : simpl never.
Arguments js_div : simpl never.
Arguments in_units : simpl never.

(** ** Constants *)

Definition SIMPLE_ACCOUNT_LOGIC_ADDRESS : Address :=
  "0xe6Cae83BdE06E4c305530e199D7217f42808555B".

(** [sepolia.id] of viem/chains. *)
Definition sepolia_id : Z := 11155111.

Definition TRANSFER_EVENT_TOPIC : Hex :=
  "0xddf252ad1be2c89b69c2b068fc378daa952ba7f163c4a11628f55a4df523b3ef".

Definition is_transfer_log (tokenAddress : Address) (l : Log) : bool :=
  (if decide (toLowerCase (log_address l) = toLowerCase tokenAddress) then true else false)
  && (if decide (log_topics l !! 0%nat = Some TRANSFER_EVENT_TOPIC) then true else false).

(** The exit code of a process whose last statement has ended with
    [o]: an error nothing caught makes it 1. *)
Definition code_of (o : Outcome unit) : Z :=
  match o with
  | Returned _ => 0
  | Exited code => code
  | Threw _ => 1
  end.

(** The process from the call of [main] on: [main().catch(handler)].
    A [main] that returns lets the process end normally, with code 0;
    so does a handler that returns.  What comes before the call, the
    evaluation of the imported modules, is part of [Tools.Program]. *)
Definition run_process (main : M unit) (handler : Error -> M unit)
    (w : World) (c : Chain) : Z * State :=
  match main w {| chain := c; trace := [] |} with
  | (Returned _, st) => (0, st)
  | (Exited code, st) => (code, st)
  | (Threw e, st) =>
      match handler e w st with
      | (Exited code, st') => (code, st')
      | (_, st') => (0, st')
      end
  end.

(** ** The atomic batch transfer script *)

Module BatchTransfer.

(** Lines 123-292 of [main]: everything from the deployment check on,
    as a function of the variables of [main] it reads. *)
Definition dispatch (tokenAddress receiver1 receiver2 : Address)
    (calls : list Call) : M unit :=
  let* w := ask in
  (* Check if account is deployed *)
  let* isDeployed := account_isDeployed in
  (* Prepare authorization if needed *)
  let* authorization :=
    if negb isDeployed then
      let* nonce := getTransactionCount (owner_address w) in
      let* signed := signAuthorization
        {| contractAddress := SIMPLE_ACCOUNT_LOGIC_ADDRESS;
           chainId := sepolia_id;
           nonce := nonce |} in
      ret (Some signed)
    else ret None in
  (* Use smart account's encodeCalls to properly batch the operations *)
  let* batchCallData := encodeCalls calls in
  let* hash :=
    try_catch
      (let txParams :=
         {| tx_to := account_address w;
            tx_value := 0;
            tx_data := batchCallData;
            (* Include authorization only on first transaction *)
            tx_authorization :=
              match authorization with
              | Some a => Some a
              | None => None
              end |} in
       sendTransaction txParams)
      (fun error =>
         console_error (TransactionFailed error);;
         console_error (DebugInfo isDeployed (account_address w) (owner_address w)
                          (match authorization with Some _ => true | None => false end));;
         throw error) in
  let* receipt := waitForTransactionReceipt hash 120000 in
  (if match status receipt with reverted => true | success => false end then
     console_error TransactionReverted;;
     process_exit 1
   else ret tt);;
  (* Verify smart account deployment status *)
  (if negb isDeployed then
     let* isDeployedAfter := account_isDeployed in ret tt
   else ret tt);;
  (* Verify final balances *)
  let* balancesAfter :=
    promise_all
      [ readContract tokenAddress "balanceOf" [ArgAddress (account_address w)];
        readContract tokenAddress "balanceOf" [ArgAddress receiver1];
        readContract tokenAddress "balanceOf" [ArgAddress receiver2] ] in
  (* Verify the transfers by checking Transfer events *)
  let transferEvents := List.filter (is_transfer_log tokenAddress) (logs receipt) in
  if decide (length transferEvents = 2%nat) then ret tt
  else console_error (UnexpectedTransferEvents (length transferEvents)).

Definition main : M unit :=
  let* w := ask in
  let tokenAddress := process_env w !! "ERC20_TOKEN_ADDRESS" in
  let receiver1 := process_env w !! "RECEIVER_ADDRESS" in
  let receiver2 := process_env w !! "RECEIVER_ADDRESS2" in
  if falsy tokenAddress || strict_eq tokenAddress "0x" then
    throw (MissingEnv "ERC20_TOKEN_ADDRESS")
  else if falsy receiver1 || strict_eq receiver1 "0x" then
    throw (MissingEnv "RECEIVER_ADDRESS")
  else if falsy receiver2 then
    throw (MissingEnv "RECEIVER_ADDRESS2")
  else
  let tokenAddress := as_hex tokenAddress in
  let receiver1 := as_hex receiver1 in
  let receiver2 := as_hex receiver2 in
  let* smartAccountClient := getSmartAccountClient in
  (* Prepare two transfers *)
  let amount1 := 10 * 10 ^ 18 in
  let amount2 := 20 * 10 ^ 18 in
  (* Snapshot balances before transaction *)
  let* balancesBefore :=
    promise_all
      [ readContract tokenAddress "balanceOf" [ArgAddress (account_address w)];
        readContract tokenAddress "balanceOf" [ArgAddress receiver1];
        readContract tokenAddress "balanceOf" [ArgAddress receiver2] ] in
  (* Encode individual transfer calls *)
  let* transferData1 :=
    encodeFunctionData "transfer" [ArgAddress receiver1; ArgUint amount1] in
  let* transferData2 :=
    encodeFunctionData "transfer" [ArgAddress receiver2; ArgUint amount2] in
  (* Define calls array for batch execution *)
  let calls :=
    [ {| call_to := tokenAddress; call_value := 0; call_data := transferData1 |};
      {| call_to := tokenAddress; call_value := 0; call_data := transferData2 |} ] in
  dispatch tokenAddress receiver1 receiver2 calls.

(** [main().catch((error) => { console.error('Fatal error:', error); process.exit(1); })] *)
Definition on_fatal (error : Error) : M unit :=
  console_error (FatalError error);;
  process_exit 1.

(** The last statement of the module, [main().catch(...)], as a
    computation. *)
Definition started : M unit := try_catch main on_fatal.

(** The run from the call of [main] on. *)
Definition script : World -> Chain -> Z * State := run_process main on_fatal.

End BatchTransfer.

(** ** The single transfer script (sendErc20With7702) *)

Module SendErc20With7702.

Definition main : M unit :=
  let* w := ask in
  let tokenAddress := process_env w !! "ERC20_TOKEN_ADDRESS" in
  let receiver := process_env w !! "RECEIVER_ADDRESS" in
  if falsy tokenAddress || strict_eq tokenAddress "0x" then
    throw (MissingEnv "ERC20_TOKEN_ADDRESS")
  else if falsy receiver || strict_eq receiver "0x" then
    throw (MissingEnv "RECEIVER_ADDRESS")
  else
  let tokenAddress := as_hex tokenAddress in
  let receiver := as_hex receiver in
  let* smartAccountClient := getSmartAccountClient in
  let amount := 10 * 10 ^ 18 in
  (* Snapshot balances before transaction *)
  let* balancesBefore :=
    promise_all
      [ readContract tokenAddress "balanceOf" [ArgAddress (account_address w)];
        readContract tokenAddress "balanceOf" [ArgAddress receiver] ] in
  (* Encode ERC-20 transfer call *)
  let* transferData :=
    encodeFunctionData "transfer" [ArgAddress receiver; ArgUint amount] in
  let* isDeployed := account_isDeployed in
  (* Critical: Sign EIP-7702 authorization ONLY on first transaction.
     Must use EOA transaction nonce, not smart account nonce *)
  let* authorization :=
    if negb isDeployed then
      let* nonce := getTransactionCount (owner_address w) in
      let* signed := signAuthorization
        {| contractAddress := SIMPLE_ACCOUNT_LOGIC_ADDRESS;
           chainId := sepolia_id;
           nonce := nonce |} in
      ret (Some signed)
    else ret None in
  let* hash :=
    try_catch
      (let txParams :=
         {| tx_to := tokenAddress;
            tx_value := 0;
            tx_data := transferData;
            (* Include authorization only on first transaction *)
            tx_authorization :=
              match authorization with
              | Some a => Some a
              | None => None
              end |} in
       sendTransaction txParams)
      (fun error =>
         console_error (TransactionFailed error);;
         console_error (DebugInfo isDeployed (account_address w) (owner_address w)
                          (match authorization with Some _ => true | None => false end));;
         throw error) in
  let* receipt := waitForTransactionReceipt hash 120000 in
  (if match status receipt with reverted => true | success => false end then
     console_error TransactionReverted;;
     process_exit 1
   else ret tt);;
  (* Verify smart account deployment status *)
  let* isDeployedAfter := account_isDeployed in
  (* Verify final balances *)
  let* balancesAfter :=
    promise_all
      [ readContract tokenAddress "balanceOf" [ArgAddress (account_address w)];
        readContract tokenAddress "balanceOf" [ArgAddress receiver] ] in
  (* The search for the Transfer log only chooses between two console.log lines. *)
  ret tt.

(** [main().catch((error) => { console.error('Error:', error.message);
    console.error('Full error:', error); process.exit(1); })] *)
Definition on_fatal (error : Error) : M unit :=
  console_error (ErrorMessage error);;
  console_error (FullError error);;
  process_exit 1.

(** The last statement of the module, [main().catch(...)], as a
    computation. *)
Definition started : M unit := try_catch main on_fatal.

(** The run from the call of [main] on. *)
Definition script : World -> Chain -> Z * State := run_process main on_fatal.

End SendErc20With7702.

(** ** The clients module: lazily built, cached account and client

    [getSimple7702Account] and [getSmartAccountClient] are [async]
    functions over two module-level variables.  An [async] function runs
    up to its first [await] when it is called and is resumed later, one
    segment at a time; between two segments other code may run.  A call
    in progress is a value of [Async]; objects are references, so that
    "the identical object" is equality of references. *)

Module Clients.

Definition ObjRef := nat.

Record Memory : Type := mkMemory {
  (** [let _simple7702Account = null] *)
  _simple7702Account : option ObjRef;
  (** [let _smartAccountClient = null] *)
  _smartAccountClient : option ObjRef;
  (** the account objects [to7702SimpleSmartAccount] has produced *)
  accounts_built : list ObjRef;
  (** the client objects [createSmartAccountClient] has produced,
      each with the account it was built around *)
  clients_built : list (ObjRef * ObjRef);
  (** the calls of [to7702SimpleSmartAccount] made so far *)
  account_requests : nat
}.

(** The state of the module when it has just been loaded. *)
Definition fresh_process : Memory :=
  {| _simple7702Account := None;
     _smartAccountClient := None;
     accounts_built := [];
     clients_built := [];
     account_requests := 0 |}.

(** A new object is a reference no earlier object has. *)
Definition fresh (m : Memory) : ObjRef :=
  (length (accounts_built m) + length (clients_built m))%nat.

#[warnings="-register-all"]
Inductive Async (A : Type) : Type :=
| Resolved (a : A)
| Failed (e : ExternalError)
| Await (resume : Memory -> Memory * Async A).
Arguments Resolved {A} a.
Arguments Failed {A} e.
Arguments Await {A} resume.

(** A call: its first segment, run at once. *)
Definition AsyncCall (A : Type) : Type := Memory -> Memory * Async A.

(** [const x = await p; k x]: the continuation never runs in the
    segment that awaits, even when [p] is settled already. *)
Fixpoint await_then {A B} (p : Async A) (k : A -> AsyncCall B) : Async B :=
  match p with
  | Resolved a => Await (k a)
  | Failed e => Await (fun m => (m, Failed e))
  | Await resume =>
      Await (fun m => let (m', p') := resume m in (m', await_then p' k))
  end.

Section Functions.

(** [rejects n = Some e]: the [n]-th call of
    [to7702SimpleSmartAccount] rejects with [e]. *)
Variable rejects : nat -> option ExternalError.

Definition getSimple7702Account : AsyncCall ObjRef :=
  fun m =>
    match _simple7702Account m with
    | Some account => (m, Resolved account)
    | None =>
        (* to7702SimpleSmartAccount({ client: publicClient, owner }) is called ... *)
        let request := account_requests m in
        let m1 :=
          {| _simple7702Account := _simple7702Account m;
             _smartAccountClient := _smartAccountClient m;
             accounts_built := accounts_built m;
             clients_built := clients_built m;
             account_requests := S request |} in
        (* ... and awaited; the assignment runs when it has resolved *)
        (m1,
         Await (fun m' =>
           match rejects request with
           | Some e => (m', Failed e)
           | None =>
               let account := fresh m' in
               ({| _simple7702Account := Some account;
                   _smartAccountClient := _smartAccountClient m';
                   accounts_built := accounts_built m' ++ [account];
                   clients_built := clients_built m';
                   account_requests := account_requests m' |},
                Resolved account)
           end))
    end.

Definition getSmartAccountClient : AsyncCall ObjRef :=
  fun m =>
    match _smartAccountClient m with
    | Some client => (m, Resolved client)
    | None =>
        (* const account = await getSimple7702Account(); *)
        let (m1, pending) := getSimple7702Account m in
        (m1,
         await_then pending (fun account m' =>
           (* createSmartAccountClient({ chain, account, ... }) is synchronous *)
           let client := fresh m' in
           ({| _simple7702Account := _simple7702Account m';
               _smartAccountClient := Some client;
               accounts_built := accounts_built m';
               clients_built := clients_built m' ++ [(client, account)];
               account_requests := account_requests m' |},
            Resolved client)))
    end.

End Functions.

(** [await f()] with nothing else running: the call is resumed until
    it has settled. *)
Fixpoint settle {A} (m : Memory) (p : Async A) : Memory * Async A :=
  match p with
  | Await resume => let (m', p') := resume m in settle m' p'
  | _ => (m, p)
  end.

Definition awaited {A} (f : AsyncCall A) (m : Memory) : Memory * Async A :=
  let (m1, p) := f m in settle m1 p.

(** The two exported functions. *)
Inductive Factory : Type := Account | Client.

Definition factory_call (rejects : nat -> option ExternalError) (f : Factory)
    : AsyncCall ObjRef :=
  match f with
  | Account => getSimple7702Account rejects
  | Client => getSmartAccountClient rejects
  end.

(** The variable a function caches its object in. *)
Definition cache_of (f : Factory) (m : Memory) : option ObjRef :=
  match f with
  | Account => _simple7702Account m
  | Client => _smartAccountClient m
  end.

(** Calls one after the other, each awaited before the next. *)
Fixpoint in_sequence (rejects : nat -> option ExternalError)
    (fs : list Factory) (m : Memory) : Memory * list (Factory * Async ObjRef) :=
  match fs with
  | [] => (m, [])
  | f :: fs' =>
      let (m1, r) := awaited (factory_call rejects f) m in
      let (m2, rs) := in_sequence rejects fs' m1 in
      (m2, (f, r) :: rs)
  end.

(** Calls made one after the other without awaiting: each runs its
    first segment, in order. *)
Fixpoint call_all {A} (fs : list (AsyncCall A)) (m : Memory)
    : Memory * list (Async A) :=
  match fs with
  | [] => (m, [])
  | f :: fs' =>
      let (m1, p) := f m in
      let (m2, ps) := call_all fs' m1 in
      (m2, p :: ps)
  end.

(** One turn of the job queue: every call still waiting is resumed
    once, in the order the calls were made. *)
Fixpoint turn {A} (m : Memory) (ps : list (Async A)) : Memory * list (Async A) :=
  match ps with
  | [] => (m, [])
  | Await resume :: ps' =>
      let (m1, p) := resume m in
      let (m2, ps'') := turn m1 ps' in
      (m2, p :: ps'')
  | p :: ps' =>
      let (m2, ps'') := turn m ps' in
      (m2, p :: ps'')
  end.

Fixpoint event_loop {A} (turns : nat) (m : Memory) (ps : list (Async A))
    : Memory * list (Async A) :=
  match turns with
  | O => (m, ps)
  | S n => let (m', ps') := turn m ps in event_loop n m' ps'
  end.

(** [Promise.all([f(), g(), ...])] *)
Definition overlapping {A} (turns : nat) (fs : list (AsyncCall A)) (m : Memory)
    : Memory * list (Async A) :=
  let (m1, ps) := call_all fs m in event_loop turns m1 ps.

(** What holds of the two variables between two awaited calls: each
    holds the one object built so far, if any. *)
Definition coherent (m : Memory) : Prop :=
  match _simple7702Account m with
  | None => accounts_built m = []
  | Some a => accounts_built m = [a]
  end /\
  match _smartAccountClient m with
  | None => clients_built m = []
  | Some c => exists a, clients_built m = [(c, a)]
  end.

End Clients.

(** ** The call data of a batch

    What [account.encodeCalls] returns for the calls of a batch, and
    what a reader of that call data finds in it.  Neither the encoder
    nor a decoder is part of the sources: the encoder is the account
    library's, and the module models it from the spec and from the
    contract ABI (see [encodeCalls] and [decodeCalls]). *)

Module Abi.

Local Open Scope list_scope.

Definition Bytes := list Byte.byte.

(** The byte with a value below 256. *)
Definition byte_of (n : N) : Byte.byte := default Byte.x00 (Byte.of_N n).

(** *** Hex text

    An [Address] or [Hex] value is the text [0x] followed by two hex
    digits for each byte; digits are read in either case and written in
    lower case. *)

Definition hex_digit (n : N) : ascii :=
  if (n <? 10)%N then ascii_of_N (48 + n) else ascii_of_N (87 + n).

Definition digit_value (c : ascii) : option N :=
  let n := N_of_ascii c in
  if (48 <=? n)%N && (n <=? 57)%N then Some (n - 48)%N
  else if (97 <=? n)%N && (n <=? 102)%N then Some (n - 87)%N
  else if (65 <=? n)%N && (n <=? 70)%N then Some (n - 55)%N
  else None.

Fixpoint digits_of_bytes (bs : Bytes) : string :=
  match bs with
  | [] => EmptyString
  | b :: bs' =>
      String (hex_digit (Byte.to_N b / 16))
        (String (hex_digit (Byte.to_N b mod 16)) (digits_of_bytes bs'))
  end.

Fixpoint bytes_of_digits (s : string) : option Bytes :=
  match s with
  | EmptyString => Some []
  | String h (String l s') =>
      match digit_value h, digit_value l, bytes_of_digits s' with
      | Some hi, Some lo, Some bs => Some (byte_of (16 * hi + lo) :: bs)
      | _, _, _ => None
      end
  | _ => None
  end.

Definition to_hex (bs : Bytes) : Hex := String "0" (String "x" (digits_of_bytes bs)).

Definition of_hex (h : Hex) : option Bytes :=
  match h with
  | String "0" (String "x" digits) => bytes_of_digits digits
  | _ => None
  end.

(** *** Words

    A value of a static type takes one 32-byte word: an unsigned
    integer in big-endian order, an address in the low 20 bytes. *)

Fixpoint be_bytes (k : nat) (n : N) : Bytes :=
  match k with
  | O => []
  | S k' => be_bytes k' (n / 256) ++ [byte_of (n mod 256)]
  end.

(** The number a sequence of bytes is in big-endian order. *)
Definition be_value (bs : Bytes) : N :=
  fold_left (fun acc b => 256 * acc + Byte.to_N b)%N bs 0%N.

Definition word (n : N) : Bytes := be_bytes 32 n.

(** The word of a length or of an offset, counted in bytes. *)
Definition size_word (n : nat) : Bytes := word (N.of_nat n).

(** 2^256 *)
Definition uint256_limit : N := Eval vm_compute in (256 ^ 32)%N.

Definition zeros (k : nat) : Bytes := repeat Byte.x00 k.

(** A byte string is filled up with zeros to a multiple of 32 bytes. *)
Definition padding (len : nat) : nat := ((32 - len mod 32) mod 32)%nat.

(** A call descriptor as the values it stands for: the 20 bytes of the
    destination, the value, the bytes of the call data. *)
Record Triple : Type := mkTriple {
  destination : Bytes;
  value : N;
  data : Bytes
}.

(** A triple that fits the types of the fields: the address has 20
    bytes and the value is below 2^256. *)
Definition fits (t : Triple) : Prop :=
  length (destination t) = 20%nat /\ (value t < uint256_limit)%N.

(** The encoding of [(address target, uint256 value, bytes data)]: the
    two static fields, the offset of the byte string from the start of
    the tuple, then the byte string with its length in front. *)
Definition enc_tuple (t : Triple) : Bytes :=
  zeros 12 ++ destination t ++ word (value t) ++ size_word 96 ++
  size_word (length (data t)) ++ data t ++ zeros (padding (length (data t))).

(** Where the encodings of the tuples start, counted from the start of
    the offsets. *)
Fixpoint offsets (start : nat) (ts : list Triple) : list nat :=
  match ts with
  | [] => []
  | t :: ts' => start :: offsets (start + length (enc_tuple t)) ts'
  end.

(** The encoding of an array of tuples: its length, the offset of each
    element, the elements in their order. *)
Definition enc_array (ts : list Triple) : Bytes :=
  size_word (length ts) ++
  flat_map size_word (offsets (32 * length ts) ts) ++
  flat_map enc_tuple ts.

(** The first four bytes of the Keccak-256 hash of
    [executeBatch((address,uint256,bytes)[])] and of
    [execute(address,uint256,bytes)]. *)
Definition executeBatch_selector : Bytes := [Byte.x34; Byte.xfc; Byte.xd5; Byte.xbe].
Definition execute_selector : Bytes := [Byte.xb6; Byte.x1d; Byte.x27; Byte.xf6].

(** Several calls are a call of [executeBatch] with the array of the
    calls; a single call is a call of [execute] with its three fields,
    which are laid out as the fields of a tuple are. *)
Definition encode (ts : list Triple) : option Bytes :=
  match ts with
  | [] => None
  | [t] => Some (execute_selector ++ enc_tuple t)
  | _ => Some (executeBatch_selector ++ size_word 32 ++ enc_array ts)
  end.

(** The values of a call descriptor, when it has them: [to] is the
    text of 20 bytes, [value] is within [uint256], [data] is the text
    of a byte string. *)
Definition triple_of_call (c : Call) : option Triple :=
  match of_hex (call_to c), of_hex (call_data c) with
  | Some to, Some d =>
      if (length to =? 20)%nat && (0 <=? call_value c)%Z
         && (Z.to_N (call_value c) <? uint256_limit)%N
      then Some (mkTriple to (Z.to_N (call_value c)) d)
      else None
  | _, _ => None
  end.

Fixpoint triples (calls : list Call) : option (list Triple) :=
  match calls with
  | [] => Some []
  | c :: calls' =>
      match triple_of_call c, triples calls' with
      | Some t, Some ts => Some (t :: ts)
      | _, _ => None
      end
  end.

(** Modelled from the spec: [account.encodeCalls] is code of the
    account library, which is not part of the sources; the spec has it
    "encode the ordered calls sequence as a single opaque call-data
    blob" ("single call: direct call data; multiple calls:
    batched-execute encoding") that, "when decoded, must reproduce the
    original destination/value/data triples in the exact input order".
    The encoding is taken to be the contract ABI encoding of a call of
    SimpleAccount's [executeBatch], the function the header of the batch
    script names; lengths and offsets are below 2^256.  The result is
    [None] where the library rejects: no call, or a field that is not
    of its type. *)
Definition encodeCalls (calls : list Call) : option Hex :=
  match triples calls with
  | Some ts =>
      match encode ts with
      | Some bs =>
          if (N.of_nat (length bs) <? uint256_limit)%N then Some (to_hex bs) else None
      | None => None
      end
  | None => None
  end.

(** *** Decoding

    The decoder reads the call data as a contract does: it finds every
    value at the offset the encoding gives for it. *)

(** The [len] bytes at offset [off], if they are there. *)
Definition slice (off len : nat) (bs : Bytes) : option Bytes :=
  let s := take len (drop off bs) in
  if (length s =? len)%nat then Some s else None.

Definition word_at (off : nat) (bs : Bytes) : option N :=
  match slice off 32 bs with
  | Some w => Some (be_value w)
  | None => None
  end.

Definition is_zero (b : Byte.byte) : bool := Byte.eqb b Byte.x00.

Definition address_at (off : nat) (bs : Bytes) : option Bytes :=
  match slice off 32 bs with
  | Some w => if forallb is_zero (take 12 w) then Some (drop 12 w) else None
  | None => None
  end.

(** A byte string: its length, then that many bytes. *)
Definition bytes_at (off : nat) (bs : Bytes) : option Bytes :=
  match word_at off bs with
  | Some len => slice (off + 32) (N.to_nat len) bs
  | None => None
  end.

Definition dec_tuple (bs : Bytes) : option Triple :=
  match address_at 0 bs, word_at 32 bs, word_at 64 bs with
  | Some to, Some v, Some off =>
      match bytes_at (N.to_nat off) bs with
      | Some d => Some (mkTriple to v d)
      | None => None
      end
  | _, _, _ => None
  end.

(** The elements [i], [i + 1], ... of an array of [n] more elements,
    each at its offset. *)
Fixpoint dec_elems (n i : nat) (area : Bytes) : option (list Triple) :=
  match n with
  | O => Some []
  | S n' =>
      match word_at (32 * i) area with
      | Some off =>
          match dec_tuple (drop (N.to_nat off) area), dec_elems n' (S i) area with
          | Some t, Some ts => Some (t :: ts)
          | _, _ => None
          end
      | None => None
      end
  end.

Definition dec_array (bs : Bytes) : option (list Triple) :=
  match word_at 0 bs with
  | Some n => dec_elems (N.to_nat n) 0 (drop 32 bs)
  | None => None
  end.

Definition same_bytes (a b : Bytes) : bool :=
  (length a =? length b)%nat && forallb (fun p => Byte.eqb (fst p) (snd p)) (combine a b).

(** The calls a call of [executeBatch] or of [execute] carries. *)
Definition decode (bs : Bytes) : option (list Triple) :=
  let selector := take 4 bs in
  let args := drop 4 bs in
  if same_bytes selector executeBatch_selector then
    match word_at 0 args with
    | Some off => dec_array (drop (N.to_nat off) args)
    | None => None
    end
  else if same_bytes selector execute_selector then
    match dec_tuple args with
    | Some t => Some [t]
    | None => None
    end
  else None.

(** Modelled from the spec: the decoding its order-preservation
    invariant speaks of ("the encoded call data, when decoded"); the
    sources have no decoder.  It is the reading of the call data of
    [executeBatch] or [execute] by the offsets the contract ABI lays
    down. *)
Definition decodeCalls (h : Hex) : option (list Triple) :=
  match of_hex h with
  | Some bs => decode bs
  | None => None
  end.

(** The call data of [transfer(address,uint256)], for the worlds below. *)
Definition transfer_selector : Bytes := [Byte.xa9; Byte.x05; Byte.x9c; Byte.xbb].

Definition transfer_data (recipient : Address) (amount : Z) : option Hex :=
  match of_hex recipient with
  | Some to =>
      if (length to =? 20)%nat && (0 <=? amount)%Z && (Z.to_N amount <? uint256_limit)%N
      then Some (to_hex (transfer_selector ++ zeros 12 ++ to ++ word (Z.to_N amount)))
      else None
  | None => None
  end.

End Abi.

(** ** The [.env] file, as [updateEnvFile] rewrites it

    A JavaScript string is a sequence of UTF-16 code units; the methods
    used here ([includes], [replace] with a regular expression without
    flags, [+=]) work on code units. *)

Module EnvFile.

Local Open Scope list_scope.

Definition JsString := list N.

(** A string literal of the source, all ASCII. *)
Definition js (s : string) : JsString :=
  List.map N_of_ascii (String.list_ascii_of_string s).

(** ['ERC20_TOKEN_ADDRESS='] *)
Definition KEY : JsString := js "ERC20_TOKEN_ADDRESS=".

(** The code units [.] does not match: LF, CR, LS, PS. *)
Definition line_terminator (u : N) : bool :=
  (u =? 10)%N || (u =? 13)%N || (u =? 8232)%N || (u =? 8233)%N.

Fixpoint starts_with (p s : JsString) : bool :=
  match p, s with
  | [], _ => true
  | _ :: _, [] => false
  | a :: p', b :: s' => (a =? b)%N && starts_with p' s'
  end.

(** [hay.includes(needle)] *)
Fixpoint includes (needle hay : JsString) : bool :=
  starts_with needle hay
  || match hay with
     | [] => false
     | _ :: hay' => includes needle hay'
     end.

(** [.*]: the longest run of code units other than line terminators,
    and what follows it. *)
Fixpoint dot_star (s : JsString) : JsString * JsString :=
  match s with
  | [] => ([], [])
  | u :: s' =>
      if line_terminator u then ([], s)
      else let (m, rest) := dot_star s' in (u :: m, rest)
  end.

(** [/ERC20_TOKEN_ADDRESS=.*/.exec(s)]: the leftmost match, with the
    text before it and the text after it. *)
Fixpoint exec (s : JsString) : option (JsString * JsString * JsString) :=
  if starts_with KEY s then
    let (m, rest) := dot_star (drop (length KEY) s) in
    Some ([], KEY ++ m, rest)
  else
    match s with
    | [] => None
    | u :: s' =>
        match exec s' with
        | Some (before, matched, rest) => Some (u :: before, matched, rest)
        | None => None
        end
    end.

(** The replacement text of [replace] for a pattern without capture
    groups: [$$] is a dollar sign, [$&] the matched text, [$`] the text
    before the match, [$'] the text after it; any other [$] stands for
    itself. *)
Fixpoint get_substitution (matched before rest template : JsString) : JsString :=
  match template with
  | [] => []
  | u :: t =>
      if (u =? 36)%N then
        match t with
        | v :: t' =>
            if (v =? 36)%N then 36%N :: get_substitution matched before rest t'
            else if (v =? 38)%N then matched ++ get_substitution matched before rest t'
            else if (v =? 96)%N then before ++ get_substitution matched before rest t'
            else if (v =? 39)%N then rest ++ get_substitution matched before rest t'
            else u :: get_substitution matched before rest t
        | [] => [u]
        end
      else u :: get_substitution matched before rest t
  end.

(** [s.replace(/ERC20_TOKEN_ADDRESS=.*/, replacement)] *)
Definition replace (s replacement : JsString) : JsString :=
  match exec s with
  | Some (before, matched, rest) =>
      before ++ get_substitution matched before rest replacement ++ rest
  | None => s
  end.

(** The new content [updateEnvFile] writes. *)
Definition updateEnvContent (envContent contractAddress : JsString) : JsString :=
  if includes KEY envContent then
    replace envContent (KEY ++ contractAddress)
  else
    envContent ++ [10%N] ++ KEY ++ contractAddress ++ [10%N].

(** A text without line terminators. *)
Definition one_line (s : JsString) : Prop :=
  forall u, In u s -> line_terminator u = false.

(** A text that ends a line: empty, or starting with a line terminator. *)
Definition ends_line (s : JsString) : Prop :=
  s = [] \/ exists u r, s = u :: r /\ line_terminator u = true.

(** A text without [$], which [replace] writes as it stands. *)
Definition dollar_free (s : JsString) : Prop :=
  forall u, In u s -> u <> 36%N.

End EnvFile.

(** ** The maintenance scripts: fundNewWallet, deployToken, checkSmartAccount

    They use capabilities the dispatch scripts do not: the balance of an
    address, the wallet client of the owner, the file system and the
    Solidity compiler.  Their log wraps the requests of the dispatch
    scripts and adds these. *)

Declare Scope tools_scope.

Module Tools.

Import EnvFile.

(** What a view of a contract returns: [name] and [symbol] are texts,
    balances and supplies are [bigint]s. *)
Inductive Value : Type :=
| VText (s : string)
| VAmount (n : Z).

(** An entry of [output.errors] of the compiler. *)
Record CompilerMessage : Type := mkMessage {
  severity : string;
  formattedMessage : string
}.

(** [output.contracts['TestToken.sol']['TestToken']] *)
Record Artifact : Type := mkArtifact {
  abi : string;
  bytecode_object : string
}.

Record CompilerOutput : Type := mkOutput {
  errors : option (list CompilerMessage);
  artifact : option Artifact
}.

(** What these scripts throw: their own errors (a missing variable, a
    private key without the prefix [0x], a balance that does not
    suffice, with the number its message prints after "have", a
    reverted transfer), the error of [readFileSync] for a file that is
    not there, the [TypeError] of reading a property of a contract the
    compiler output does not have, and the rejection of an external
    call, passed on unchanged. *)
Inductive Failure : Type :=
| Missing (name : string)
| KeyWithoutPrefix
| InsufficientEth (have : JsNumber)
| InsufficientTtk (have : JsNumber)
| EthReverted
| TtkReverted
| NoSuchFile (path : string)
| NoArtifact
| Rejection (e : ExternalError).

(** Lines written with [console.error] and [console.warn]. *)
Inductive Line : Type :=
| Fatal (e : Failure)
| Message (e : Failure)
| MissingVariables
| PleaseEnsure
| CompilationErrors
| Formatted (message : string)
| LowBalance
| DeploymentReverted
| DeploymentFailed
| Thrown (e : Failure).

Inductive Action : Type :=
| Shared (rq : Request)
| GetBalance (address : Address)
| WalletSendTransaction (to : Address) (value : Z)
| PrivateKeyToAccount (key : string)
| ReadFileSync (path : string)
| WriteFileSync (path : string) (content : JsString)
| SolcCompile (source : JsString)
| DeployContract (abi : string) (bytecode : Hex)
| WaitForDeployment (hash : Hash)
| ReadCompiled (abi : string) (address : Address) (functionName : string)
    (args : list AbiArg)
| Stderr (l : Line).

Inductive Reply : Type :=
| Plain (rs : Response)
| RValue (v : Value)
| RText (s : JsString)
| RCompiled (o : CompilerOutput)
| RDeployed (r : Receipt) (contractAddress : Address)
| RNoSuchFile.

Definition Event : Type := Action * Reply.

Record Services : Type := mkServices {
  base : World;
  eth_balance : Chain -> Address -> Z;
  (** [walletClient.sendTransaction({ to, value })] of the owner *)
  wallet_send : Chain -> Address -> Z -> Hash * Chain;
  solc : JsString -> CompilerOutput;
  (** [walletClient.deployContract({ abi, bytecode, args: [] })] *)
  wallet_deploy : Chain -> string -> Hex -> Hash * Chain;
  (** The receipt of a contract creation, with the address of the
      contract; [None]: the wait gives up. *)
  deployment : Chain -> Hash -> option (Receipt * Address);
  compiled_view : Chain -> string -> Address -> string -> list AbiArg -> Value
}.

Record Machine : Type := mkMachine {
  m_chain : Chain;
  files : gmap string JsString;
  events : list Event
}.

Definition log (st : Machine) (a : Action) (r : Reply) : Machine :=
  {| m_chain := m_chain st; files := files st; events := events st ++ [(a, r)] |}.

Inductive Result (A : Type) : Type :=
| Done (a : A)
| Raised (e : Failure)
| Halted (code : Z).
Arguments Done {A} a.
Arguments Raised {A} e.
Arguments Halted {A} code.

Definition T (A : Type) : Type := Services -> Machine -> Result A * Machine.

Definition ret {A} (a : A) : T A := fun _ st => (Done a, st).

Definition bind {A B} (m : T A) (k : A -> T B) : T B :=
  fun sv st =>
    match m sv st with
    | (Done a, st') => k a sv st'
    | (Raised e, st') => (Raised e, st')
    | (Halted c, st') => (Halted c, st')
    end.

Notation "'let*' x ':=' m 'in' k" := (bind m (fun x => k))
  (at level 10, x name, m at level 100, k at level 200) : tools_scope.
Notation "m ';;' k" := (bind m (fun _ => k))
  (at level 100, k at level 200, right associativity) : tools_scope.
Local Open Scope tools_scope.

Definition ask : T Services := fun sv st => (Done sv, st).

Definition throw {A} (e : Failure) : T A := fun _ st => (Raised e, st).

(** [try { m } catch (error) { h error }] *)
Definition try_catch {A} (m : T A) (h : Failure -> T A) : T A :=
  fun sv st =>
    match m sv st with
    | (Raised e, st') => h e sv st'
    | r => r
    end.

(** [await Promise.all([m1, m2, ...])], as for the dispatch scripts. *)
Fixpoint promise_all {A} (ms : list (T A)) : T (list A) :=
  fun sv st =>
    match ms with
    | [] => (Done [], st)
    | m :: ms' =>
        let (o, st1) := m sv st in
        let (os, st2) := promise_all ms' sv st1 in
        (match o, os with
         | Done a, Done l => Done (a :: l)
         | Done _, Raised e => Raised e
         | Done _, Halted c => Halted c
         | Raised e, _ => Raised e
         | Halted c, _ => Halted c
         end, st2)
    end.

(** A call of a capability of these scripts: logged with its answer;
    it rejects when the world says so. *)
Definition call {A} (a : Action) (inj : A -> Reply)
    (answer : Services -> Chain -> A * Chain) : T A :=
  fun sv st =>
    match faults (base sv) (length (events st)) with
    | Some e => (Raised (Rejection e), log st a (Plain (RRejected e)))
    | None =>
        let '(x, ch) := answer sv (m_chain st) in
        (Done x, {| m_chain := ch; files := files st;
                    events := events st ++ [(a, inj x)] |})
    end.

(** A capability of the dispatch scripts, called from here: the same
    call, its log entries appended to the log of this run. *)
Definition later (w : World) (n : nat) : World :=
  {| process_env := process_env w;
     owner_address := owner_address w;
     account_address := account_address w;
     faults := fun i => faults w (i + n);
     owner_signature := owner_signature w;
     abi_encode := abi_encode w;
     account_encode_calls := account_encode_calls w;
     contract_view := contract_view w;
     bundler := bundler w;
     inclusion := inclusion w |}.

Definition failure_of (e : Error) : Failure :=
  match e with
  | MissingEnv name => Missing name
  | Rejected e => Rejection e
  end.

Definition shared {A} (m : M A) : T A :=
  fun sv st =>
    let '(o, st') :=
      m (later (base sv) (length (events st)))
        {| chain := m_chain st; trace := [] |} in
    (match o with
     | Returned a => Done a
     | Threw e => Raised (failure_of e)
     | Exited c => Halted c
     end,
     {| m_chain := chain st'; files := files st;
        events := events st ++
                  List.map (fun e => (Shared (fst e), Plain (snd e))) (trace st') |}).

Definition console_error (l : Line) : T unit :=
  fun _ st => (Done tt, log st (Stderr l) (Plain RUnit)).

(** [console.warn] writes to the error stream as well. *)
Definition console_warn (l : Line) : T unit := console_error l.

Definition process_exit {A} (code : Z) : T A :=
  fun _ st => (Halted code, log st (Shared (ProcessExit code)) (Plain RUnit)).

Definition getBalance (address : Address) : T Z :=
  call (GetBalance address) (fun n => Plain (RNumber n))
    (fun sv ch => (eth_balance sv ch address, ch)).

Definition walletSendTransaction (to : Address) (value : Z) : T Hash :=
  call (WalletSendTransaction to value) (fun h => Plain (RHex h))
    (fun sv ch => wallet_send sv ch to value).

Definition privateKeyToAccount (key : string) : T unit :=
  call (PrivateKeyToAccount key) (fun _ => Plain RUnit) (fun _ ch => (tt, ch)).

(** [fs.readFileSync(path, 'utf8')]: a file that does not exist makes
    it throw. *)
Definition readFileSync (path : string) : T JsString :=
  fun sv st =>
    match faults (base sv) (length (events st)) with
    | Some e => (Raised (Rejection e), log st (ReadFileSync path) (Plain (RRejected e)))
    | None =>
        match files st !! path with
        | Some content => (Done content, log st (ReadFileSync path) (RText content))
        | None => (Raised (NoSuchFile path), log st (ReadFileSync path) RNoSuchFile)
        end
    end.

Definition writeFileSync (path : string) (content : JsString) : T unit :=
  fun sv st =>
    match faults (base sv) (length (events st)) with
    | Some e =>
        (Raised (Rejection e), log st (WriteFileSync path content) (Plain (RRejected e)))
    | None =>
        (Done tt,
         {| m_chain := m_chain st;
            files := <[path := content]> (files st);
            events := events st ++ [(WriteFileSync path content, Plain RUnit)] |})
    end.

(** [JSON.parse(solc.compile(JSON.stringify(input)))] for the one source
    of [input]. *)
Definition solcCompile (source : JsString) : T CompilerOutput :=
  call (SolcCompile source) RCompiled (fun sv ch => (solc sv source, ch)).

Definition walletDeployContract (abi : string) (bytecode : Hex) : T Hash :=
  call (DeployContract abi bytecode) (fun h => Plain (RHex h))
    (fun sv ch => wallet_deploy sv ch abi bytecode).

(** [publicClient.waitForTransactionReceipt({ hash })], no timeout
    given, for the transaction that creates the contract. *)
Definition waitForDeployment (hash : Hash) : T (Receipt * Address) :=
  fun sv st =>
    match faults (base sv) (length (events st)) with
    | Some e => (Raised (Rejection e), log st (WaitForDeployment hash) (Plain (RRejected e)))
    | None =>
        match deployment sv (m_chain st) hash with
        | Some (r, a) => (Done (r, a), log st (WaitForDeployment hash) (RDeployed r a))
        | None =>
            (Raised (Rejection WaitForTransactionReceiptTimeoutError),
             log st (WaitForDeployment hash)
               (Plain (RRejected WaitForTransactionReceiptTimeoutError)))
        end
    end.

Definition readCompiled (abi : string) (address : Address) (functionName : string)
    (args : list AbiArg) : T Value :=
  call (ReadCompiled abi address functionName args) RValue
    (fun sv ch => (compiled_view sv ch abi address functionName args, ch)).

(** [xs.forEach(f)] *)
Fixpoint for_each {A} (xs : list A) (f : A -> T unit) : T unit :=
  match xs with
  | [] => ret tt
  | x :: xs' => f x;; for_each xs' f
  end.

(** The process from the call of [main] on: [main().catch(handler)]
    and the end of the process. *)
Definition run_process (main : T unit) (handler : Failure -> T unit)
    (sv : Services) (c : Chain) (fs : gmap string JsString) : Z * Machine :=
  match main sv {| m_chain := c; files := fs; events := [] |} with
  | (Done _, st) => (0, st)
  | (Halted code, st) => (code, st)
  | (Raised e, st) =>
      match handler e sv st with
      | (Halted code, st') => (code, st')
      | (_, st') => (0, st')
      end
  end.

(** *** fundNewWallet *)

Module FundNewWallet.

(** [parseEther('0.1')] *)
Definition ethToSend : Z := 100000000000000000.

Definition main : T unit :=
  let* sv := ask in
  let w := base sv in
  let newWalletAddress := process_env w !! "ADDRESS2" in
  let tokenAddress := process_env w !! "ERC20_TOKEN_ADDRESS" in
  if falsy newWalletAddress then
    throw (Missing "ADDRESS2")
  else if falsy tokenAddress || strict_eq tokenAddress "0x" then
    throw (Missing "ERC20_TOKEN_ADDRESS")
  else
  let newWalletAddress := as_hex newWalletAddress in
  let tokenAddress := as_hex tokenAddress in
  (* Check current balances *)
  let* smartAccountClient := shared getSmartAccountClient in
  let smartAccountAddress := account_address w in
  let* balances :=
    promise_all
      [ getBalance (owner_address w);
        shared (readContract tokenAddress "balanceOf" [ArgAddress smartAccountAddress]);
        getBalance newWalletAddress;
        shared (readContract tokenAddress "balanceOf" [ArgAddress newWalletAddress]) ] in
  let currentEthBalance := nth 0 balances 0 in
  let currentTtkBalance := nth 1 balances 0 in
  (* Verify sufficient balances *)
  let ttkToSend := 10000 * 10 ^ 18 in
  if (currentEthBalance <? ethToSend)%Z then
    throw (InsufficientEth (in_units currentEthBalance))
  else if (currentTtkBalance <? ttkToSend)%Z then
    throw (InsufficientTtk (in_units currentTtkBalance))
  else
  (* Step 1: Send ETH from current EOA *)
  let* ethTxHash := walletSendTransaction newWalletAddress ethToSend in
  let* ethReceipt := shared (waitForTransactionReceipt ethTxHash 120000) in
  if match status ethReceipt with reverted => true | success => false end then
    throw EthReverted
  else
  (* Step 2: Send TTK from smart account *)
  let* transferData :=
    shared (encodeFunctionData "transfer"
              [ArgAddress newWalletAddress; ArgUint ttkToSend]) in
  let txParams :=
    {| tx_to := tokenAddress;
       tx_value := 0;
       tx_data := transferData;
       tx_authorization := None |} in
  let* ttkTxHash := shared (sendTransaction txParams) in
  let* ttkReceipt := shared (waitForTransactionReceipt ttkTxHash 120000) in
  if match status ttkReceipt with reverted => true | success => false end then
    throw TtkReverted
  else
  (* Verify final balances *)
  let* balancesAfter :=
    promise_all
      [ getBalance newWalletAddress;
        shared (readContract tokenAddress "balanceOf" [ArgAddress newWalletAddress]) ] in
  ret tt.

(** [main().catch((error) => { console.error('Fatal error:', error);
    process.exit(1); })] *)
Definition on_fatal (error : Failure) : T unit :=
  console_error (Fatal error);;
  process_exit 1.

(** The run from the call of [main] on. *)
Definition script : Services -> Chain -> gmap string JsString -> Z * Machine :=
  run_process main on_fatal.

End FundNewWallet.

(** *** deployToken *)

Module DeployToken.

Definition is_error (e : CompilerMessage) : bool :=
  if decide (severity e = "error") then true else false.

Definition compileContract : T (string * Hex) :=
  let* source := readFileSync "contracts/TestToken.sol" in
  let* output := solcCompile source in
  (match errors output with
   | Some all =>
       let errors := List.filter is_error all in
       if (0 <? length errors)%nat then
         console_error CompilationErrors;;
         for_each errors (fun err => console_error (Formatted (formattedMessage err)));;
         process_exit 1
       else ret tt
   | None => ret tt
   end);;
  match artifact output with
  | Some contract => ret (abi contract, "0x" +:+ bytecode_object contract)
  | None => throw NoArtifact
  end.

(** [parseEther('0.001')] *)
Definition lowBalance : Z := 1000000000000000.

Definition deployContract (bytecode : Hex) (abi : string) : T Address :=
  let* sv := ask in
  let account := owner_address (base sv) in
  let* balance := getBalance account in
  (if (balance <? lowBalance)%Z then console_warn LowBalance else ret tt);;
  let* hash := walletDeployContract abi bytecode in
  let* receipt := waitForDeployment hash in
  (if match status (fst receipt) with reverted => true | success => false end then
     console_error DeploymentReverted;;
     process_exit 1
   else ret tt);;
  let contractAddress := snd receipt in
  ret contractAddress.

Definition verifyDeployment (contractAddress : Address) (abi : string) : T unit :=
  let* sv := ask in
  let account := owner_address (base sv) in
  let* name := readCompiled abi contractAddress "name" [] in
  let* symbol := readCompiled abi contractAddress "symbol" [] in
  let* totalSupply := readCompiled abi contractAddress "totalSupply" [] in
  let* deployerBalance :=
    readCompiled abi contractAddress "balanceOf" [ArgAddress account] in
  ret tt.

(** Paths are relative to [process.cwd()]; the address is ASCII. *)
Definition updateEnvFile (contractAddress : Address) : T unit :=
  let envPath := ".env" in
  let* envContent := readFileSync envPath in
  writeFileSync envPath (updateEnvContent envContent (js contractAddress)).

Definition main : T unit :=
  try_catch
    ((* Step 1: Compile *)
     let* compiled := compileContract in
     let abi := fst compiled in
     let bytecode := snd compiled in
     (* Step 2: Deploy *)
     let* contractAddress := deployContract bytecode abi in
     (* Step 3: Verify *)
     verifyDeployment contractAddress abi;;
     (* Step 4: Update .env *)
     updateEnvFile contractAddress)
    (fun error =>
       console_error DeploymentFailed;;
       console_error (Thrown error);;
       process_exit 1).

(** The module, from its first statement to the call of [main]. *)
Definition module : T unit :=
  let* sv := ask in
  let PRIVATE_KEY := process_env (base sv) !! "PRIVATE_KEY" in
  let SEPOLIA_RPC_URL := process_env (base sv) !! "SEPOLIA_RPC_URL" in
  (if falsy PRIVATE_KEY || falsy SEPOLIA_RPC_URL then
     console_error MissingVariables;;
     console_error PleaseEnsure;;
     process_exit 1
   else ret tt);;
  let* account := privateKeyToAccount (as_hex PRIVATE_KEY) in
  main.

(** An error that nothing catches ends the process with code 1. *)
Definition uncaught (error : Failure) : T unit :=
  fun _ st => (Halted 1, st).

Definition script : Services -> Chain -> gmap string JsString -> Z * Machine :=
  run_process module uncaught.

End DeployToken.

(** *** checkSmartAccount *)

Module CheckSmartAccount.

Definition main : T unit :=
  let* sv := ask in
  let w := base sv in
  (* The client is built with its account, so [smartAccountClient.account]
     is there. *)
  let* smartAccountClient := shared getSmartAccountClient in
  (* Check on-chain deployment status *)
  let* isDeployed := shared account_isDeployed in
  (* Check ETH balance for gas *)
  let* ethBalance := getBalance (account_address w) in
  (* Check ERC-20 token balance if token is configured *)
  let tokenAddress := process_env w !! "ERC20_TOKEN_ADDRESS" in
  (if negb (falsy tokenAddress) && negb (strict_eq tokenAddress "0x") then
     try_catch
       (let* tokenBalance :=
          shared (readContract (as_hex tokenAddress) "balanceOf"
                    [ArgAddress (account_address w)]) in
        ret tt)
       (fun error => ret tt)
   else ret tt);;
  ret tt.

(** [main().catch((error) => { console.error('Error:', error.message);
    process.exit(1); })] *)
Definition on_error (error : Failure) : T unit :=
  console_error (Message error);;
  process_exit 1.

Definition script : Services -> Chain -> gmap string JsString -> Z * Machine :=
  run_process main on_error.

End CheckSmartAccount.

(** *** The imported modules

    [publicClient], [owner] and [clients] have statements of their own,
    which run when the module is evaluated: once, before the first
    statement of the module that imports it. *)

Module Imported.

(** publicClient.ts; [createPublicClient] only builds an object. *)
Definition publicClient : T unit :=
  let* sv := ask in
  if falsy (process_env (base sv) !! "SEPOLIA_RPC_URL") then
    throw (Missing "SEPOLIA_RPC_URL")
  else ret tt.

(** owner.ts *)
Definition owner : T unit :=
  let* sv := ask in
  let privateKey := process_env (base sv) !! "PRIVATE_KEY" in
  if falsy privateKey then
    throw (Missing "PRIVATE_KEY")
  else if negb (startsWith (as_hex privateKey) "0x") then
    throw KeyWithoutPrefix
  else
  let* owner := privateKeyToAccount (as_hex privateKey) in
  ret tt.

(** clients.ts, in a program that has evaluated [owner] already: its
    import of [owner] finds the module evaluated.  The two clients it
    creates are objects; nothing is sent. *)
Definition clients : T unit :=
  let* sv := ask in
  let pimlicoApiKey := process_env (base sv) !! "PIMLICO_API_KEY" in
  if falsy pimlicoApiKey then
    throw (Missing "PIMLICO_API_KEY")
  else ret tt.

End Imported.

(** *** The whole programs

    The import statements of the batch script, of the single transfer
    script and of fundNewWallet name, in this order, [publicClient],
    [owner] and [clients] (the other imports are libraries and the ABI
    of the token, without statements that can fail on the
    configuration).  Then comes [main().catch(...)]. *)

Module Program.

Definition imports : T unit :=
  Imported.publicClient;;
  Imported.owner;;
  Imported.clients.

Definition batchTransfer : T unit :=
  imports;;
  shared BatchTransfer.started.

Definition sendErc20With7702 : T unit :=
  imports;;
  shared SendErc20With7702.started.

Definition fundNewWallet : T unit :=
  imports;;
  try_catch FundNewWallet.main FundNewWallet.on_fatal.

End Program.

(** How a process has ended: its exit code, the error nothing caught,
    if there is one (the runtime prints it and the process exits with
    code 1), and the machine it leaves. *)
Record Ended : Type := mkEnded {
  exit_code : Z;
  uncaught_error : option Failure;
  machine : Machine
}.

Definition run_program (program : T unit)
    (sv : Services) (c : Chain) (fs : gmap string JsString) : Ended :=
  match program sv {| m_chain := c; files := fs; events := [] |} with
  | (Done _, st) => mkEnded 0 None st
  | (Halted code, st) => mkEnded code None st
  | (Raised e, st) => mkEnded 1 (Some e) st
  end.

(** An entry of the log of a dispatch script, in the log of a program. *)
Definition lifted (e : Entry) : Event := (Shared (fst e), Plain (snd e)).

(** The end of a program whose imports have succeeded, given the run
    [r] of its script: [privateKeyToAccount] was called with the key,
    then came the entries of the script. *)
Definition after_imports (key : string) (fs : gmap string JsString)
    (r : Z * State) : Ended :=
  {| exit_code := fst r;
     uncaught_error := None;
     machine :=
       {| m_chain := chain (snd r);
          files := fs;
          events := (PrivateKeyToAccount key, Plain RUnit) :: List.map lifted (trace (snd r)) |} |}.

(** *** Reading the log *)

(** The actions that go over the network. *)
Definition is_network_action (a : Action) : bool :=
  match a with
  | Shared rq => is_network rq
  | GetBalance _ | WalletSendTransaction _ _ | DeployContract _ _
  | WaitForDeployment _ | ReadCompiled _ _ _ _ => true
  | _ => false
  end.

Definition network_actions (t : list Event) : list Event :=
  List.filter (fun e => is_network_action (fst e)) t.

(** The error a line of the error stream shows, if it shows one. *)
Definition shown_by (a : Action) : option Failure :=
  match a with
  | Stderr (Fatal e) | Stderr (Message e) | Stderr (Thrown e) => Some e
  | Shared (ConsoleError (TransactionFailed e)) | Shared (ConsoleError (FatalError e))
  | Shared (ConsoleError (ErrorMessage e)) | Shared (ConsoleError (FullError e)) =>
      Some (failure_of e)
  | _ => None
  end.

Fixpoint shown_in (t : list Event) : list Failure :=
  match t with
  | [] => []
  | (a, _) :: t' =>
      match shown_by a with
      | Some e => e :: shown_in t'
      | None => shown_in t'
      end
  end.

(** The errors the operator sees at the end of a process: those the
    script wrote to the error stream, then the one nothing caught. *)
Definition errors_shown (r : Ended) : list Failure :=
  shown_in (events (machine r)) ++
  match uncaught_error r with
  | Some e => [e]
  | None => []
  end.

(** The errors the scripts and the modules they import raise about
    the configuration. *)
Definition is_configuration_error (e : Failure) : bool :=
  match e with
  | Missing _ | KeyWithoutPrefix => true
  | _ => false
  end.

(** A process that ended as the spec's "fails immediately with a
    configuration error, no network call attempted". *)
Definition stopped_by_configuration (r : Ended) : Prop :=
  exit_code r <> 0 /\
  (exists e, In e (errors_shown r) /\ is_configuration_error e = true) /\
  network_actions (events (machine r)) = [].

(** The actions of a log that were rejected. *)
Fixpoint rejected (t : list Event) : list Action :=
  match t with
  | [] => []
  | (a, Plain (RRejected _)) :: t' => a :: rejected t'
  | _ :: t' => rejected t'
  end.


(** The actions that move funds or create a contract. *)
Definition is_transaction (a : Action) : bool :=
  match a with
  | WalletSendTransaction _ _ | Shared (SendTransaction _) | DeployContract _ _ => true
  | _ => false
  end.

Definition transactions (t : list Event) : list Event :=
  List.filter (fun e => is_transaction (fst e)) t.

Definition first_action (t : list Event) : option Action :=
  match t with
  | [] => None
  | (a, _) :: _ => Some a
  end.

End Tools.

(** ** Reading the interaction log *)

(** The answer of the first deployment check of a run, with the address
    that was checked. *)
Fixpoint first_deployment_check (t : list Entry) : option (Address * bool) :=
  match t with
  | [] => None
  | (IsDeployed a, RBool b) :: _ => Some (a, b)
  | _ :: t' => first_deployment_check t'
  end.

Definition last_entries (n : nat) (t : list Entry) : list Entry :=
  rev (firstn n (rev t)).

(** The error a line of the error stream reports, if it reports one. *)
Definition diagnostic_error (d : Diagnostic) : option Error :=
  match d with
  | TransactionFailed e | FatalError e | ErrorMessage e | FullError e => Some e
  | _ => None
  end.

(** The configuration errors a log reports. *)
Fixpoint configuration_errors (t : list Entry) : list string :=
  match t with
  | [] => []
  | (ConsoleError d, _) :: t' =>
      match diagnostic_error d with
      | Some (MissingEnv name) => name :: configuration_errors t'
      | _ => configuration_errors t'
      end
  | _ :: t' => configuration_errors t'
  end.

(** A run that ended as the spec's "fails immediately with a
    configuration error, no network call attempted". *)
Definition failed_on_configuration (r : Z * State) : Prop :=
  fst r <> 0 /\ configuration_errors (trace (snd r)) <> [] /\
  network_calls (trace (snd r)) = [].

(** The two dispatching scripts, each from the call of its [main] on. *)
Definition scripts : list (World -> Chain -> Z * State) :=
  [BatchTransfer.script; SendErc20With7702.script].


(** The requests of a log that encode a call or a batch. *)
Definition is_encoding (rq : Request) : bool :=
  match rq with
  | EncodeFunctionData _ _ | EncodeCalls _ => true
  | _ => false
  end.

Definition encodings (t : list Entry) : list Entry :=
  List.filter (fun e => is_encoding (fst e)) t.

(** The chain with another value for the account's own counter. *)
Definition with_account_nonce (c : Chain) (counter : Address -> Z) : Chain :=
  {| has_code := has_code c; tx_count := tx_count c; account_nonce := counter |}.

(** A call of a capability that submits nothing. *)
Inductive ReadOp : Type :=
| OpIsDeployed
| OpGetSmartAccountClient
| OpReadContract (address : Address) (functionName : string) (args : list AbiArg)
| OpEncodeFunctionData (functionName : string) (args : list AbiArg)
| OpGetTransactionCount (address : Address)
| OpSignAuthorization (request : Authorization)
| OpEncodeCalls (calls : list Call)
| OpWaitForTransactionReceipt (hash : Hash) (timeout : Z)
| OpConsoleError (d : Diagnostic).

Definition run_read (op : ReadOp) : M unit :=
  match op with
  | OpIsDeployed => account_isDeployed;; ret tt
  | OpGetSmartAccountClient => getSmartAccountClient
  | OpReadContract a f args => readContract a f args;; ret tt
  | OpEncodeFunctionData f args => encodeFunctionData f args;; ret tt
  | OpGetTransactionCount a => getTransactionCount a;; ret tt
  | OpSignAuthorization rq => signAuthorization rq;; ret tt
  | OpEncodeCalls cs => encodeCalls cs;; ret tt
  | OpWaitForTransactionReceipt h t => waitForTransactionReceipt h t;; ret tt
  | OpConsoleError d => console_error d
  end.

(** The operations one after the other; one that rejects is passed
    over ([try { await op } catch {}]), so that the sequence goes on. *)
Fixpoint run_reads (ops : list ReadOp) : M unit :=
  match ops with
  | [] => ret tt
  | op :: ops' => try_catch (run_read op) (fun _ => ret tt);; run_reads ops'
  end.

(** ** The environment, as the validation of the batch script sees it *)

(** A value the check [!v] refuses: unset, or set to the empty string. *)
Definition unset_or_empty (v : option string) : Prop :=
  v = None \/ v = Some "".

(** A value the check [!v || v === '0x'] refuses. *)
Definition unset_empty_or_0x (v : option string) : Prop :=
  unset_or_empty v \/ v = Some "0x".

Definition invalid_environment (w : World) : Prop :=
  unset_empty_or_0x (process_env w !! "ERC20_TOKEN_ADDRESS") \/
  unset_empty_or_0x (process_env w !! "RECEIVER_ADDRESS") \/
  unset_or_empty (process_env w !! "RECEIVER_ADDRESS2").

(** What [publicClient] and [owner] refuse, before the private key is
    handed to the library: [SEPOLIA_RPC_URL] or [PRIVATE_KEY] unset or
    empty, or a private key that does not start with [0x]. *)
Definition url_or_key_refused (env : gmap string string) : Prop :=
  unset_or_empty (env !! "SEPOLIA_RPC_URL") \/
  unset_or_empty (env !! "PRIVATE_KEY") \/
  startsWith (as_hex (env !! "PRIVATE_KEY")) "0x" = false.

(** [privateKeyToAccount] is the first call of a program, made when
    [publicClient] and [owner] have refused nothing; the library may
    reject the key (one that is not the text of 32 bytes, say). *)
Definition key_accepted (w : World) : Prop := faults w 0%nat = None.

(** The imports of a program succeed, so that its [main] is called. *)
Definition imports_succeed (w : World) : Prop :=
  ~ url_or_key_refused (process_env w) /\
  key_accepted w /\
  ~ unset_or_empty (process_env w !! "PIMLICO_API_KEY").

(** The account library answers [encodeCalls] with the call data of
    [Abi], wherever that is defined. *)
Definition encodes_as_abi (w : World) : Prop :=
  forall calls h, Abi.encodeCalls calls = Some h -> account_encode_calls w calls = h.

(** The request a log starts with. *)
Definition first_request (t : list Entry) : option Request :=
  match t with
  | [] => None
  | (rq, _) :: _ => Some rq
  end.

(** ** Rejections in the interaction log *)

(** The first rejected request of a log, with the entries after it. *)
Fixpoint after_first_rejection (t : list Entry) : option (Request * list Entry) :=
  match t with
  | [] => None
  | (rq, RRejected _) :: t' => Some (rq, t')
  | _ :: t' => after_first_rejection t'
  end.

(** What may still follow a rejected request: the other reads of the
    same [Promise.all], which were started with it, the lines of the
    error stream and the end of the process. *)
Definition winds_down (rejected later : Request) : bool :=
  match later with
  | ConsoleError _ | ProcessExit _ => true
  | ReadContract _ _ _ =>
      match rejected with ReadContract _ _ _ => true | _ => false end
  | _ => false
  end.

Definition is_wait (rq : Request) : bool :=
  match rq with WaitForTransactionReceipt _ _ => true | _ => false end.

(** ** A concrete world *)

Module Demo.

Definition token : Address := "0x1111111111111111111111111111111111111111".
Definition alice : Address := "0x2222222222222222222222222222222222222222".
Definition bob : Address := "0x3333333333333333333333333333333333333333".
Definition eoa : Address := "0x4444444444444444444444444444444444444444".

Definition env_with (receiver2 : option string) : gmap string string :=
  let base : gmap string string :=
    list_to_map [ ("ERC20_TOKEN_ADDRESS", token); ("RECEIVER_ADDRESS", alice) ] in
  match receiver2 with
  | Some v => <["RECEIVER_ADDRESS2" := v]> base
  | None => base
  end.

Definition env : gmap string string := env_with (Some bob).

(** A text encoding in place of the ABI, for the worlds in which only
    the identity of the call data matters: fields are separated by [/]
    inside a function call, by [,] inside a call descriptor and by [;]
    between call descriptors. *)
Definition show_arg (a : AbiArg) : string :=
  match a with
  | ArgAddress s => s
  | ArgUint n => pretty n
  end.

Definition show_call (c : Call) : string :=
  call_to c +:+ "," +:+ pretty (call_value c) +:+ "," +:+ call_data c.

Definition show_calls (cs : list Call) : Hex :=
  String.concat ";" (show_call <$> cs).

(** A fresh EOA: no code anywhere, the owner has sent 7 transactions,
    the account's own counter stands at 3. *)
Definition fresh_chain : Chain :=
  {| has_code := fun _ => false;
     tx_count := fun a => if decide (a = eoa) then 7 else 0;
     account_nonce := fun _ => 3 |}.

(** The same EOA once it has delegated. *)
Definition delegated_chain : Chain :=
  {| has_code := fun a => if decide (a = eoa) then true else false;
     tx_count := fun a => if decide (a = eoa) then 8 else 0;
     account_nonce := fun _ => 4 |}.

Definition receipt_with (s : Status) : Receipt :=
  {| status := s; blockNumber := 100; gasUsed := 21000;
     logs := [ mkLog token [TRANSFER_EVENT_TOPIC]; mkLog token [TRANSFER_EVENT_TOPIC] ] |}.

Definition world_with (e : gmap string string)
    (included : option Receipt) : World :=
  {| process_env := e;
     owner_address := eoa;
     account_address := eoa;
     faults := fun _ => None;
     owner_signature := fun a => "sig:" +:+ pretty (nonce a);
     abi_encode := fun f args => f +:+ "/" +:+ String.concat "/" (show_arg <$> args);
     account_encode_calls := show_calls;
     contract_view := fun _ _ _ _ => 1000;
     bundler := fun ch tx =>
       ("0xhash",
        match tx_authorization tx with
        | Some _ => delegated_chain
        | None => ch
        end);
     inclusion := fun _ _ _ => included |}.

Definition world : World := world_with env (Some (receipt_with success)).
Definition world_reverted : World := world_with env (Some (receipt_with reverted)).
Definition world_receiver2 (v : option string) : World :=
  world_with (env_with v) (Some (receipt_with success)).

Definition no_rejection : nat -> option ExternalError := fun _ => None.

(** The world [w], in which the call logged as entry [n] is rejected
    with [e]. *)
Definition rejecting (n : nat) (e : ExternalError) (w : World) : World :=
  {| process_env := process_env w;
     owner_address := owner_address w;
     account_address := account_address w;
     faults := fun i => if decide (i = n) then Some e else faults w i;
     owner_signature := owner_signature w;
     abi_encode := abi_encode w;
     account_encode_calls := account_encode_calls w;
     contract_view := contract_view w;
     bundler := bundler w;
     inclusion := inclusion w |}.

(** What viem answers when it is given ['0x'] for an address. *)
Definition invalid_address : ExternalError :=
  LibraryError "InvalidAddressError: Address 0x is invalid".

(** A world whose libraries encode as the contract ABI says. *)
Definition abi_world : World :=
  {| process_env := env;
     owner_address := eoa;
     account_address := eoa;
     faults := fun _ => None;
     owner_signature := fun a => "sig:" +:+ pretty (nonce a);
     abi_encode := fun f args =>
       match args with
       | [ArgAddress recipient; ArgUint amount] =>
           default "0x" (Abi.transfer_data recipient amount)
       | _ => "0x"
       end;
     account_encode_calls := fun calls => default "0x" (Abi.encodeCalls calls);
     contract_view := fun _ _ _ _ => 1000;
     bundler := fun ch tx =>
       ("0xhash",
        match tx_authorization tx with
        | Some _ => delegated_chain
        | None => ch
        end);
     inclusion := fun _ _ _ => Some (receipt_with success) |}.

End Demo.

(** ** A concrete setting for the maintenance scripts *)

Module DemoTools.
Import Tools.

Definition newWallet : Address := "0x5555555555555555555555555555555555555555".
Definition deployed : Address := "0x6666666666666666666666666666666666666666".

Definition env : gmap string string :=
  list_to_map
    [ ("ERC20_TOKEN_ADDRESS", Demo.token); ("ADDRESS2", newWallet);
      ("PRIVATE_KEY", "0x01"); ("SEPOLIA_RPC_URL", "https://rpc.example") ].

(** A world in which every account holds [funds] of everything, and
    the call logged as entry [rejecting] of a run is rejected. *)
Definition world (e : gmap string string) (funds : Z) (rejecting : option nat)
    (included : Status) : World :=
  {| process_env := e;
     owner_address := Demo.eoa;
     account_address := Demo.eoa;
     faults := fun n =>
       if decide (rejecting = Some n) then Some (TransportError "unreachable") else None;
     owner_signature := fun a => "sig:" +:+ pretty (nonce a);
     abi_encode := fun f args => f +:+ "/" +:+ String.concat "/" (Demo.show_arg <$> args);
     account_encode_calls := Demo.show_calls;
     contract_view := fun _ _ _ _ => funds;
     bundler := fun ch tx => ("0xuserop", ch);
     inclusion := fun _ _ _ => Some (Demo.receipt_with included) |}.

Definition output_with (messages : option (list CompilerMessage)) : CompilerOutput :=
  {| errors := messages;
     artifact := Some {| abi := "[abi]"; bytecode_object := "6080" |} |}.

Definition services (e : gmap string string) (funds : Z) (rejecting : option nat)
    (included : Status) (messages : option (list CompilerMessage)) : Services :=
  {| base := world e funds rejecting included;
     eth_balance := fun _ _ => funds;
     wallet_send := fun ch _ _ => ("0xeth", ch);
     solc := fun _ => output_with messages;
     wallet_deploy := fun ch _ _ => ("0xdeploy", ch);
     deployment := fun _ _ => Some (Demo.receipt_with included, deployed);
     compiled_view := fun _ _ _ f _ =>
       if decide (f = "name") then VText "TestToken"
       else if decide (f = "symbol") then VText "TTK"
       else VAmount funds |}.

Definition rich : Z := 10 ^ 24.

(** An environment with every variable the programs read; the private
    key is the text of 32 bytes. *)
Definition program_env : gmap string string :=
  list_to_map
    [ ("SEPOLIA_RPC_URL", "https://rpc.example");
      ("PRIVATE_KEY", "0x0000000000000000000000000000000000000000000000000000000000000001");
      ("PIMLICO_API_KEY", "pim_key");
      ("ERC20_TOKEN_ADDRESS", Demo.token);
      ("RECEIVER_ADDRESS", Demo.alice);
      ("RECEIVER_ADDRESS2", Demo.bob);
      ("ADDRESS2", newWallet) ].

(** The services of a world, everything else as in [services]. *)
Definition services_of (w : World) (funds : Z) : Services :=
  {| base := w;
     eth_balance := fun _ _ => funds;
     wallet_send := fun ch _ _ => ("0xeth", ch);
     solc := fun _ => output_with None;
     wallet_deploy := fun ch _ _ => ("0xdeploy", ch);
     deployment := fun _ _ => Some (Demo.receipt_with success, deployed);
     compiled_view := fun _ _ _ _ _ => VAmount funds |}.

Definition sources : gmap string EnvFile.JsString :=
  list_to_map
    [ ("contracts/TestToken.sol", EnvFile.js "contract TestToken {}");
      (".env", (EnvFile.js "PRIVATE_KEY=0x01" ++ [10%N] ++
                EnvFile.js "ERC20_TOKEN_ADDRESS=0x" ++ [10%N])%list) ].

End DemoTools.

(** * Properties *)

(** ** Symbolic execution of a script

    A run is unfolded up to the first answer of the world it depends
    on, a case is made on that answer, and so on to the end of the run;
    the property is then read off the finished log. *)

Ltac case_stuck t :=
  lazymatch t with
  | match ?x with _ => _ end => case_stuck x
  | (match ?x with _ => _ end) _ => case_stuck x
  | (match ?x with _ => _ end) _ _ => case_stuck x
  | _ => destruct t eqn:?
  end.

Ltac exec_step :=
  lazymatch goal with
  | |- _ (match ?x with _ => _ end) => case_stuck x
  end.

Ltac exec_norm :=
  cbv beta iota zeta delta
    [bind ret ask throw try_catch promise_all extcall console_error process_exit
     getSmartAccountClient readContract encodeFunctionData account_isDeployed
     getTransactionCount signAuthorization encodeCalls sendTransaction
     waitForTransactionReceipt record fst snd chain trace status logs
     length app negb orb andb
     run_process BatchTransfer.script BatchTransfer.main BatchTransfer.dispatch
     BatchTransfer.on_fatal SendErc20With7702.script SendErc20With7702.main
     SendErc20With7702.on_fatal].

Ltac name_env :=
  repeat match goal with
    | H : ?v = process_env ?w !! ?k |- context [process_env ?w !! ?k] =>
        rewrite <- H
    end;
  repeat match goal with
    | |- context [process_env ?w !! ?k] =>
        generalize (process_env w !! k); intros ?
    end.

(** The amounts [10n * 10n ** 18n] and [20n * 10n ** 18n] as numerals. *)
Ltac eval_amounts :=
  repeat match goal with
    | |- context [Z.mul ?a (Z.pow ?b ?n)] =>
        let v := eval vm_compute in (Z.mul a (Z.pow b n)) in
        change (Z.mul a (Z.pow b n)) with v
    end.

(** [symbolic_run r]: the goal, as a property of the run [r], in every
    case of the run. *)
Ltac symbolic_run r :=
  eval_amounts;
  pattern r;
  lazymatch goal with
  | |- ?P _ =>
      let Post := fresh "Post" in
      set (Post := P);
      exec_norm; eval_amounts; name_env;
      repeat (exec_step; exec_norm);
      subst Post; cbv beta
  end.

Ltac in_log :=
  repeat match goal with
    | H : In _ [] |- _ => destruct H
    | H : In _ (_ :: _) |- _ => destruct H as [H | H]
    | H : _ \/ _ |- _ => destruct H as [H | H]
    | H : False |- _ => destruct H
    | H : (_, _) = (_, _) |- _ => first [discriminate H | inversion H; clear H; subst]
    end.

Ltac find_in_log :=
  cbn; solve [repeat first [left; reflexivity | right]].

Ltac leaf :=
  repeat split; first [reflexivity | assumption | find_in_log | idtac].

Lemma signed_request_nonce script w c signer request response :
  In script scripts ->
  In (SignAuthorization signer request, response) (trace (snd (script w c))) ->
  signer = owner_address w /\
  first_deployment_check (trace (snd (script w c))) = Some (account_address w, false) /\
  In (GetTransactionCount (owner_address w), RNumber (nonce request))
     (trace (snd (script w c))) /\
  nonce request = tx_count c (owner_address w).
Proof.
  intros [<- | [<- | []]].
  - symbolic_run (BatchTransfer.script w c).
    all: cbn; intros; in_log.
    all: leaf.
  - symbolic_run (SendErc20With7702.script w c).
    all: cbn; intros; in_log.
    all: leaf.
Qed.

(** ** The nonce of an authorization *)

(** C1. Whenever one of the scripts has an authorization signed, it does
    so after the deployment check answered "not deployed"; the signer is
    the owner EOA; the nonce in the payload is the answer of the
    transaction-count query at the owner's own address, which is the
    owner's transaction count in the chain state of the run; and the
    nonce is the same whatever the account's own counter holds. *)
Theorem authorization_nonce_is_signer_transaction_count
    (script : World -> Chain -> Z * State) (w : World) (c : Chain)
    (signer : Address) (request : Authorization) (response : Response) :
  In script scripts ->
  In (SignAuthorization signer request, response) (trace (snd (script w c))) ->
  signer = owner_address w /\
  first_deployment_check (trace (snd (script w c))) = Some (account_address w, false) /\
  In (GetTransactionCount (owner_address w), RNumber (nonce request))
     (trace (snd (script w c))) /\
  nonce request = tx_count c (owner_address w) /\
  forall counter signer' request' response',
    In (SignAuthorization signer' request', response')
       (trace (snd (script w (with_account_nonce c counter)))) ->
    nonce request' = nonce request.
Proof.
  intros Hscript Hsigned.
  destruct (signed_request_nonce script w c signer request response Hscript Hsigned)
    as (Hsigner & Hcheck & Hquery & Hnonce).
  repeat split; try assumption.
  intros counter signer' request' response' Hsigned'.
  destruct (signed_request_nonce script w _ signer' request' response' Hscript Hsigned')
    as (_ & _ & _ & Hnonce').
  rewrite Hnonce, Hnonce'. reflexivity.
Qed.

Lemma authorization_nonce_witness :
  let request := mkAuthorization SIMPLE_ACCOUNT_LOGIC_ADDRESS sepolia_id 7 in
  let response := RSigned (mkSigned request "sig:7") in
  let run := BatchTransfer.script Demo.world Demo.fresh_chain in
  In (SignAuthorization Demo.eoa request, response) (trace (snd run)) /\
  nonce request = tx_count Demo.fresh_chain (owner_address Demo.world) /\
  nonce request <> account_nonce Demo.fresh_chain (account_address Demo.world).
Proof.
  intros request response run.
  assert (Hin : In (SignAuthorization Demo.eoa request, response) (trace (snd run))).
  { vm_compute. do 8 right. left. reflexivity. }
  split; [exact Hin |].
  split.
  - exact (proj1 (proj2 (proj2 (proj2
      (authorization_nonce_is_signer_transaction_count
         BatchTransfer.script Demo.world Demo.fresh_chain
         Demo.eoa request response (or_introl eq_refl) Hin))))).
  - vm_compute. discriminate.
Defined.

(** ** Presence of the authorization *)



(** ** A reverted transaction *)

(** C5. When the receipt a script waited for says "reverted", the run
    ends there: the line "Transaction reverted!" is written to the
    error stream, the process exits with code 1, nothing follows, and
    the log holds exactly one submission (nothing was sent again). *)
Theorem reverted_receipt_ends_the_run
    (script : World -> Chain -> Z * State) (w : World) (c : Chain)
    (hash : Hash) (timeout : Z) (receipt : Receipt) :
  In script scripts ->
  In (WaitForTransactionReceipt hash timeout, RReceipt receipt)
     (trace (snd (script w c))) ->
  status receipt = reverted ->
  fst (script w c) = 1 /\
  last_entries 3 (trace (snd (script w c))) =
    [ (WaitForTransactionReceipt hash timeout, RReceipt receipt);
      (ConsoleError TransactionReverted, RUnit);
      (ProcessExit 1, RUnit) ] /\
  length (submissions (trace (snd (script w c)))) = 1%nat.
Proof.
  intros [<- | [<- | []]].
  - symbolic_run (BatchTransfer.script w c).
    all: cbn; intros Hin Hstatus; in_log.
    all: try (cbn in Hstatus; discriminate Hstatus).
    all: repeat split; reflexivity.
  - symbolic_run (SendErc20With7702.script w c).
    all: cbn; intros Hin Hstatus; in_log.
    all: try (cbn in Hstatus; discriminate Hstatus).
    all: repeat split; reflexivity.
Qed.

Lemma reverted_receipt_witness :
  let run := BatchTransfer.script Demo.world_reverted Demo.fresh_chain in
  In (WaitForTransactionReceipt "0xhash" 120000, RReceipt (Demo.receipt_with reverted))
     (trace (snd run)) /\
  fst run = 1 /\
  length (submissions (trace (snd run))) = 1%nat.
Proof.
  intros run.
  assert (Hin : In (WaitForTransactionReceipt "0xhash" 120000,
                    RReceipt (Demo.receipt_with reverted)) (trace (snd run))).
  { vm_compute. do 11 right. left. reflexivity. }
  split; [exact Hin |].
  destruct (reverted_receipt_ends_the_run BatchTransfer.script Demo.world_reverted
              Demo.fresh_chain "0xhash" 120000 (Demo.receipt_with reverted)
              (or_introl eq_refl) Hin eq_refl) as (Hcode & _ & Hone).
  split; assumption.
Defined.

(** ** The destination of the submission *)

(** C6. The batch script submits to the smart account's own address the
    call data the account's [encodeCalls] produced from its (two) call
    descriptors; the single transfer script submits to the token
    contract, the target of its one call, the call data of that call.
    Either script submits at most one request in a run, and exactly one
    in a run that ends normally. *)
Theorem submission_destination_by_call_shape (w : World) (c : Chain) :
  let batch := BatchTransfer.script w c in
  let single := SendErc20With7702.script w c in
  (forall tx, In tx (submissions (trace (snd batch))) ->
     tx_to tx = account_address w /\ tx_value tx = 0 /\
     exists calls, (1 < length calls)%nat /\
       In (EncodeCalls calls, RHex (tx_data tx)) (trace (snd batch))) /\
  (forall tx, In tx (submissions (trace (snd single))) ->
     tx_to tx = as_hex (process_env w !! "ERC20_TOKEN_ADDRESS") /\
     tx_value tx = 0 /\
     In (EncodeFunctionData "transfer"
           [ArgAddress (as_hex (process_env w !! "RECEIVER_ADDRESS"));
            ArgUint (10 * 10 ^ 18)],
         RHex (tx_data tx)) (trace (snd single))) /\
  (length (submissions (trace (snd batch))) <= 1)%nat /\
  (length (submissions (trace (snd single))) <= 1)%nat /\
  (fst batch = 0 -> length (submissions (trace (snd batch))) = 1%nat) /\
  (fst single = 0 -> length (submissions (trace (snd single))) = 1%nat).
Proof.
  intros batch single.
  assert (Hbatch :
    (forall tx, In tx (submissions (trace (snd batch))) ->
       tx_to tx = account_address w /\ tx_value tx = 0 /\
       exists calls, (1 < length calls)%nat /\
         In (EncodeCalls calls, RHex (tx_data tx)) (trace (snd batch))) /\
    (length (submissions (trace (snd batch))) <= 1)%nat /\
    (fst batch = 0 -> length (submissions (trace (snd batch))) = 1%nat)).
  { subst batch. clear single.
    symbolic_run (BatchTransfer.script w c).
    all: cbn; (split; [intros tx Htx; in_log | split; [lia | try discriminate; auto]]).
    all: subst tx; cbn; repeat split.
    all: eexists; split; [| find_in_log]; cbn; lia. }
  assert (Hsingle :
    (forall tx, In tx (submissions (trace (snd single))) ->
       tx_to tx = as_hex (process_env w !! "ERC20_TOKEN_ADDRESS") /\
       tx_value tx = 0 /\
       In (EncodeFunctionData "transfer"
             [ArgAddress (as_hex (process_env w !! "RECEIVER_ADDRESS"));
              ArgUint (10 * 10 ^ 18)],
           RHex (tx_data tx)) (trace (snd single))) /\
    (length (submissions (trace (snd single))) <= 1)%nat /\
    (fst single = 0 -> length (submissions (trace (snd single))) = 1%nat)).
  { subst single. clear batch Hbatch.
    remember (process_env w !! "ERC20_TOKEN_ADDRESS") as tokenAddress.
    remember (process_env w !! "RECEIVER_ADDRESS") as receiver.
    symbolic_run (SendErc20With7702.script w c).
    all: cbn; (split; [intros tx Htx; in_log | split; [lia | try discriminate; auto]]).
    all: subst tx; cbn; repeat split.
    all: find_in_log. }
  tauto.
Qed.

Lemma submission_destination_witness :
  let batch := BatchTransfer.script Demo.world Demo.fresh_chain in
  let single := SendErc20With7702.script Demo.world Demo.fresh_chain in
  (tx_to <$> submissions (trace (snd batch))) = [Demo.eoa] /\
  (tx_to <$> submissions (trace (snd single))) = [Demo.token] /\
  fst batch = 0 /\ fst single = 0 /\
  length (submissions (trace (snd batch))) = 1%nat /\
  length (submissions (trace (snd single))) = 1%nat.
Proof.
  intros batch single.
  assert (Hb : fst batch = 0) by (vm_compute; reflexivity).
  assert (Hs : fst single = 0) by (vm_compute; reflexivity).
  destruct (submission_destination_by_call_shape Demo.world Demo.fresh_chain)
    as (_ & _ & _ & _ & Hbatch & Hsingle).
  split; [vm_compute; reflexivity |].
  split; [vm_compute; reflexivity |].
  split; [exact Hb |]. split; [exact Hs |].
  split; [exact (Hbatch Hb) | exact (Hsingle Hs)].
Defined.

(** ** Waiting for inclusion *)




(** ** The order of the batch *)

(** *** Decoding the call data of a batch *)

Section AbiFacts.

Import Abi.
Local Open Scope list_scope.

Lemma byte_of_to_N (b : Byte.byte) : byte_of (Byte.to_N b) = b.
Proof. unfold byte_of. rewrite Byte.of_to_N. reflexivity. Qed.

Lemma to_N_byte_of (n : N) : (n < 256)%N -> Byte.to_N (byte_of n) = n.
Proof.
  intros Hn. unfold byte_of.
  destruct (Byte.of_N n) as [b |] eqn:Hb.
  - apply Byte.to_of_N in Hb. exact Hb.
  - apply Byte.of_N_None_iff in Hb. lia.
Qed.

Lemma digits_of_byte (b : Byte.byte) :
  match digit_value (hex_digit (Byte.to_N b / 16)),
        digit_value (hex_digit (Byte.to_N b mod 16)) with
  | Some hi, Some lo => byte_of (16 * hi + lo) = b
  | _, _ => False
  end.
Proof. destruct b; vm_compute; reflexivity. Qed.

Lemma bytes_of_digits_of_bytes (bs : Bytes) :
  bytes_of_digits (digits_of_bytes bs) = Some bs.
Proof.
  induction bs as [| b bs IH]; [reflexivity |].
  cbn [digits_of_bytes bytes_of_digits].
  pose proof (digits_of_byte b) as Hb.
  destruct (digit_value (hex_digit (Byte.to_N b / 16))) as [hi |]; [| destruct Hb].
  destruct (digit_value (hex_digit (Byte.to_N b mod 16))) as [lo |]; [| destruct Hb].
  rewrite IH, Hb. reflexivity.
Qed.

Lemma of_hex_to_hex (bs : Bytes) : of_hex (to_hex bs) = Some bs.
Proof. apply bytes_of_digits_of_bytes. Qed.

Lemma be_bytes_length (k : nat) (n : N) : length (be_bytes k n) = k.
Proof.
  revert n; induction k as [| k IH]; intros n; cbn [be_bytes]; [reflexivity |].
  rewrite length_app, IH. cbn. lia.
Qed.

Lemma be_value_snoc (bs : Bytes) (b : Byte.byte) :
  be_value (bs ++ [b]) = (256 * be_value bs + Byte.to_N b)%N.
Proof. unfold be_value. rewrite fold_left_app. reflexivity. Qed.

Lemma be_value_be_bytes (k : nat) (n : N) :
  (n < 256 ^ N.of_nat k)%N -> be_value (be_bytes k n) = n.
Proof.
  revert n; induction k as [| k IH]; intros n Hn.
  - cbn in *. lia.
  - cbn [be_bytes]. rewrite be_value_snoc.
    rewrite Nat2N.inj_succ, N.pow_succ_r' in Hn.
    rewrite IH.
    + rewrite to_N_byte_of by (apply N.mod_lt; lia).
      pose proof (N.div_mod' n 256). lia.
    + apply N.Div0.div_lt_upper_bound. lia.
Qed.

Lemma word_length (n : N) : length (word n) = 32%nat.
Proof. apply be_bytes_length. Qed.

Lemma size_word_length (n : nat) : length (size_word n) = 32%nat.
Proof. apply be_bytes_length. Qed.

Lemma be_value_word (n : N) : (n < uint256_limit)%N -> be_value (word n) = n.
Proof.
  intros Hn. apply be_value_be_bytes.
  replace (256 ^ N.of_nat 32)%N with uint256_limit by (vm_compute; reflexivity).
  exact Hn.
Qed.


Lemma slice_at (off len : nat) (bs pre x rest : Bytes) :
  bs = pre ++ x ++ rest -> length pre = off -> length x = len ->
  slice off len bs = Some x.
Proof.
  intros -> <- <-. unfold slice.
  rewrite drop_app_length, take_app_length, Nat.eqb_refl. reflexivity.
Qed.

Lemma word_at_word (off : nat) (n : N) (bs pre rest : Bytes) :
  bs = pre ++ word n ++ rest -> length pre = off -> (n < uint256_limit)%N ->
  word_at off bs = Some n.
Proof.
  intros Hbs Hoff Hn. unfold word_at.
  rewrite (slice_at off 32 bs pre (word n) rest Hbs Hoff (word_length n)).
  rewrite be_value_word by exact Hn. reflexivity.
Qed.

Lemma word_at_size (off n : nat) (bs pre rest : Bytes) :
  bs = pre ++ size_word n ++ rest -> length pre = off ->
  (N.of_nat n < uint256_limit)%N ->
  word_at off bs = Some (N.of_nat n).
Proof. apply word_at_word. Qed.

Lemma zeros_length (k : nat) : length (zeros k) = k.
Proof. apply repeat_length. Qed.

Lemma enc_tuple_length (t : Triple) :
  length (destination t) = 20%nat ->
  length (enc_tuple t) = (128 + length (data t) + padding (length (data t)))%nat.
Proof.
  intros Hto. unfold enc_tuple.
  rewrite !length_app, !zeros_length, !size_word_length, word_length, Hto. lia.
Qed.

Lemma dec_tuple_enc_tuple (t : Triple) (rest : Bytes) :
  fits t -> (N.of_nat (length (data t)) < uint256_limit)%N ->
  dec_tuple (enc_tuple t ++ rest) = Some t.
Proof.
  intros [Hto Hvalue] Hlen.
  set (tail := zeros (padding (length (data t))) ++ rest).
  assert (Hbs : enc_tuple t ++ rest =
                zeros 12 ++ destination t ++ word (value t) ++ size_word 96 ++
                size_word (length (data t)) ++ data t ++ tail).
  { unfold enc_tuple, tail. rewrite <- !app_assoc. reflexivity. }
  rewrite Hbs. clear Hbs. unfold dec_tuple, address_at, bytes_at.
  rewrite (slice_at 0 32 _ [] (zeros 12 ++ destination t)
             (word (value t) ++ size_word 96 ++ size_word (length (data t)) ++
              data t ++ tail)).
  2: { rewrite <- !app_assoc. reflexivity. }
  2: { reflexivity. }
  2: { rewrite length_app, zeros_length, Hto. reflexivity. }
  rewrite (take_app_length' (zeros 12)) by reflexivity.
  rewrite (drop_app_length' (zeros 12)) by reflexivity.
  change (forallb is_zero (zeros 12)) with true. cbv iota.
  rewrite (word_at_word 32 (value t) _ (zeros 12 ++ destination t)
             (size_word 96 ++ size_word (length (data t)) ++ data t ++ tail)).
  2: { rewrite <- !app_assoc. reflexivity. }
  2: { rewrite length_app, zeros_length, Hto. reflexivity. }
  2: { exact Hvalue. }
  rewrite (word_at_size 64 96 _ (zeros 12 ++ destination t ++ word (value t))
             (size_word (length (data t)) ++ data t ++ tail)).
  2: { rewrite <- !app_assoc. reflexivity. }
  2: { rewrite !length_app, zeros_length, word_length, Hto. reflexivity. }
  2: { vm_compute. reflexivity. }
  change (N.to_nat (N.of_nat 96)) with 96%nat.
  rewrite (word_at_size 96 (length (data t)) _
             (zeros 12 ++ destination t ++ word (value t) ++ size_word 96)
             (data t ++ tail)).
  2: { rewrite <- !app_assoc. reflexivity. }
  2: { rewrite !length_app, zeros_length, word_length, size_word_length, Hto. reflexivity. }
  2: { exact Hlen. }
  rewrite Nat2N.id.
  rewrite (slice_at (96 + 32) (length (data t)) _
             (zeros 12 ++ destination t ++ word (value t) ++ size_word 96 ++
              size_word (length (data t)))
             (data t) tail).
  2: { rewrite <- !app_assoc. reflexivity. }
  2: { rewrite !length_app, zeros_length, word_length, !size_word_length, Hto. reflexivity. }
  2: { reflexivity. }
  destruct t; reflexivity.
Qed.

Lemma flat_map_size_word_length (l : list nat) :
  length (flat_map size_word l) = (32 * length l)%nat.
Proof.
  induction l as [| o l IH]; [reflexivity |].
  cbn [flat_map]. rewrite length_app, size_word_length, IH. cbn [length]. lia.
Qed.

Lemma offsets_length (start : nat) (ts : list Triple) :
  length (offsets start ts) = length ts.
Proof.
  revert start; induction ts as [| t ts IH]; intros start; [reflexivity |].
  cbn. rewrite IH. reflexivity.
Qed.

Lemma offsets_lookup (start : nat) (ts : list Triple) (i : nat) (t : Triple) :
  ts !! i = Some t ->
  offsets start ts !! i = Some (start + length (flat_map enc_tuple (take i ts)))%nat.
Proof.
  revert start i; induction ts as [| t' ts IH]; intros start i Hi; [discriminate Hi |].
  change (offsets start (t' :: ts))
    with (start :: offsets (start + length (enc_tuple t')) ts).
  destruct i as [| i].
  - change (Some start = Some (start + 0)%nat). f_equal. lia.
  - change (offsets (start + length (enc_tuple t')) ts !! i =
            Some (start + length (enc_tuple t' ++ flat_map enc_tuple (take i ts)))%nat).
    change (ts !! i = Some t) in Hi.
    rewrite (IH _ _ Hi), length_app. f_equal. lia.
Qed.

Lemma heads_word_at (offs : list nat) (i o : nat) (rest : Bytes) :
  offs !! i = Some o -> (N.of_nat o < uint256_limit)%N ->
  word_at (32 * i) (flat_map size_word offs ++ rest) = Some (N.of_nat o).
Proof.
  intros Hi Ho.
  apply (word_at_size _ _ _ (flat_map size_word (take i offs))
           (flat_map size_word (drop (S i) offs) ++ rest)).
  - rewrite <- (take_drop_middle offs i o Hi) at 1.
    rewrite flat_map_app. cbn [flat_map]. rewrite <- !app_assoc. reflexivity.
  - rewrite flat_map_size_word_length, length_take.
    apply lookup_lt_Some in Hi. lia.
  - exact Ho.
Qed.

Lemma data_length_bound (t : Triple) :
  length (destination t) = 20%nat -> (length (data t) <= length (enc_tuple t))%nat.
Proof. intros Hto. rewrite enc_tuple_length by exact Hto. lia. Qed.

Lemma flat_map_enc_tuple_bound (ts : list Triple) (t : Triple) :
  In t ts -> (length (enc_tuple t) <= length (flat_map enc_tuple ts))%nat.
Proof.
  induction ts as [| t' ts IH]; intros Hin; [destruct Hin |].
  cbn [flat_map]. rewrite length_app.
  destruct Hin as [-> | Hin]; [lia | specialize (IH Hin); lia].
Qed.

Lemma dec_elems_enc (ts : list Triple) (rest : Bytes) :
  Forall fits ts ->
  (N.of_nat (32 * length ts + length (flat_map enc_tuple ts)) < uint256_limit)%N ->
  forall post pre, ts = pre ++ post ->
    dec_elems (length post) (length pre)
      (flat_map size_word (offsets (32 * length ts) ts) ++ flat_map enc_tuple ts ++ rest)
    = Some post.
Proof.
  intros Hfits Hbound post.
  induction post as [| t post IH]; intros pre Hts; [reflexivity |].
  cbn [length dec_elems].
  assert (Hi : ts !! length pre = Some t).
  { rewrite Hts. rewrite lookup_app_r by lia. rewrite Nat.sub_diag. reflexivity. }
  assert (Hin : In t ts).
  { rewrite Hts. apply in_or_app. right. left. reflexivity. }
  assert (Hfit : fits t).
  { rewrite Forall_forall in Hfits. apply Hfits. apply list_elem_of_In. exact Hin. }
  assert (Hpre : take (length pre) ts = pre).
  { rewrite Hts. apply take_app_length. }
  assert (Hall : (length (flat_map enc_tuple pre) + length (enc_tuple t)
                  <= length (flat_map enc_tuple ts))%nat).
  { rewrite Hts, flat_map_app, length_app. cbn [flat_map]. rewrite length_app. lia. }
  rewrite (heads_word_at _ (length pre)
             (32 * length ts + length (flat_map enc_tuple pre))%nat).
  2: { rewrite (offsets_lookup _ _ _ _ Hi), Hpre. reflexivity. }
  2: { lia. }
  rewrite Nat2N.id.
  assert (Hdrop :
    drop (32 * length ts + length (flat_map enc_tuple pre))
      (flat_map size_word (offsets (32 * length ts) ts) ++ flat_map enc_tuple ts ++ rest)
    = enc_tuple t ++ flat_map enc_tuple post ++ rest).
  { rewrite drop_app_add' by (rewrite flat_map_size_word_length, offsets_length; reflexivity).
    rewrite Hts at 1. rewrite flat_map_app. cbn [flat_map].
    rewrite <- !app_assoc. rewrite drop_app_length. reflexivity. }
  rewrite Hdrop.
  rewrite dec_tuple_enc_tuple.
  2: { exact Hfit. }
  2: { pose proof (data_length_bound t (proj1 Hfit)). lia. }
  specialize (IH (pre ++ [t])).
  rewrite length_app, Nat.add_1_r in IH.
  rewrite IH by (rewrite <- app_assoc; exact Hts).
  reflexivity.
Qed.

Lemma dec_array_enc_array (ts : list Triple) (rest : Bytes) :
  Forall fits ts ->
  (N.of_nat (32 + length (enc_array ts)) < uint256_limit)%N ->
  dec_array (enc_array ts ++ rest) = Some ts.
Proof.
  intros Hfits Hbound.
  assert (Hlen : length (enc_array ts) =
                 (32 + (32 * length ts + length (flat_map enc_tuple ts)))%nat).
  { unfold enc_array.
    rewrite !length_app, size_word_length, flat_map_size_word_length, offsets_length.
    reflexivity. }
  unfold dec_array.
  rewrite (word_at_size 0 (length ts) _ []
             (flat_map size_word (offsets (32 * length ts) ts) ++
              flat_map enc_tuple ts ++ rest)).
  2: { unfold enc_array. rewrite <- !app_assoc. reflexivity. }
  2: { reflexivity. }
  2: { lia. }
  rewrite Nat2N.id.
  replace (drop 32 (enc_array ts ++ rest))
    with (flat_map size_word (offsets (32 * length ts) ts) ++
          flat_map enc_tuple ts ++ rest).
  2: { unfold enc_array. rewrite <- !app_assoc.
       rewrite (drop_app_length' (size_word (length ts)) _ 32)
         by (symmetry; apply size_word_length).
       reflexivity. }
  apply (dec_elems_enc ts rest Hfits) with (pre := []); [lia | reflexivity].
Qed.

Lemma decode_execute (args : Bytes) :
  decode (execute_selector ++ args) =
  match dec_tuple args with
  | Some t => Some [t]
  | None => None
  end.
Proof. reflexivity. Qed.

Lemma decode_executeBatch (args : Bytes) :
  decode (executeBatch_selector ++ args) =
  match word_at 0 args with
  | Some off => dec_array (drop (N.to_nat off) args)
  | None => None
  end.
Proof. reflexivity. Qed.

Lemma decode_encode (ts : list Triple) (bs : Bytes) :
  Forall fits ts -> encode ts = Some bs ->
  (N.of_nat (length bs) < uint256_limit)%N ->
  decode bs = Some ts.
Proof.
  intros Hfits Hbs Hbound.
  destruct ts as [| t [| t' ts]]; [discriminate Hbs | |].
  - assert (bs = execute_selector ++ enc_tuple t) as ->
      by (cbn [encode] in Hbs; congruence).
    rewrite decode_execute.
    apply Forall_inv in Hfits.
    rewrite <- (app_nil_r (enc_tuple t)).
    rewrite dec_tuple_enc_tuple; [reflexivity | exact Hfits |].
    rewrite length_app in Hbound.
    pose proof (data_length_bound t (proj1 Hfits)). lia.
  - assert (bs = executeBatch_selector ++ size_word 32 ++ enc_array (t :: t' :: ts)) as ->
      by (cbn [encode] in Hbs; congruence).
    set (batch := t :: t' :: ts) in *.
    rewrite decode_executeBatch.
    rewrite !length_app, size_word_length in Hbound.
    rewrite (word_at_size 0 32 _ [] (enc_array batch)).
    2: { reflexivity. }
    2: { reflexivity. }
    2: { vm_compute. reflexivity. }
    change (N.to_nat (N.of_nat 32)) with 32%nat.
    rewrite (drop_app_length' (size_word 32) _ 32) by reflexivity.
    rewrite <- (app_nil_r (enc_array batch)).
    apply dec_array_enc_array; [exact Hfits |].
    change (length executeBatch_selector) with 4%nat in Hbound. lia.
Qed.

Lemma triple_of_call_fits (c : Call) (t : Triple) :
  triple_of_call c = Some t -> fits t.
Proof.
  unfold triple_of_call.
  destruct (of_hex (call_to c)) as [to |]; [| discriminate].
  destruct (of_hex (call_data c)) as [d |]; [| discriminate].
  destruct ((length to =? 20)%nat && (0 <=? call_value c)%Z
            && (Z.to_N (call_value c) <? uint256_limit)%N) eqn:Hchecks; [| discriminate].
  intros [= <-].
  apply andb_true_iff in Hchecks as [Hchecks Hvalue].
  apply andb_true_iff in Hchecks as [Hto _].
  split; cbn.
  - apply Nat.eqb_eq. exact Hto.
  - apply N.ltb_lt. exact Hvalue.
Qed.

Lemma triples_fit (calls : list Call) (ts : list Triple) :
  triples calls = Some ts -> Forall fits ts /\ length ts = length calls.
Proof.
  revert ts; induction calls as [| c calls IH]; intros ts Hts.
  - injection Hts as <-. split; [constructor | reflexivity].
  - cbn [triples] in Hts.
    destruct (triple_of_call c) as [t |] eqn:Ht; [| discriminate Hts].
    destruct (triples calls) as [ts' |]; [| discriminate Hts].
    injection Hts as <-. destruct (IH ts' eq_refl) as [Hfits Hlen].
    split; [constructor; [exact (triple_of_call_fits c t Ht) | exact Hfits] |].
    cbn [length]. rewrite Hlen. reflexivity.
Qed.

(** The call data [encodeCalls] gives decodes to the triples of the
    calls it was given, in their order. *)
Lemma decodeCalls_encodeCalls (calls : list Call) (h : Hex) :
  encodeCalls calls = Some h ->
  exists ts, triples calls = Some ts /\ decodeCalls h = Some ts /\ length ts = length calls.
Proof.
  unfold encodeCalls, decodeCalls. intros Hh.
  destruct (triples calls) as [ts |] eqn:Hts; [| discriminate Hh].
  destruct (encode ts) as [bs |] eqn:Hbs; [| discriminate Hh].
  destruct (N.ltb (N.of_nat (length bs)) uint256_limit) eqn:Hbound; [| discriminate Hh].
  injection Hh as <-. apply N.ltb_lt in Hbound.
  destruct (triples_fit calls ts Hts) as [Hfits Hlen].
  exists ts. split; [reflexivity |]. split; [| exact Hlen].
  rewrite of_hex_to_hex. exact (decode_encode ts bs Hfits Hbs Hbound).
Qed.

Lemma triples_lookup (calls : list Call) (ts : list Triple) (i : nat) (call : Call) :
  triples calls = Some ts -> calls !! i = Some call ->
  exists t, ts !! i = Some t /\ triple_of_call call = Some t.
Proof.
  revert ts i; induction calls as [| c0 calls IH]; intros ts i Hts Hi; [discriminate Hi |].
  cbn [triples] in Hts.
  destruct (triple_of_call c0) as [t0 |] eqn:Ht0; [| discriminate Hts].
  destruct (triples calls) as [ts' |]; [| discriminate Hts].
  injection Hts as <-.
  destruct i as [| i].
  - injection Hi as <-. exists t0. split; [reflexivity | exact Ht0].
  - exact (IH ts' i eq_refl Hi).
Qed.

End AbiFacts.

(** *** The calls of the batch script *)

(** C3.  The call data of a batch keeps the order of the calls.  For
    every sequence of calls the encoding is defined for, of any length,
    decoding the call data gives as many triples as there were calls,
    and the triple at each position is the (destination, value, data)
    of the call at that position.  The dispatch steps hand the sequence
    they were given to [encodeCalls] as it is and submit the call data
    it returned; in the script that sequence is the transfer to the
    first receiver followed by the transfer to the second.  So, with
    an account library that encodes as [Abi.encodeCalls] does, the
    call data of every submission decodes to the triples of the calls
    in the order they were assembled. *)
Theorem batch_encoding_preserves_call_order (w : World) (c : Chain) :
  encodes_as_abi w ->
  (forall calls h,
     Abi.encodeCalls calls = Some h ->
     exists triples,
       Abi.decodeCalls h = Some triples /\
       length triples = length calls /\
       forall i call, calls !! i = Some call ->
         exists t, triples !! i = Some t /\ Abi.triple_of_call call = Some t) /\
  (forall (tokenAddress receiver1 receiver2 : Address) (calls : list Call),
     let run :=
       run_process (BatchTransfer.dispatch tokenAddress receiver1 receiver2 calls)
         BatchTransfer.on_fatal w c in
     (forall passed response,
        In (EncodeCalls passed, response) (trace (snd run)) -> passed = calls) /\
     (forall tx, In tx (submissions (trace (snd run))) ->
        In (EncodeCalls calls, RHex (tx_data tx)) (trace (snd run)) /\
        forall h, Abi.encodeCalls calls = Some h ->
          tx_data tx = h /\
          exists triples,
            Abi.triples calls = Some triples /\
            Abi.decodeCalls (tx_data tx) = Some triples)) /\
  (let run := BatchTransfer.script w c in
   let tokenAddress := as_hex (process_env w !! "ERC20_TOKEN_ADDRESS") in
   let receiver1 := as_hex (process_env w !! "RECEIVER_ADDRESS") in
   let receiver2 := as_hex (process_env w !! "RECEIVER_ADDRESS2") in
   let calls :=
     [ mkCall tokenAddress 0
         (abi_encode w "transfer" [ArgAddress receiver1; ArgUint (10 * 10 ^ 18)]);
       mkCall tokenAddress 0
         (abi_encode w "transfer" [ArgAddress receiver2; ArgUint (20 * 10 ^ 18)]) ] in
   (forall passed response,
      In (EncodeCalls passed, response) (trace (snd run)) -> passed = calls) /\
   (forall tx, In tx (submissions (trace (snd run))) ->
      forall h, Abi.encodeCalls calls = Some h ->
        tx_data tx = h /\
        exists triples,
          Abi.triples calls = Some triples /\
          Abi.decodeCalls (tx_data tx) = Some triples)).
Proof.
  intros Hencoder.
  assert (Hdecode : forall calls data h,
            data = account_encode_calls w calls -> Abi.encodeCalls calls = Some h ->
            data = h /\
            exists triples,
              Abi.triples calls = Some triples /\ Abi.decodeCalls data = Some triples).
  { intros calls data h -> Hh. rewrite (Hencoder calls h Hh).
    split; [reflexivity |].
    destruct (decodeCalls_encodeCalls calls h Hh) as (ts & Hts & Hdec & _).
    exists ts. split; assumption. }
  split; [| split].
  - intros calls h Hh.
    destruct (decodeCalls_encodeCalls calls h Hh) as (ts & Hts & Hdec & Hlen).
    exists ts. split; [exact Hdec |]. split; [exact Hlen |].
    intros i call Hi. exact (triples_lookup calls ts i call Hts Hi).
  - intros tokenAddress receiver1 receiver2 calls run. subst run.
    destruct calls as [| call calls].
    + symbolic_run (run_process
        (BatchTransfer.dispatch tokenAddress receiver1 receiver2 [])
        BatchTransfer.on_fatal w c).
      all: cbn; split;
        [ intros passed response Hin; in_log; reflexivity
        | intros tx Htx; in_log ].
    + symbolic_run (run_process
        (BatchTransfer.dispatch tokenAddress receiver1 receiver2 (call :: calls))
        BatchTransfer.on_fatal w c).
      all: cbn; split;
        [ intros passed response Hin; in_log; reflexivity
        | intros tx Htx; in_log ].
      all: subst tx; cbn; split; [find_in_log |].
      all: intros data Hdata; exact (Hdecode _ _ data eq_refl Hdata).
  - intros run tokenAddress receiver1 receiver2 calls.
    subst run calls tokenAddress receiver1 receiver2.
    remember (process_env w !! "ERC20_TOKEN_ADDRESS") as tokenAddress.
    remember (process_env w !! "RECEIVER_ADDRESS") as receiver1.
    remember (process_env w !! "RECEIVER_ADDRESS2") as receiver2.
    revert Hdecode. eval_amounts. intros Hdecode.
    symbolic_run (BatchTransfer.script w c).
    all: cbn; split;
      [ intros passed response Hin; in_log; reflexivity
      | intros tx Htx; in_log ].
    all: subst tx; cbn.
    all: intros data Hdata; exact (Hdecode _ _ data eq_refl Hdata).
Qed.

Lemma batch_order_witness :
  let run := BatchTransfer.script Demo.abi_world Demo.fresh_chain in
  exists tx triples,
    In tx (submissions (trace (snd run))) /\
    Abi.decodeCalls (tx_data tx) = Some triples /\
    (Abi.to_hex <$> (Abi.destination <$> triples)) = [Demo.token; Demo.token] /\
    (Abi.value <$> triples) = [0%N; 0%N] /\
    (Abi.to_hex <$> (Abi.data <$> triples)) =
      [ "0xa9059cbb00000000000000000000000022222222222222222222222222222222222222220000000000000000000000000000000000000000000000008ac7230489e80000";
        "0xa9059cbb0000000000000000000000003333333333333333333333333333333333333333000000000000000000000000000000000000000000000001158e460913d00000" ].
Proof.
  intros run.
  assert (Htx : exists tx, In tx (submissions (trace (snd run)))).
  { eexists. vm_compute. left. reflexivity. }
  destruct Htx as [tx Htx].
  assert (Hencoder : encodes_as_abi Demo.abi_world).
  { intros calls h Hh. cbn [account_encode_calls Demo.abi_world].
    rewrite Hh. reflexivity. }
  pose proof (proj2 (proj2 (batch_encoding_preserves_call_order
                              Demo.abi_world Demo.fresh_chain Hencoder)))
    as Hscript.
  cbv zeta in Hscript. destruct Hscript as [_ Hscript].
  specialize (Hscript tx Htx).
  lazymatch type of Hscript with
  | context [Abi.encodeCalls ?calls] =>
      assert (Hdata : exists data, Abi.encodeCalls calls = Some data)
        by (eexists; vm_compute; reflexivity)
  end.
  destruct Hdata as [data Hdata].
  destruct (Hscript data Hdata) as (_ & triples & Htriples & Hdecode).
  exists tx, triples. split; [exact Htx |]. split; [exact Hdecode |].
  vm_compute in Htriples. injection Htriples as <-.
  repeat split; vm_compute; reflexivity.
Defined.

(** ** Validation of the configuration *)

Lemma falsy_true (v : option string) : falsy v = true <-> unset_or_empty v.
Proof.
  unfold falsy, unset_or_empty. destruct v as [s |].
  - destruct (decide (s = "")) as [-> | Hne]; split; intros H; auto.
    + discriminate H.
    + destruct H as [H | H]; [discriminate H | congruence].
  - split; auto.
Qed.

Lemma falsy_false (v : option string) : falsy v = false <-> ~ unset_or_empty v.
Proof.
  rewrite <- falsy_true. destruct (falsy v); split; intros H; congruence.
Qed.

Lemma strict_eq_true (v : option string) (lit : string) :
  strict_eq v lit = true <-> v = Some lit.
Proof.
  unfold strict_eq. destruct v as [s |].
  - destruct (decide (s = lit)) as [-> | Hne]; split; intros H; auto; congruence.
  - split; intros H; discriminate H.
Qed.

Lemma strict_eq_false (v : option string) (lit : string) :
  strict_eq v lit = false <-> v <> Some lit.
Proof.
  rewrite <- strict_eq_true. destruct (strict_eq v lit); split; intros H; congruence.
Qed.

(** The answers of the checks of [main], as facts about the values. *)
Ltac checks_to_facts :=
  repeat match goal with
    | H : falsy _ = true |- _ => apply falsy_true in H
    | H : falsy _ = false |- _ => apply falsy_false in H
    | H : strict_eq _ _ = true |- _ => apply strict_eq_true in H
    | H : strict_eq _ _ = false |- _ => apply strict_eq_false in H
    end.

(** What [main] of the batch script does with the environment. *)
Lemma batch_main_validation (w : World) (c : Chain) :
  let run := BatchTransfer.script w c in
  (forall passed response,
     In (EncodeCalls passed, response) (trace (snd run)) -> length passed = 2%nat) /\
  (failed_on_configuration run <-> invalid_environment w) /\
  (invalid_environment w ->
     exists name,
       trace (snd run) =
         [ (ConsoleError (FatalError (MissingEnv name)), RUnit); (ProcessExit 1, RUnit) ] /\
       fst run = 1) /\
  (~ invalid_environment w -> configuration_errors (trace (snd run)) = []).
Proof.
  intros run. subst run. split; [| split; [| split]].
  - symbolic_run (BatchTransfer.script w c).
    all: cbn; intros passed response Hin; in_log; reflexivity.
  - unfold invalid_environment, unset_empty_or_0x, failed_on_configuration.
    remember (process_env w !! "ERC20_TOKEN_ADDRESS") as tokenAddress.
    remember (process_env w !! "RECEIVER_ADDRESS") as receiver1.
    remember (process_env w !! "RECEIVER_ADDRESS2") as receiver2.
    symbolic_run (BatchTransfer.script w c).
    all: checks_to_facts; cbn.
    all: split; [intros (Hcode & Herr & Hnet) | intros Hinvalid].
    all: try tauto.
    all: try (exfalso; apply Herr; reflexivity).
    all: try discriminate Hnet.
    all: repeat split; try discriminate; auto.
  - unfold invalid_environment, unset_empty_or_0x.
    remember (process_env w !! "ERC20_TOKEN_ADDRESS") as tokenAddress.
    remember (process_env w !! "RECEIVER_ADDRESS") as receiver1.
    remember (process_env w !! "RECEIVER_ADDRESS2") as receiver2.
    symbolic_run (BatchTransfer.script w c).
    all: checks_to_facts; cbn; intros Hinvalid.
    all: try tauto.
    all: eexists; split; reflexivity.
  - unfold invalid_environment, unset_empty_or_0x.
    remember (process_env w !! "ERC20_TOKEN_ADDRESS") as tokenAddress.
    remember (process_env w !! "RECEIVER_ADDRESS") as receiver1.
    remember (process_env w !! "RECEIVER_ADDRESS2") as receiver2.
    symbolic_run (BatchTransfer.script w c).
    all: checks_to_facts; cbn; intros Hvalid.
    all: first [reflexivity | tauto].
Qed.


(** The second receiver in [main] of the batch script. *)
Lemma batch_main_receiver2 (w : World) (c : Chain) :
  let run := BatchTransfer.script w c in
  let tokenAddress := process_env w !! "ERC20_TOKEN_ADDRESS" in
  let receiver1 := process_env w !! "RECEIVER_ADDRESS" in
  let receiver2 := process_env w !! "RECEIVER_ADDRESS2" in
  let read2 := ReadContract (as_hex tokenAddress) "balanceOf" [ArgAddress "0x"] in
  (In "RECEIVER_ADDRESS2" (configuration_errors (trace (snd run))) <->
     ~ unset_empty_or_0x tokenAddress /\ ~ unset_empty_or_0x receiver1 /\
     unset_or_empty receiver2) /\
  (~ unset_empty_or_0x tokenAddress -> ~ unset_empty_or_0x receiver1 ->
   receiver2 = Some "0x" ->
     first_request (trace (snd run)) = Some GetSmartAccountClient /\
     (trace (snd run) !! 0%nat = Some (GetSmartAccountClient, RUnit) ->
      exists response, trace (snd run) !! 3%nat = Some (read2, response)) /\
     (forall e,
        trace (snd run) !! 3%nat = Some (read2, RRejected e) ->
        fst run = 1 /\ encodings (trace (snd run)) = [] /\
        submissions (trace (snd run)) = []) /\
     (forall recipient amount response,
        In (EncodeFunctionData "transfer" [ArgAddress recipient; ArgUint amount],
            response) (trace (snd run)) ->
        amount = 20 * 10 ^ 18 -> recipient = "0x")).
Proof.
  intros run tokenAddress receiver1 receiver2 read2.
  subst run read2. unfold unset_empty_or_0x.
  subst tokenAddress receiver1 receiver2.
  remember (process_env w !! "ERC20_TOKEN_ADDRESS") as tokenAddress.
  remember (process_env w !! "RECEIVER_ADDRESS") as receiver1.
  remember (process_env w !! "RECEIVER_ADDRESS2") as receiver2.
  split.
  - symbolic_run (BatchTransfer.script w c).
    all: checks_to_facts; cbn.
    all: split;
      [ intros Hin; in_log; try discriminate Hin; tauto
      | intros (Hv0 & Hv1 & Hv2); solve [tauto | left; reflexivity] ].
  - intros Hv0 Hv1 ->.
    symbolic_run (BatchTransfer.script w c).
    all: checks_to_facts.
    all: try tauto.
    all: try (exfalso;
              match goal with H : unset_or_empty _ |- _ =>
                destruct H as [H | H]; congruence end).
    all: cbn [fst snd trace first_request]; (split; [reflexivity |]).
    all: split; [intros Hclient; first [discriminate Hclient | eexists; reflexivity] |].
    all: split; [intros err Hread; first [discriminate Hread | repeat split; reflexivity] |].
    all: intros recipient amount response Hin Hamount; cbn in Hin; in_log;
      first [reflexivity | lia].
Qed.

(** What [main] of the single transfer script does with the
    environment. *)
Lemma single_main_validation (w : World) (c : Chain) :
  let run := SendErc20With7702.script w c in
  let tokenAddress := process_env w !! "ERC20_TOKEN_ADDRESS" in
  let receiver := process_env w !! "RECEIVER_ADDRESS" in
  (failed_on_configuration run <->
   unset_empty_or_0x tokenAddress \/ unset_empty_or_0x receiver) /\
  (unset_empty_or_0x tokenAddress \/ unset_empty_or_0x receiver ->
   exists name,
     trace (snd run) =
       [ (ConsoleError (ErrorMessage (MissingEnv name)), RUnit);
         (ConsoleError (FullError (MissingEnv name)), RUnit);
         (ProcessExit 1, RUnit) ] /\
     fst run = 1 /\
     (name = "ERC20_TOKEN_ADDRESS" <-> unset_empty_or_0x tokenAddress)) /\
  (~ unset_empty_or_0x tokenAddress -> ~ unset_empty_or_0x receiver ->
   first_request (trace (snd run)) = Some GetSmartAccountClient).
Proof.
  intros run tokenAddress receiver. subst run tokenAddress receiver.
  unfold unset_empty_or_0x, failed_on_configuration.
  remember (process_env w !! "ERC20_TOKEN_ADDRESS") as tokenAddress.
  remember (process_env w !! "RECEIVER_ADDRESS") as receiver.
  split; [| split].
  - symbolic_run (SendErc20With7702.script w c).
    all: checks_to_facts; cbn.
    all: split; [intros (Hcode & Herr & Hnet) | intros Hinvalid].
    all: try tauto.
    all: try (exfalso; apply Herr; reflexivity).
    all: try discriminate Hnet.
    all: repeat split; try discriminate; auto.
  - symbolic_run (SendErc20With7702.script w c).
    all: checks_to_facts; cbn; intros Hinvalid.
    all: try tauto.
    all: eexists; split; [reflexivity |]; split; [reflexivity |].
    all: split; [intros Hname; first [tauto | discriminate Hname]
                | intros Htoken; first [reflexivity | tauto]].
  - symbolic_run (SendErc20With7702.script w c).
    all: checks_to_facts; cbn; intros Htoken Hreceiver.
    all: first [reflexivity | tauto].
Qed.

(** ** The deployment check *)

Lemma submissions_app (t1 t2 : list Entry) :
  submissions (t1 ++ t2)%list = (submissions t1 ++ submissions t2)%list.
Proof.
  induction t1 as [| e t1 IH]; cbn; [reflexivity |].
  destruct (submission_of e); cbn; rewrite IH; reflexivity.
Qed.

(** A read leaves the chain state and the submissions of the log as
    they were, and lets the caller go on. *)
Lemma run_read_frame (op : ReadOp) (w : World) (st : State) :
  exists st',
    try_catch (run_read op) (fun _ => ret tt) w st = (Returned tt, st') /\
    chain st' = chain st /\
    submissions (trace st') = submissions (trace st).
Proof.
  destruct op as [| | a f args | f args | a | rq | [| call calls] | hash timeout | d];
    cbv [try_catch run_read bind ret account_isDeployed
    getSmartAccountClient readContract encodeFunctionData getTransactionCount
    signAuthorization encodeCalls waitForTransactionReceipt console_error
    extcall record].
  all: try destruct (faults w (length (trace st))); cbn [chain trace].
  all: try destruct (inclusion w (chain st) hash timeout); cbn [chain trace].
  all: try destruct u.
  all: eexists; split; [reflexivity |]; cbn [chain trace]; split; [reflexivity |].
  all: rewrite submissions_app; cbn; apply app_nil_r.
Qed.

Lemma run_reads_frame (ops : list ReadOp) (w : World) (st : State) :
  exists st',
    run_reads ops w st = (Returned tt, st') /\
    chain st' = chain st /\
    submissions (trace st') = submissions (trace st).
Proof.
  revert st. induction ops as [| op ops IH]; intros st.
  - exists st. repeat split.
  - destruct (run_read_frame op w st) as (st1 & Hrun & Hchain & Hsub).
    destruct (IH st1) as (st2 & Hrest & Hchain' & Hsub').
    exists st2. cbn [run_reads]. unfold bind at 1. rewrite Hrun, Hrest.
    repeat split; congruence.
Qed.

(** C8. Two deployment checks with only reads between them, and so no
    submission, give the same answer: the code presence at the account
    address in the chain state, which none of them changes. *)
Theorem deployment_check_is_repeatable
    (w : World) (st st1 st2 st3 : State) (ops : list ReadOp)
    (first second : bool) (o : Outcome unit) :
  account_isDeployed w st = (Returned first, st1) ->
  run_reads ops w st1 = (o, st2) ->
  account_isDeployed w st2 = (Returned second, st3) ->
  first = second /\
  first = has_code (chain st) (account_address w) /\
  chain st3 = chain st /\
  submissions (trace st3) = submissions (trace st).
Proof.
  intros Hfirst Hreads Hsecond.
  destruct (run_reads_frame ops w st1) as (st2' & Hrun & Hchain & Hsub).
  rewrite Hrun in Hreads. inversion Hreads; subst o st2'. clear Hreads.
  unfold account_isDeployed, extcall in Hfirst, Hsecond.
  destruct (faults w (length (trace st))); [discriminate Hfirst |].
  destruct (faults w (length (trace st2))); [discriminate Hsecond |].
  inversion Hfirst; subst. inversion Hsecond; subst. clear Hfirst Hsecond.
  cbn [chain trace] in *.
  rewrite Hchain. repeat split.
  rewrite submissions_app, Hsub, submissions_app. cbn.
  rewrite !app_nil_r. reflexivity.
Qed.

Lemma deployment_check_witness :
  let st := {| chain := Demo.fresh_chain; trace := [] |} in
  let ops := [OpReadContract Demo.token "balanceOf" [ArgAddress Demo.eoa];
              OpGetTransactionCount Demo.eoa] in
  exists st1 st2 st3,
    account_isDeployed Demo.world st = (Returned false, st1) /\
    run_reads ops Demo.world st1 = (Returned tt, st2) /\
    account_isDeployed Demo.world st2 = (Returned false, st3) /\
    chain st3 = Demo.fresh_chain.
Proof.
  intros st ops.
  eexists. eexists. eexists.
  assert (H1 : account_isDeployed Demo.world st
               = (Returned false, snd (account_isDeployed Demo.world st)))
    by (vm_compute; reflexivity).
  assert (H2 : run_reads ops Demo.world (snd (account_isDeployed Demo.world st))
               = (Returned tt,
                  snd (run_reads ops Demo.world (snd (account_isDeployed Demo.world st)))))
    by (vm_compute; reflexivity).
  assert (H3 : account_isDeployed Demo.world
                 (snd (run_reads ops Demo.world (snd (account_isDeployed Demo.world st))))
               = (Returned false,
                  snd (account_isDeployed Demo.world
                    (snd (run_reads ops Demo.world (snd (account_isDeployed Demo.world st)))))))
    by (vm_compute; reflexivity).
  split; [exact H1 |]. split; [exact H2 |]. split; [exact H3 |].
  exact (proj1 (proj2 (proj2
    (deployment_check_is_repeatable Demo.world _ _ _ _ ops false false _ H1 H2 H3)))).
Defined.

(** ** How a run of a dispatch script ends *)

(** The ends of a run of either script, read off one symbolic run of
    each. *)
Lemma run_outcomes (script : World -> Chain -> Z * State) (w : World) (c : Chain) :
  In script scripts ->
  let run := script w c in
  (fst run = 0 ->
     exists tx hash receipt,
       submissions (trace (snd run)) = [tx] /\
       In (SendTransaction tx, RHex hash) (trace (snd run)) /\
       In (WaitForTransactionReceipt hash 120000, RReceipt receipt) (trace (snd run)) /\
       status receipt = success /\
       after_first_rejection (trace (snd run)) = None /\
       configuration_errors (trace (snd run)) = []) /\
  (fst run = 0 \/ fst run = 1) /\
  (forall rq rest,
     after_first_rejection (trace (snd run)) = Some (rq, rest) ->
     fst run = 1 /\ forallb (fun e => winds_down rq (fst e)) rest = true) /\
  (forall tx e,
     In (SendTransaction tx, RRejected e) (trace (snd run)) ->
     fst run = 1 /\
     List.filter (fun en => is_wait (fst en)) (trace (snd run)) = [] /\
     exists deployed,
       first_deployment_check (trace (snd run)) = Some (account_address w, deployed) /\
       In (ConsoleError (TransactionFailed (Rejected e)), RUnit) (trace (snd run)) /\
       In (ConsoleError (DebugInfo deployed (account_address w) (owner_address w)
                           (negb deployed)), RUnit) (trace (snd run)) /\
       forall d e',
         In (ConsoleError d, RUnit) (trace (snd run)) ->
         diagnostic_error d = Some e' -> e' = Rejected e).
Proof.
  intros [<- | [<- | []]] run; subst run.
  - symbolic_run (BatchTransfer.script w c).
    all: cbn [fst snd trace]; (split; [intros Hcode; try discriminate Hcode | split; [auto |]]).
    all: try (do 3 eexists; cbn; repeat split; solve [reflexivity | find_in_log]).
    all: cbn [after_first_rejection].
    all: (split; [intros rq rest Hrej; try discriminate Hrej;
                  inversion Hrej; subst; split; reflexivity |]).
    all: intros tx err Hin; cbn in Hin; in_log.
    all: (split; [reflexivity |]); (split; [reflexivity |]).
    all: eexists; split; [reflexivity |]; split; [find_in_log |]; split; [find_in_log |].
    all: intros d e' Hd Hde; cbn in Hd; in_log; cbn in Hde; congruence.
  - symbolic_run (SendErc20With7702.script w c).
    all: cbn [fst snd trace]; (split; [intros Hcode; try discriminate Hcode | split; [auto |]]).
    all: try (do 3 eexists; cbn; repeat split; solve [reflexivity | find_in_log]).
    all: cbn [after_first_rejection].
    all: (split; [intros rq rest Hrej; try discriminate Hrej;
                  inversion Hrej; subst; split; reflexivity |]).
    all: intros tx err Hin; cbn in Hin; in_log.
    all: (split; [reflexivity |]); (split; [reflexivity |]).
    all: eexists; split; [reflexivity |]; split; [find_in_log |]; split; [find_in_log |].
    all: intros d e' Hd Hde; cbn in Hd; in_log; cbn in Hde; congruence.
Qed.

Lemma batch_is_a_script : In BatchTransfer.script scripts.
Proof. left. reflexivity. Qed.

(** X2. A run of either dispatch script that ends with exit code 0 has
    submitted exactly one transaction, has waited for the receipt of
    the hash the submission returned, with the bound of 120000 ms, and
    that receipt has the status success; no request of the run was
    rejected and no configuration error was reported. *)
Theorem normal_end_means_inclusion
    (script : World -> Chain -> Z * State) (w : World) (c : Chain) :
  In script scripts ->
  fst (script w c) = 0 ->
  exists tx hash receipt,
    submissions (trace (snd (script w c))) = [tx] /\
    In (SendTransaction tx, RHex hash) (trace (snd (script w c))) /\
    In (WaitForTransactionReceipt hash 120000, RReceipt receipt)
       (trace (snd (script w c))) /\
    status receipt = success /\
    after_first_rejection (trace (snd (script w c))) = None /\
    configuration_errors (trace (snd (script w c))) = [].
Proof.
  intros Hscript. exact (proj1 (run_outcomes script w c Hscript)).
Qed.

Lemma normal_end_witness :
  fst (BatchTransfer.script Demo.world Demo.fresh_chain) = 0 /\
  exists tx hash receipt,
    submissions (trace (snd (BatchTransfer.script Demo.world Demo.fresh_chain))) = [tx] /\
    In (SendTransaction tx, RHex hash)
       (trace (snd (BatchTransfer.script Demo.world Demo.fresh_chain))) /\
    In (WaitForTransactionReceipt hash 120000, RReceipt receipt)
       (trace (snd (BatchTransfer.script Demo.world Demo.fresh_chain))) /\
    status receipt = success.
Proof.
  assert (Hcode : fst (BatchTransfer.script Demo.world Demo.fresh_chain) = 0).
  { vm_compute. reflexivity. }
  split; [exact Hcode |].
  destruct (normal_end_means_inclusion BatchTransfer.script Demo.world Demo.fresh_chain
              batch_is_a_script Hcode)
    as (tx & hash & receipt & H1 & H2 & H3 & H4 & _).
  exists tx, hash, receipt. auto.
Defined.

(** X3. The dispatch scripts do not retry and do not go on after a
    rejection.  A run ends with exit code 0 or 1.  Once a request of a
    run has been rejected, the run ends with exit code 1, and all that
    follows the rejected request in the log is: the other balance reads
    of the same [Promise.all] (when the rejected request is one of
    them), lines on the error stream, and the exit of the process. *)
Theorem rejection_ends_the_run
    (script : World -> Chain -> Z * State) (w : World) (c : Chain) :
  In script scripts ->
  (fst (script w c) = 0 \/ fst (script w c) = 1) /\
  (forall rq rest,
     after_first_rejection (trace (snd (script w c))) = Some (rq, rest) ->
     fst (script w c) = 1 /\
     forallb (fun e => winds_down rq (fst e)) rest = true).
Proof.
  intros Hscript.
  destruct (run_outcomes script w c Hscript) as (_ & Hcode & Hrej & _).
  split; [exact Hcode | exact Hrej].
Qed.

Lemma rejection_witness :
  let w := DemoTools.world Demo.env 1000 (Some 1%nat) success in
  exists rq rest,
    after_first_rejection (trace (snd (BatchTransfer.script w Demo.fresh_chain))) =
      Some (rq, rest) /\
    length rest = 4%nat /\ fst (BatchTransfer.script w Demo.fresh_chain) = 1.
Proof.
  intros w.
  destruct (after_first_rejection (trace (snd (BatchTransfer.script w Demo.fresh_chain))))
    as [[rq rest] |] eqn:Hrej;
    [| vm_compute in Hrej; discriminate Hrej].
  exists rq, rest. split; [reflexivity |]. split.
  - vm_compute in Hrej. injection Hrej as <- <-. reflexivity.
  - exact (proj1 (proj2 (rejection_ends_the_run BatchTransfer.script w Demo.fresh_chain
                           batch_is_a_script) rq rest Hrej)).
Defined.

(** X4. When the bundler rejects the submission, the [catch] around
    [sendTransaction] reports it and passes it on: the run ends with
    exit code 1 without ever waiting for a receipt; the error stream
    has the rejection and the debug line, which carries the answer of
    the deployment check of this run, the address of the account, the
    address of the owner, and "authorization included" exactly when the
    account was not deployed; and every error the run reports is that
    rejection. *)
Theorem rejected_submission_is_reported
    (script : World -> Chain -> Z * State) (w : World) (c : Chain)
    (tx : TxParams) (e : ExternalError) :
  In script scripts ->
  In (SendTransaction tx, RRejected e) (trace (snd (script w c))) ->
  fst (script w c) = 1 /\
  List.filter (fun en => is_wait (fst en)) (trace (snd (script w c))) = [] /\
  exists deployed,
    first_deployment_check (trace (snd (script w c))) =
      Some (account_address w, deployed) /\
    In (ConsoleError (TransactionFailed (Rejected e)), RUnit)
       (trace (snd (script w c))) /\
    In (ConsoleError (DebugInfo deployed (account_address w) (owner_address w)
                        (negb deployed)), RUnit) (trace (snd (script w c))) /\
    forall d e',
      In (ConsoleError d, RUnit) (trace (snd (script w c))) ->
      diagnostic_error d = Some e' -> e' = Rejected e.
Proof.
  intros Hscript.
  exact (proj2 (proj2 (proj2 (run_outcomes script w c Hscript))) tx e).
Qed.

Lemma rejected_submission_witness :
  let w := DemoTools.world Demo.env 1000 (Some 10%nat) success in
  fst (BatchTransfer.script w Demo.fresh_chain) = 1 /\
  List.filter (fun en => is_wait (fst en))
    (trace (snd (BatchTransfer.script w Demo.fresh_chain))) = [].
Proof.
  intros w.
  assert (Hin : exists tx e,
            In (SendTransaction tx, RRejected e)
               (trace (snd (BatchTransfer.script w Demo.fresh_chain)))).
  { do 2 eexists. apply (nth_error_In _ 10). vm_compute. reflexivity. }
  destruct Hin as (tx & e & Hin).
  destruct (rejected_submission_is_reported BatchTransfer.script w Demo.fresh_chain tx e
              batch_is_a_script Hin) as (Hcode & Hwait & _).
  split; [exact Hcode | exact Hwait].
Defined.

(** X21. The check of the Transfer events of the batch script only
    warns.  The warning is written in runs that end with exit code 0
    only, when the receipt, which has the status success, does not hold
    exactly two logs of the token contract (address compared without
    regard to case) whose first topic is the Transfer topic; the number
    it reports is the number of such logs.  Conversely a run that ends
    with exit code 0 on a receipt with another number of such logs than
    two has written the warning. *)
Theorem transfer_event_count_only_warns (w : World) (c : Chain) :
  let run := BatchTransfer.script w c in
  let tokenAddress := as_hex (process_env w !! "ERC20_TOKEN_ADDRESS") in
  (forall found,
     In (ConsoleError (UnexpectedTransferEvents found), RUnit) (trace (snd run)) ->
     fst run = 0 /\ found <> 2%nat /\
     exists hash receipt,
       In (WaitForTransactionReceipt hash 120000, RReceipt receipt) (trace (snd run)) /\
       status receipt = success /\
       found = length (List.filter (is_transfer_log tokenAddress) (logs receipt))) /\
  (forall hash receipt,
     In (WaitForTransactionReceipt hash 120000, RReceipt receipt) (trace (snd run)) ->
     fst run = 0 ->
     length (List.filter (is_transfer_log tokenAddress) (logs receipt)) <> 2%nat ->
     In (ConsoleError (UnexpectedTransferEvents
           (length (List.filter (is_transfer_log tokenAddress) (logs receipt)))), RUnit)
        (trace (snd run))).
Proof.
  intros run tokenAddress; subst run tokenAddress.
  remember (process_env w !! "ERC20_TOKEN_ADDRESS") as tokenAddress.
  symbolic_run (BatchTransfer.script w c).
  all: cbn [fst snd trace].
  all: split; [intros found Hin; in_log | intros hash receipt Hin Hcode Hcount; in_log].
  all: try discriminate Hcode.
  all: try contradiction.
  all: try find_in_log.
  all: split; [reflexivity |]; split; [assumption |].
  all: do 2 eexists; split; [find_in_log | split; reflexivity].
Qed.

Lemma transfer_event_witness :
  let receipt :=
    {| status := success; blockNumber := 100; gasUsed := 21000;
       logs := [ mkLog Demo.token [TRANSFER_EVENT_TOPIC] ] |} in
  let w := Demo.world_with Demo.env (Some receipt) in
  fst (BatchTransfer.script w Demo.fresh_chain) = 0 /\
  In (ConsoleError (UnexpectedTransferEvents
        (length (List.filter
                   (is_transfer_log (as_hex (process_env w !! "ERC20_TOKEN_ADDRESS")))
                   (logs receipt)))), RUnit)
     (trace (snd (BatchTransfer.script w Demo.fresh_chain))).
Proof.
  intros receipt w.
  assert (Hcode : fst (BatchTransfer.script w Demo.fresh_chain) = 0).
  { vm_compute. reflexivity. }
  split; [exact Hcode |].
  apply (proj2 (transfer_event_count_only_warns w Demo.fresh_chain) "0xhash" receipt).
  - apply (nth_error_In _ 11). vm_compute. reflexivity.
  - exact Hcode.
  - vm_compute. discriminate.
Defined.

(** ** The whole programs *)

(** [main().catch(...)] of a dispatch script either returns or exits:
    its handler ends the process. *)
Lemma batch_started (w : World) (c : Chain) :
  exists o st,
    BatchTransfer.started w {| chain := c; trace := [] |} = (o, st) /\
    (forall e, o <> Threw e) /\
    BatchTransfer.script w c = (code_of o, st).
Proof.
  unfold BatchTransfer.started, BatchTransfer.script, run_process, try_catch.
  destruct (BatchTransfer.main w {| chain := c; trace := [] |}) as [[a | e | code] st].
  - do 2 eexists. split; [reflexivity |]. split; [discriminate | reflexivity].
  - do 2 eexists. split; [reflexivity |]. split; [discriminate | reflexivity].
  - do 2 eexists. split; [reflexivity |]. split; [discriminate | reflexivity].
Qed.

Lemma single_started (w : World) (c : Chain) :
  exists o st,
    SendErc20With7702.started w {| chain := c; trace := [] |} = (o, st) /\
    (forall e, o <> Threw e) /\
    SendErc20With7702.script w c = (code_of o, st).
Proof.
  unfold SendErc20With7702.started, SendErc20With7702.script, run_process, try_catch.
  destruct (SendErc20With7702.main w {| chain := c; trace := [] |}) as [[a | e | code] st].
  - do 2 eexists. split; [reflexivity |]. split; [discriminate | reflexivity].
  - do 2 eexists. split; [reflexivity |]. split; [discriminate | reflexivity].
  - do 2 eexists. split; [reflexivity |]. split; [discriminate | reflexivity].
Qed.

Section WholePrograms.

Import Tools.

(** A program that imports the three modules and then runs a dispatch
    script, case by case. *)
Lemma program_cases (started : M unit) (script : World -> Chain -> Z * State)
    (sv : Services) (c : Chain) (fs : gmap string EnvFile.JsString) :
  (forall w c, exists o st,
     started w {| chain := c; trace := [] |} = (o, st) /\
     (forall e, o <> Threw e) /\
     script w c = (code_of o, st)) ->
  let env := process_env (base sv) in
  let key := as_hex (env !! "PRIVATE_KEY") in
  let start := {| m_chain := c; files := fs; events := [] |} in
  run_program (bind Program.imports (fun _ => shared started)) sv c fs =
    if falsy (env !! "SEPOLIA_RPC_URL") then
      mkEnded 1 (Some (Missing "SEPOLIA_RPC_URL")) start
    else if falsy (env !! "PRIVATE_KEY") then
      mkEnded 1 (Some (Missing "PRIVATE_KEY")) start
    else if negb (startsWith key "0x") then
      mkEnded 1 (Some KeyWithoutPrefix) start
    else
      match faults (base sv) 0%nat with
      | Some e =>
          mkEnded 1 (Some (Rejection e))
            (log start (PrivateKeyToAccount key) (Plain (RRejected e)))
      | None =>
          if falsy (env !! "PIMLICO_API_KEY") then
            mkEnded 1 (Some (Missing "PIMLICO_API_KEY"))
              (log start (PrivateKeyToAccount key) (Plain RUnit))
          else after_imports key fs (script (later (base sv) 1) c)
      end.
Proof.
  intros Hstarted env key start. subst env key start.
  unfold run_program, Program.imports, Imported.publicClient, Imported.owner,
    Imported.clients, bind, ask, throw, ret, privateKeyToAccount, call, log.
  cbv beta iota delta [events length m_chain files].
  destruct (falsy (process_env (base sv) !! "SEPOLIA_RPC_URL")); [reflexivity |].
  destruct (falsy (process_env (base sv) !! "PRIVATE_KEY")); [reflexivity |].
  destruct (negb (startsWith (as_hex (process_env (base sv) !! "PRIVATE_KEY")) "0x"));
    [reflexivity |].
  destruct (faults (base sv) 0); [reflexivity |].
  destruct (falsy (process_env (base sv) !! "PIMLICO_API_KEY")); [reflexivity |].
  unfold shared. cbv beta iota delta [events length m_chain files app].
  destruct (Hstarted (later (base sv) 1) c) as (o & st & Hrun & Hcaught & Hscript).
  rewrite Hrun, Hscript. unfold after_imports. cbn [fst snd].
  destruct o as [[] | e | code]; [reflexivity | | reflexivity].
  destruct (Hcaught e eq_refl).
Qed.

Lemma network_actions_lifted (t : list Entry) :
  network_actions (List.map lifted t) = List.map lifted (network_calls t).
Proof.
  induction t as [| [rq rs] t IH]; [reflexivity |].
  cbn [List.map network_actions network_calls List.filter lifted fst snd is_network_action].
  destruct (is_network rq); cbn [List.map]; unfold network_actions, network_calls in IH;
    rewrite IH; reflexivity.
Qed.

Lemma shown_in_lifted (t : list Entry) (e : Failure) :
  In e (shown_in (List.map lifted t)) /\ is_configuration_error e = true <->
  exists name, e = Missing name /\ In name (configuration_errors t).
Proof.
  induction t as [| [rq rs] t IH].
  - cbn. split; [intros [[] _] | intros (name & _ & [])].
  - cbn [List.map lifted fst snd shown_in configuration_errors].
    destruct rq; cbn [shown_by diagnostic_error]; try exact IH.
    destruct d as [err | | | err | err | err |]; cbn [shown_by diagnostic_error]; try exact IH.
    all: destruct err as [name | ext]; cbn [failure_of In].
    all: split;
      [ intros [[<- | Hin] Hcfg];
        [ first [eexists; split; [reflexivity | left; reflexivity] | discriminate Hcfg]
        | destruct (proj1 IH (conj Hin Hcfg)) as (n & -> & Hn);
          eexists; split; [reflexivity | first [right; exact Hn | exact Hn]] ]
      | intros (n & -> & Hn);
        first [ destruct Hn as [<- | Hn];
                [ split; [left; reflexivity | reflexivity]
                | destruct (proj2 IH (ex_intro _ n (conj eq_refl Hn))) as [Hin Hcfg];
                  split; [right; exact Hin | exact Hcfg] ]
              | destruct (proj2 IH (ex_intro _ n (conj eq_refl Hn))) as [Hin Hcfg];
                split; [right; exact Hin | exact Hcfg] ] ].
Qed.

Lemma stopped_after_imports (key : string) (fs : gmap string EnvFile.JsString)
    (r : Z * State) :
  stopped_by_configuration (after_imports key fs r) <-> failed_on_configuration r.
Proof.
  unfold stopped_by_configuration, failed_on_configuration, after_imports, errors_shown.
  cbn [exit_code uncaught_error machine events shown_in shown_by].
  rewrite app_nil_r.
  change (network_actions ((PrivateKeyToAccount key, Plain RUnit) :: List.map lifted (trace (snd r))))
    with (network_actions (List.map lifted (trace (snd r)))).
  rewrite network_actions_lifted.
  split; intros (Hcode & Herr & Hnet); (split; [exact Hcode |]); split.
  - destruct Herr as (e & Hin & Hcfg).
    destruct (proj1 (shown_in_lifted _ e) (conj Hin Hcfg)) as (name & _ & Hname).
    intros Hnone. rewrite Hnone in Hname. destruct Hname.
  - destruct (network_calls (trace (snd r))); [reflexivity | discriminate Hnet].
  - destruct (configuration_errors (trace (snd r))) as [| name names] eqn:Hnames;
      [destruct (Herr eq_refl) |].
    exists (Missing name).
    apply (shown_in_lifted (trace (snd r)) (Missing name)).
    exists name. split; [reflexivity |]. rewrite Hnames. left. reflexivity.
  - rewrite Hnet. reflexivity.
Qed.

Lemma program_reaches_main (started : M unit) (script : World -> Chain -> Z * State)
    (sv : Services) (c : Chain) (fs : gmap string EnvFile.JsString) :
  (forall w c, exists o st,
     started w {| chain := c; trace := [] |} = (o, st) /\
     (forall e, o <> Threw e) /\
     script w c = (code_of o, st)) ->
  imports_succeed (base sv) ->
  run_program (bind Program.imports (fun _ => shared started)) sv c fs =
    after_imports (as_hex (process_env (base sv) !! "PRIVATE_KEY")) fs
      (script (later (base sv) 1) c).
Proof.
  intros Hstarted (Hrefused & Hkey & Hpimlico).
  rewrite (program_cases started script sv c fs Hstarted). cbv zeta.
  unfold url_or_key_refused, key_accepted in *.
  destruct (falsy (process_env (base sv) !! "SEPOLIA_RPC_URL")) eqn:Hurl;
    [apply falsy_true in Hurl; tauto |].
  destruct (falsy (process_env (base sv) !! "PRIVATE_KEY")) eqn:Hset;
    [apply falsy_true in Hset; tauto |].
  destruct (startsWith (as_hex (process_env (base sv) !! "PRIVATE_KEY")) "0x") eqn:Hprefix;
    [| tauto].
  cbn [negb]. rewrite Hkey.
  destruct (falsy (process_env (base sv) !! "PIMLICO_API_KEY")) eqn:Hapi;
    [apply falsy_true in Hapi; tauto |].
  reflexivity.
Qed.

Lemma lookup_after_imports (key : string) (fs : gmap string EnvFile.JsString)
    (r : Z * State) (n : nat) :
  events (machine (after_imports key fs r)) !! S n = lifted <$> (trace (snd r) !! n).
Proof.
  unfold after_imports. cbn [machine events].
  change (List.map lifted (trace (snd r)) !! n = lifted <$> trace (snd r) !! n).
  apply list_lookup_fmap.
Qed.

Lemma in_after_imports (key : string) (fs : gmap string EnvFile.JsString)
    (r : Z * State) (rq : Request) (reply : Reply) :
  In (Shared rq, reply) (events (machine (after_imports key fs r))) ->
  exists response, reply = Plain response /\ In (rq, response) (trace (snd r)).
Proof.
  unfold after_imports. cbn [machine events].
  intros [Hhead | Hin]; [discriminate Hhead |].
  apply in_map_iff in Hin as ([rq' rs] & Heq & Hin).
  unfold lifted in Heq. cbn [fst snd] in Heq. injection Heq as <- <-.
  exists rs. split; [reflexivity | exact Hin].
Qed.

Lemma transactions_lifted (t : list Entry) :
  submissions t = [] -> transactions (List.map lifted t) = [].
Proof.
  induction t as [| [rq rs] t IH]; [reflexivity |].
  cbn [submissions submission_of fst List.map lifted snd].
  destruct rq; cbn [transactions List.filter fst is_transaction]; try exact IH.
  discriminate.
Qed.

Lemma encodings_nil (t : list Entry) (rq : Request) (rs : Response) :
  encodings t = [] -> In (rq, rs) t -> is_encoding rq = false.
Proof.
  unfold encodings. intros Hnone Hin.
  destruct (is_encoding rq) eqn:Henc; [| reflexivity].
  assert (Hf : In (rq, rs) (List.filter (fun e => is_encoding (fst e)) t)).
  { apply filter_In. split; [exact Hin | exact Henc]. }
  rewrite Hnone in Hf. destruct Hf.
Qed.

End WholePrograms.

(** *** The configuration of the batch script *)


(** The cases of the checks the imported modules make. *)
Ltac import_checks sv :=
  unfold url_or_key_refused, key_accepted;
  destruct (falsy (process_env (Tools.base sv) !! "SEPOLIA_RPC_URL")) eqn:Hurl;
    [apply falsy_true in Hurl | apply falsy_false in Hurl];
  [| destruct (falsy (process_env (Tools.base sv) !! "PRIVATE_KEY")) eqn:Hset;
     [apply falsy_true in Hset | apply falsy_false in Hset];
     [| destruct (startsWith (as_hex (process_env (Tools.base sv) !! "PRIVATE_KEY")) "0x")
          eqn:Hprefix; cbn [negb];
        [destruct (faults (Tools.base sv) 0%nat) as [rejection |] eqn:Hkey;
         [| destruct (falsy (process_env (Tools.base sv) !! "PIMLICO_API_KEY")) eqn:Hapi;
            [apply falsy_true in Hapi | apply falsy_false in Hapi]] |]]].



(** *** The second receiver of the batch script *)

(** The second receiver set to the empty string is refused as missing;
    set to '0x' it passes the validation, and the run ends when the
    library rejects the balance read for '0x': no transfer is encoded
    and nothing is submitted. *)
Lemma receiver2_validation_counterexample :
  (let w := Demo.world_receiver2 (Some "") in
   process_env w !! "RECEIVER_ADDRESS2" = Some "" /\
   In "RECEIVER_ADDRESS2"
      (configuration_errors (trace (snd (BatchTransfer.script w Demo.fresh_chain))))) /\
  (let w := Demo.rejecting 3 Demo.invalid_address (Demo.world_receiver2 (Some "0x")) in
   let run := BatchTransfer.script w Demo.fresh_chain in
   process_env w !! "RECEIVER_ADDRESS2" = Some "0x" /\
   configuration_errors (trace (snd run)) = [] /\
   trace (snd run) !! 3%nat =
     Some (ReadContract Demo.token "balanceOf" [ArgAddress "0x"],
           RRejected Demo.invalid_address) /\
   fst run = 1 /\
   encodings (trace (snd run)) = [] /\
   submissions (trace (snd run)) = []).
Proof.
  split.
  - intros w. split; [vm_compute; reflexivity |].
    vm_compute. left. reflexivity.
  - intros w run. repeat split; vm_compute; reflexivity.
Qed.

(** C10, amended.  In a run whose imports succeed, the validation in
    [main] of the batch script treats the second receiver differently
    from the token and the first receiver.  A token or first receiver
    address that is unset, empty or '0x' stops the run with a
    configuration error, before any network call and with exit code 1.
    The second receiver address is reported missing exactly when it is
    unset or empty (and the other two have passed).  The value '0x'
    passes: the run is not stopped by the configuration and asks for
    the smart account client; once it has the client, the snapshot of
    the balances reads the balance of '0x'; when that read is rejected,
    the run ends with exit code 1, no call is encoded and no
    transaction is sent.  Where a run does encode the second transfer,
    its recipient is '0x'. *)
Theorem receiver2_validation_is_weaker
    (sv : Tools.Services) (c : Chain) (fs : gmap string EnvFile.JsString) :
  let run := Tools.run_program Tools.Program.batchTransfer sv c fs in
  let log := Tools.events (Tools.machine run) in
  let w := Tools.base sv in
  let tokenAddress := process_env w !! "ERC20_TOKEN_ADDRESS" in
  let receiver1 := process_env w !! "RECEIVER_ADDRESS" in
  let receiver2 := process_env w !! "RECEIVER_ADDRESS2" in
  let read2 :=
    Tools.Shared (ReadContract (as_hex tokenAddress) "balanceOf" [ArgAddress "0x"]) in
  imports_succeed w ->
  (unset_empty_or_0x tokenAddress \/ unset_empty_or_0x receiver1 ->
     Tools.stopped_by_configuration run /\ Tools.exit_code run = 1) /\
  (In (Tools.Missing "RECEIVER_ADDRESS2") (Tools.errors_shown run) <->
     ~ unset_empty_or_0x tokenAddress /\ ~ unset_empty_or_0x receiver1 /\
     unset_or_empty receiver2) /\
  (~ unset_empty_or_0x tokenAddress -> ~ unset_empty_or_0x receiver1 ->
   receiver2 = Some "0x" ->
     ~ Tools.stopped_by_configuration run /\
     (exists reply, log !! 1%nat = Some (Tools.Shared GetSmartAccountClient, reply)) /\
     (log !! 1%nat = Some (Tools.Shared GetSmartAccountClient, Tools.Plain RUnit) ->
      exists reply, log !! 4%nat = Some (read2, reply)) /\
     (forall e,
        log !! 4%nat = Some (read2, Tools.Plain (RRejected e)) ->
        Tools.exit_code run = 1 /\
        (forall rq reply, In (Tools.Shared rq, reply) log -> is_encoding rq = false) /\
        Tools.transactions log = []) /\
     (forall recipient amount reply,
        In (Tools.Shared (EncodeFunctionData "transfer"
                            [ArgAddress recipient; ArgUint amount]), reply) log ->
        amount = 20 * 10 ^ 18 -> recipient = "0x")).
Proof.
  intros run log w tokenAddress receiver1 receiver2 read2 Himports.
  subst run log w tokenAddress receiver1 receiver2 read2.
  unfold Tools.Program.batchTransfer.
  rewrite (program_reaches_main _ _ sv c fs batch_started Himports).
  set (key := as_hex (process_env (Tools.base sv) !! "PRIVATE_KEY")).
  set (w := Tools.later (Tools.base sv) 1).
  destruct (batch_main_validation w c) as (_ & Hiff & Hinvalid & _).
  destruct (batch_main_receiver2 w c) as (Hmissing & Hpasses).
  change (process_env w) with (process_env (Tools.base sv)) in *.
  unfold invalid_environment in *.
  change (process_env w) with (process_env (Tools.base sv)) in *.
  cbv zeta in Hpasses.
  split; [| split].
  - intros Hbad. rewrite stopped_after_imports.
    assert (Hinv : unset_empty_or_0x (process_env (Tools.base sv) !! "ERC20_TOKEN_ADDRESS") \/
                   unset_empty_or_0x (process_env (Tools.base sv) !! "RECEIVER_ADDRESS") \/
                   unset_or_empty (process_env (Tools.base sv) !! "RECEIVER_ADDRESS2"))
      by tauto.
    split; [exact (proj2 Hiff Hinv) |].
    destruct (Hinvalid Hinv) as (name & _ & Hcode). exact Hcode.
  - rewrite <- Hmissing.
    unfold Tools.errors_shown, Tools.after_imports.
    cbn [Tools.uncaught_error Tools.machine Tools.events Tools.shown_in Tools.shown_by].
    rewrite app_nil_r.
    split.
    + intros Hin.
      destruct (proj1 (shown_in_lifted _ _) (conj Hin eq_refl)) as (name & Heq & Hname).
      injection Heq as <-. exact Hname.
    + intros Hname.
      apply (shown_in_lifted (trace (snd (BatchTransfer.script w c)))
               (Tools.Missing "RECEIVER_ADDRESS2")).
      exists "RECEIVER_ADDRESS2". split; [reflexivity | exact Hname].
  - intros Htoken Hreceiver Hzero.
    destruct (Hpasses Htoken Hreceiver Hzero) as (Hfirst & Hsnapshot & Hrejected & Hused).
    split; [| split; [| split; [| split]]].
    + rewrite stopped_after_imports, Hiff. rewrite Hzero.
      unfold unset_or_empty. intuition congruence.
    + rewrite lookup_after_imports.
      destruct (trace (snd (BatchTransfer.script w c))) as [| [rq rs] t];
        [discriminate Hfirst |].
      injection Hfirst as ->. eexists. reflexivity.
    + rewrite !lookup_after_imports. intros Hclient.
      destruct (trace (snd (BatchTransfer.script w c)) !! 0%nat) as [[rq rs] |] eqn:H0;
        [| discriminate Hclient].
      injection Hclient as -> ->.
      destruct (Hsnapshot eq_refl) as (response & Hresponse).
      exists (Tools.Plain response).
      exact (f_equal (fmap Tools.lifted) Hresponse).
    + intros e. rewrite lookup_after_imports.
      destruct (trace (snd (BatchTransfer.script w c)) !! 3%nat) as [[rq rs] |] eqn:H3;
        intros Hread; [| discriminate Hread].
      injection Hread as -> ->.
      destruct (Hrejected e eq_refl) as (Hcode & Henc & Hsub).
      split; [exact Hcode |]. split.
      * intros rq reply Hin.
        apply in_after_imports in Hin as (response & _ & Hin).
        exact (encodings_nil _ rq response Henc Hin).
      * unfold Tools.after_imports. cbn [Tools.machine Tools.events].
        exact (transactions_lifted _ Hsub).
    + intros recipient amount reply Hin Hamount.
      apply in_after_imports in Hin as (response & _ & Hin).
      exact (Hused recipient amount response Hin Hamount).
Qed.

Lemma receiver2_validation_witness :
  let w := Demo.rejecting 4 Demo.invalid_address
             (Demo.world_with (<["RECEIVER_ADDRESS2" := "0x"]> DemoTools.program_env)
                (Some (Demo.receipt_with success))) in
  let sv := DemoTools.services_of w 1000 in
  Tools.events (Tools.machine
    (Tools.run_program Tools.Program.batchTransfer sv Demo.fresh_chain ∅)) !! 4%nat =
    Some (Tools.Shared (ReadContract Demo.token "balanceOf" [ArgAddress "0x"]),
          Tools.Plain (RRejected Demo.invalid_address)) /\
  Tools.exit_code
    (Tools.run_program Tools.Program.batchTransfer sv Demo.fresh_chain ∅) = 1 /\
  Tools.transactions (Tools.events (Tools.machine
    (Tools.run_program Tools.Program.batchTransfer sv Demo.fresh_chain ∅))) = [].
Proof.
  intros w sv.
  assert (Hread :
    Tools.events (Tools.machine
      (Tools.run_program Tools.Program.batchTransfer sv Demo.fresh_chain ∅)) !! 4%nat =
    Some (Tools.Shared (ReadContract Demo.token "balanceOf" [ArgAddress "0x"]),
          Tools.Plain (RRejected Demo.invalid_address))).
  { vm_compute. reflexivity. }
  split; [exact Hread |].
  assert (Himports : imports_succeed (Tools.base sv)).
  { split; [| split].
    - intros [[H | H] | [[H | H] | H]]; vm_compute in H; discriminate H.
    - reflexivity.
    - intros [H | H]; vm_compute in H; discriminate H. }
  destruct (proj2 (proj2 (receiver2_validation_is_weaker sv Demo.fresh_chain ∅ Himports)))
    as (_ & _ & _ & Hrejected & _).
  - intros [[H | H] | H]; vm_compute in H; discriminate H.
  - intros [[H | H] | H]; vm_compute in H; discriminate H.
  - vm_compute. reflexivity.
  - destruct (Hrejected Demo.invalid_address Hread) as (Hcode & _ & Htx).
    split; [exact Hcode | exact Htx].
Defined.

(** *** The configuration of the single transfer script *)

(** X5.  The validation of the single transfer program.  A run is
    stopped by a configuration error, before any network call, exactly
    when [SEPOLIA_RPC_URL] or [PRIVATE_KEY] is unset or empty, or
    [PRIVATE_KEY] does not start with [0x], or, [privateKeyToAccount]
    having accepted the key, [PIMLICO_API_KEY] is unset or empty or the
    token address or the receiver address is unset, empty or '0x'; the
    exit code is then 1.  When the imports succeed and the token or the
    receiver address is refused, [main] writes the error twice (its
    message, then the error itself) and the process exits, and that is
    all the run does after loading the key; the token address is
    checked first.  When the imports succeed and both values pass, the
    first thing [main] does is to ask for the smart account client. *)
Theorem single_transfer_validates_the_environment
    (sv : Tools.Services) (c : Chain) (fs : gmap string EnvFile.JsString) :
  let run := Tools.run_program Tools.Program.sendErc20With7702 sv c fs in
  let log := Tools.events (Tools.machine run) in
  let w := Tools.base sv in
  let key := as_hex (process_env w !! "PRIVATE_KEY") in
  let tokenAddress := process_env w !! "ERC20_TOKEN_ADDRESS" in
  let receiver := process_env w !! "RECEIVER_ADDRESS" in
  (Tools.stopped_by_configuration run <->
     url_or_key_refused (process_env w) \/
     key_accepted w /\
     (unset_or_empty (process_env w !! "PIMLICO_API_KEY") \/
      unset_empty_or_0x tokenAddress \/ unset_empty_or_0x receiver)) /\
  (Tools.stopped_by_configuration run -> Tools.exit_code run = 1) /\
  (imports_succeed w ->
   unset_empty_or_0x tokenAddress \/ unset_empty_or_0x receiver ->
   exists name,
     log =
       [ (Tools.PrivateKeyToAccount key, Tools.Plain RUnit);
         (Tools.Shared (ConsoleError (ErrorMessage (MissingEnv name))), Tools.Plain RUnit);
         (Tools.Shared (ConsoleError (FullError (MissingEnv name))), Tools.Plain RUnit);
         (Tools.Shared (ProcessExit 1), Tools.Plain RUnit) ] /\
     (name = "ERC20_TOKEN_ADDRESS" <-> unset_empty_or_0x tokenAddress)) /\
  (imports_succeed w ->
   ~ unset_empty_or_0x tokenAddress -> ~ unset_empty_or_0x receiver ->
   exists reply, log !! 1%nat = Some (Tools.Shared GetSmartAccountClient, reply)).
Proof.
  intros run log w key tokenAddress receiver.
  subst run log w key tokenAddress receiver.
  unfold Tools.Program.sendErc20With7702.
  destruct (single_main_validation (Tools.later (Tools.base sv) 1) c)
    as (Hiff & Hinvalid & Hvalid).
  cbv zeta in Hiff, Hinvalid, Hvalid.
  change (process_env (Tools.later (Tools.base sv) 1))
    with (process_env (Tools.base sv)) in *.
  split; [| split; [| split]].
  - rewrite (program_cases _ _ sv c fs single_started); cbv zeta.
    import_checks sv.
    5: { rewrite stopped_after_imports, Hiff. intuition congruence. }
    all: unfold Tools.stopped_by_configuration, Tools.errors_shown; cbn.
    all: split; [intros (Hcode & (err & Herr & Hcfg) & Hnet) | intros Hbad].
    all: try solve [intuition congruence].
    all: try (split; [discriminate |]; split; [| reflexivity]).
    all: try (eexists; split; [left; reflexivity | reflexivity]).
    destruct Herr as [<- | []]. discriminate Hcfg.
  - rewrite (program_cases _ _ sv c fs single_started); cbv zeta.
    import_checks sv.
    5: { rewrite stopped_after_imports. intros Hfailed.
         destruct (Hinvalid (proj1 Hiff Hfailed)) as (name & _ & Hcode & _). exact Hcode. }
    all: intros _; reflexivity.
  - intros Himports Hbad.
    rewrite (program_reaches_main _ _ sv c fs single_started Himports).
    destruct (Hinvalid Hbad) as (name & Htrace & _ & Hname).
    exists name. split; [| exact Hname].
    unfold Tools.after_imports. cbn [Tools.machine Tools.events].
    rewrite Htrace. reflexivity.
  - intros Himports Htoken Hreceiver.
    rewrite (program_reaches_main _ _ sv c fs single_started Himports).
    rewrite lookup_after_imports.
    specialize (Hvalid Htoken Hreceiver).
    destruct (trace (snd (SendErc20With7702.script (Tools.later (Tools.base sv) 1) c)))
      as [| [rq rs] t]; [discriminate Hvalid |].
    injection Hvalid as ->. eexists. reflexivity.
Qed.

Lemma single_transfer_validation_witness :
  let w := Demo.world_with (delete "PRIVATE_KEY" DemoTools.program_env)
             (Some (Demo.receipt_with success)) in
  let sv := DemoTools.services_of w 1000 in
  Tools.stopped_by_configuration
    (Tools.run_program Tools.Program.sendErc20With7702 sv Demo.fresh_chain ∅) /\
  Tools.uncaught_error
    (Tools.run_program Tools.Program.sendErc20With7702 sv Demo.fresh_chain ∅) =
    Some (Tools.Missing "PRIVATE_KEY").
Proof.
  intros w sv.
  split; [| vm_compute; reflexivity].
  apply (proj1 (single_transfer_validates_the_environment sv Demo.fresh_chain ∅)).
  left. right. left. left. vm_compute. reflexivity.
Defined.

(** ** The [.env] file after [updateEnvFile] *)

Section EnvFileFacts.

Import EnvFile.
Local Open Scope list_scope.

Lemma starts_with_app_l (p x r : JsString) :
  (length p <= length x)%nat -> starts_with p (x ++ r) = starts_with p x.
Proof.
  revert x; induction p as [|a p IH]; intros [|b x] Hlen; cbn in *; try reflexivity; try lia.
  rewrite IH by lia; reflexivity.
Qed.

Lemma starts_with_app_true (p x r : JsString) :
  starts_with p x = true -> starts_with p (x ++ r) = true.
Proof.
  revert x; induction p as [|a p IH]; intros [|b x] H; cbn in *; try reflexivity; try discriminate.
  apply andb_true_iff in H as [-> H]; cbn; auto.
Qed.

Lemma starts_with_self (p r : JsString) : starts_with p (p ++ r) = true.
Proof.
  induction p as [|a p IH]; cbn; [reflexivity |].
  rewrite N.eqb_refl; exact IH.
Qed.

Lemma starts_with_lookup (p s : list N) (i : nat) (u : N) :
  starts_with p s = true -> p !! i = Some u -> s !! i = Some u.
Proof.
  revert s i; induction p as [|a p IH]; intros [|b s] i H Hi; cbn in *; try discriminate.
  apply andb_true_iff in H as [Hab H]; apply N.eqb_eq in Hab; subst b.
  destruct i as [|i]; cbn in *; [exact Hi | eauto].
Qed.

Lemma KEY_length : length KEY = 20%nat.
Proof. reflexivity. Qed.

Lemma KEY_equals_sign (i : nat) : (KEY : list N) !! i = Some 61%N -> i = 19%nat.
Proof.
  intros H.
  do 20 (destruct i as [|i]; [vm_compute in H; first [discriminate H | reflexivity] |]).
  vm_compute in H; discriminate H.
Qed.

Lemma KEY_last : (KEY : list N) !! 19%nat = Some 61%N.
Proof. reflexivity. Qed.

Lemma KEY_one_line (i : nat) (u : N) : (KEY : list N) !! i = Some u -> line_terminator u = false.
Proof.
  intros H.
  do 20 (destruct i as [|i]; [vm_compute in H; injection H as <-; reflexivity |]).
  vm_compute in H; discriminate H.
Qed.

Lemma exec_nil : exec [] = None.
Proof. reflexivity. Qed.

Lemma exec_cons (u : N) (s : JsString) :
  exec (u :: s) =
  if starts_with KEY (u :: s) then
    let (m, rest) := dot_star (drop (length KEY) (u :: s)) in Some ([], KEY ++ m, rest)
  else
    match exec s with
    | Some (before, matched, rest) => Some (u :: before, matched, rest)
    | None => None
    end.
Proof. reflexivity. Qed.

Lemma includes_cons (p : JsString) (u : N) (s : JsString) :
  includes p (u :: s) = starts_with p (u :: s) || includes p s.
Proof. reflexivity. Qed.

Lemma dot_star_one_line (a rest : JsString) :
  one_line a -> ends_line rest -> dot_star (a ++ rest) = (a, rest).
Proof.
  intros Ha Hrest; induction a as [|u a IH]; cbn.
  - destruct Hrest as [-> | (u & r & -> & Hu)]; cbn; [reflexivity | rewrite Hu; reflexivity].
  - rewrite (Ha u) by (left; reflexivity).
    rewrite IH; [reflexivity | intros v Hv; apply Ha; right; exact Hv].
Qed.

Lemma dot_star_spec (s m rest : JsString) :
  dot_star s = (m, rest) -> s = m ++ rest /\ one_line m /\ ends_line rest.
Proof.
  revert m rest; induction s as [|u s IH]; intros m rest H; cbn in H.
  - injection H as <- <-; repeat split; [intros ? [] | left; reflexivity].
  - destruct (line_terminator u) eqn:Hu.
    + injection H as <- <-; repeat split; [intros ? [] | right; eauto].
    + destruct (dot_star s) as [m' rest'] eqn:Hs; injection H as <- <-.
      destruct (IH _ _ eq_refl) as (-> & Hm & Hr); repeat split; [| exact Hr].
      intros v [<- | Hv]; [exact Hu | apply Hm; exact Hv].
Qed.

(** No occurrence of the key straddles the end of a text without one
    and the key that follows it: [=] is the key's last code unit only. *)
Lemma starts_with_before_key (x t : JsString) :
  x <> [] -> starts_with KEY x = false -> starts_with KEY (x ++ KEY ++ t) = false.
Proof.
  intros Hx Hfalse.
  destruct (le_lt_dec (length KEY) (length x)) as [Hlen | Hlen].
  - rewrite starts_with_app_l by exact Hlen; exact Hfalse.
  - destruct (starts_with KEY (x ++ KEY ++ t)) eqn:Hs; [exfalso | reflexivity].
    pose proof (starts_with_lookup _ _ _ _ Hs KEY_last) as Hl.
    rewrite KEY_length in Hlen.
    assert (0 < length x)%nat by (destruct x; [congruence | cbn; lia]).
    rewrite lookup_app_r in Hl by lia.
    rewrite lookup_app_l in Hl by (rewrite KEY_length; lia).
    apply KEY_equals_sign in Hl; lia.
Qed.

Lemma exec_first (b t : JsString) :
  includes KEY b = false ->
  exec (b ++ KEY ++ t) = Some (b, KEY ++ fst (dot_star t), snd (dot_star t)).
Proof.
  induction b as [|u b IH]; intros Hb.
  - cbn [app]. destruct (KEY ++ t) as [|k s] eqn:Hk; [discriminate Hk |].
    rewrite exec_cons, <- Hk, starts_with_self.
    rewrite drop_app_length. destruct (dot_star t); reflexivity.
  - rewrite includes_cons in Hb; apply orb_false_iff in Hb as [Hu Hb].
    change ((u :: b) ++ KEY ++ t) with (u :: (b ++ KEY ++ t)).
    rewrite exec_cons.
    change (u :: (b ++ KEY ++ t)) with ((u :: b) ++ KEY ++ t).
    rewrite starts_with_before_key by (congruence || exact Hu).
    rewrite IH by exact Hb; reflexivity.
Qed.

Lemma exec_spec (s b m r : JsString) :
  exec s = Some (b, m, r) ->
  includes KEY b = false /\
  exists v, m = KEY ++ v /\ s = b ++ KEY ++ v ++ r /\ one_line v /\ ends_line r.
Proof.
  revert b; induction s as [|u s IH]; intros b H.
  - rewrite exec_nil in H; discriminate H.
  - rewrite exec_cons in H. destruct (starts_with KEY (u :: s)) eqn:Hs.
    + destruct (dot_star (drop (length KEY) (u :: s))) as [v rest] eqn:Hd.
      injection H as <- <- <-. split; [reflexivity |].
      exists v; split; [reflexivity |].
      apply dot_star_spec in Hd as (Hd & Hv & Hr); repeat split; auto.
      cbn [app]. rewrite <- Hd.
      assert (Htake : take (length KEY) (u :: s) = KEY).
      { clear -Hs. revert Hs. generalize (u :: s) as x. generalize KEY as p.
        induction p as [|a p IH]; intros [|c x] H; cbn in *; try discriminate; [reflexivity | reflexivity |].
        apply andb_true_iff in H as [Hac H]; apply N.eqb_eq in Hac; subst c.
        f_equal; apply IH; exact H. }
      rewrite <- Htake at 1. symmetry; apply take_drop.
    + destruct (exec s) as [[[b' m'] r'] |] eqn:He; [| discriminate H].
      injection H as <- <- <-.
      destruct (IH _ eq_refl) as (Hb & v & -> & -> & Hv & Hr).
      split.
      * rewrite includes_cons, Hb, orb_false_r.
        destruct (starts_with KEY (u :: b')) eqn:Hp; [| reflexivity].
        apply (starts_with_app_true _ _ (KEY ++ v ++ r')) in Hp.
        cbn [app] in Hp; congruence.
      * exists v; repeat split; auto.
Qed.

Lemma exec_includes (s : JsString) : includes KEY s = true -> exec s <> None.
Proof.
  induction s as [|u s IH]; intros H.
  - discriminate H.
  - rewrite includes_cons in H. rewrite exec_cons.
    destruct (starts_with KEY (u :: s)).
    + destruct (dot_star _); discriminate.
    + cbn in H. specialize (IH H). destruct (exec s) as [[[? ?] ?] |]; [discriminate | congruence].
Qed.

Lemma get_substitution_plain (m b r a : JsString) :
  dollar_free a -> get_substitution m b r a = a.
Proof.
  induction a as [|u a IH]; intros Ha; [reflexivity |].
  cbn [get_substitution].
  destruct (N.eqb_spec u 36) as [-> | _]; [exfalso; apply (Ha 36%N); [left |]; reflexivity |].
  rewrite IH; [reflexivity | intros v Hv; apply Ha; right; exact Hv].
Qed.

Lemma get_substitution_key (m b r a : JsString) :
  dollar_free a -> get_substitution m b r (KEY ++ a) = KEY ++ a.
Proof.
  intros Ha; apply get_substitution_plain.
  intros u Hu; apply in_app_or in Hu as [Hu | Hu]; [| auto].
  intros ->. revert Hu. vm_compute. intuition discriminate.
Qed.

Lemma includes_line_break (c : JsString) :
  includes KEY c = false -> includes KEY (c ++ [10%N]) = false.
Proof.
  induction c as [|u c IH]; intros H; [reflexivity |].
  rewrite includes_cons in H; apply orb_false_iff in H as [Hu H].
  change ((u :: c) ++ [10%N]) with (u :: (c ++ [10%N])).
  rewrite includes_cons, (IH H), orb_false_r.
  change (u :: (c ++ [10%N])) with ((u :: c) ++ [10%N]).
  destruct (le_lt_dec (length KEY) (length (u :: c))) as [Hlen | Hlen].
  - rewrite starts_with_app_l by exact Hlen; exact Hu.
  - destruct (starts_with KEY ((u :: c) ++ [10%N])) eqn:Hs; [exfalso | reflexivity].
    destruct (lookup_lt_is_Some_2 (KEY : list N) (length (u :: c)) Hlen) as [k Hk].
    pose proof (starts_with_lookup _ _ _ _ Hs Hk) as Hl.
    rewrite lookup_app_r, Nat.sub_diag in Hl by lia.
    cbn in Hl; injection Hl as <-.
    apply KEY_one_line in Hk; discriminate Hk.
Qed.

Lemma includes_key (b t : JsString) : includes KEY (b ++ KEY ++ t) = true.
Proof.
  induction b as [|u b IH].
  - cbn [app]. destruct (KEY ++ t) as [|k s] eqn:Hk; [discriminate Hk |].
    rewrite includes_cons, <- Hk, starts_with_self. reflexivity.
  - change ((u :: b) ++ KEY ++ t) with (u :: (b ++ KEY ++ t)).
    rewrite includes_cons, IH. apply orb_true_r.
Qed.

(** What [updateEnvContent] writes, in both branches. *)
Lemma updateEnvContent_shape (content addr : JsString) :
  one_line addr -> dollar_free addr ->
  exists before rest,
    updateEnvContent content addr = before ++ KEY ++ addr ++ rest /\
    includes KEY before = false /\ ends_line rest /\
    (includes KEY content = false -> before = content ++ [10%N] /\ rest = [10%N]) /\
    (includes KEY content = true ->
       exists old, content = before ++ KEY ++ old ++ rest /\ one_line old).
Proof.
  intros Hline Hplain; unfold updateEnvContent.
  destruct (includes KEY content) eqn:Hinc.
  - unfold replace. pose proof (exec_includes _ Hinc) as Hex.
    destruct (exec content) as [[[b m] r] |] eqn:He; [| congruence].
    destruct (exec_spec _ _ _ _ He) as (Hb & v & -> & Hc & Hv & Hr).
    exists b, r. rewrite get_substitution_key by exact Hplain.
    rewrite <- app_assoc.
    split; [reflexivity |]. split; [exact Hb |]. split; [exact Hr |].
    split; [discriminate |].
    intros _; exists v; auto.
  - exists (content ++ [10%N]), [10%N].
    rewrite <- !app_assoc.
    split; [reflexivity |].
    split; [apply includes_line_break; exact Hinc |].
    split; [right; exists 10%N, []; auto |].
    split; [auto | discriminate].
Qed.

(** The checks of the hypotheses below, as computations. *)
Lemma one_line_check (s : JsString) :
  forallb (fun u => negb (line_terminator u)) s = true -> one_line s.
Proof.
  intros H u Hu. rewrite forallb_forall in H. specialize (H u Hu).
  destruct (line_terminator u); [discriminate H | reflexivity].
Qed.

Lemma dollar_free_check (s : JsString) :
  forallb (fun u => negb (u =? 36)%N) s = true -> dollar_free s.
Proof.
  intros H u Hu ->. rewrite forallb_forall in H. specialize (H _ Hu).
  discriminate H.
Qed.

(** X6. What [updateEnvFile] writes, for any previous content of the
    file and any address that has no line terminator and no [$] in it:
    the first occurrence of [ERC20_TOKEN_ADDRESS=] in the new content
    is followed by the address, and the address by the end of the line
    (or of the file). *)
Theorem env_update_sets_first_assignment (content addr : JsString) :
  one_line addr -> dollar_free addr ->
  exists before rest,
    updateEnvContent content addr = before ++ KEY ++ addr ++ rest /\
    includes KEY before = false /\ ends_line rest.
Proof.
  intros H1 H2.
  destruct (updateEnvContent_shape content addr H1 H2) as (b & r & ? & ? & ? & _).
  eauto.
Qed.

Lemma env_update_witness :
  exists before rest,
    updateEnvContent (js "A=1") (js "0xabc") = before ++ KEY ++ js "0xabc" ++ rest /\
    includes KEY before = false /\ ends_line rest.
Proof.
  apply env_update_sets_first_assignment.
  - apply one_line_check. vm_compute. reflexivity.
  - apply dollar_free_check. vm_compute. reflexivity.
Defined.

(** X7. [updateEnvFile] is idempotent: writing the same address a
    second time leaves the content as the first update made it (for an
    address without line terminator and without [$]).  In particular a
    second run does not append a second assignment. *)
Theorem env_update_idempotent (content addr : JsString) :
  one_line addr -> dollar_free addr ->
  updateEnvContent (updateEnvContent content addr) addr = updateEnvContent content addr.
Proof.
  intros H1 H2.
  destruct (updateEnvContent_shape content addr H1 H2) as (b & r & -> & Hb & Hr & _).
  unfold updateEnvContent.
  assert (Hex := exec_first b (addr ++ r) Hb).
  rewrite dot_star_one_line in Hex by assumption; cbn [fst snd] in Hex.
  rewrite (includes_key b (addr ++ r)).
  unfold replace; rewrite Hex, get_substitution_key by exact H2.
  rewrite <- !app_assoc; reflexivity.
Qed.

Lemma env_update_idempotent_witness :
  updateEnvContent (updateEnvContent (js "A=1") (js "0xabc")) (js "0xabc") =
  updateEnvContent (js "A=1") (js "0xabc").
Proof.
  apply env_update_idempotent.
  - apply one_line_check. vm_compute. reflexivity.
  - apply dollar_free_check. vm_compute. reflexivity.
Defined.

(** X8. [updateEnvFile] rewrites one line and nothing else.  In a file
    whose first occurrence of [ERC20_TOKEN_ADDRESS=] is followed by
    [old] up to the end of its line, the update replaces [old] by the
    address and keeps the text before the key and the text after that
    line as they are: also later assignments of the same key (the
    pattern has no [g] flag), and also whatever precedes the key on its
    own line, such as a comment sign. *)
Theorem env_update_keeps_the_rest (b old rest addr : JsString) :
  includes KEY b = false -> one_line old -> ends_line rest ->
  dollar_free addr ->
  updateEnvContent (b ++ KEY ++ old ++ rest) addr = b ++ KEY ++ addr ++ rest.
Proof.
  intros Hb Hold Hrest Hplain.
  assert (Hex := exec_first b (old ++ rest) Hb).
  rewrite dot_star_one_line in Hex by assumption; cbn [fst snd] in Hex.
  unfold updateEnvContent.
  rewrite (includes_key b (old ++ rest)).
  unfold replace; rewrite Hex, get_substitution_key by exact Hplain.
  rewrite <- !app_assoc; reflexivity.
Qed.

Lemma env_update_keeps_witness :
  updateEnvContent
    (js "# " ++ KEY ++ js "0x01" ++ [10%N] ++ KEY ++ js "0x02") (js "0xabc") =
  js "# " ++ KEY ++ js "0xabc" ++ [10%N] ++ KEY ++ js "0x02".
Proof.
  apply (env_update_keeps_the_rest (js "# ") (js "0x01")
           ([10%N] ++ KEY ++ js "0x02") (js "0xabc")).
  - vm_compute. reflexivity.
  - apply one_line_check. vm_compute. reflexivity.
  - right. exists 10%N, (KEY ++ js "0x02"). split; reflexivity.
  - apply dollar_free_check. vm_compute. reflexivity.
Defined.

End EnvFileFacts.

(** ** The maintenance scripts *)

Section MaintenanceScripts.

Import Tools.

(** *** Symbolic execution of a maintenance script *)

Ltac tools_norm :=
  cbv beta iota zeta delta
    [Tools.bind Tools.ret Tools.ask Tools.throw Tools.try_catch Tools.promise_all
     Tools.call Tools.shared Tools.later Tools.failure_of Tools.log
     Tools.console_error Tools.console_warn Tools.process_exit
     Tools.getBalance Tools.walletSendTransaction Tools.privateKeyToAccount
     Tools.readFileSync Tools.writeFileSync Tools.solcCompile
     Tools.walletDeployContract Tools.waitForDeployment Tools.readCompiled
     Tools.run_process
     Tools.base Tools.eth_balance Tools.wallet_send Tools.solc Tools.wallet_deploy
     Tools.deployment Tools.compiled_view
     Tools.m_chain Tools.files Tools.events
     Tools.abi Tools.bytecode_object Tools.errors Tools.artifact
     Tools.FundNewWallet.script Tools.FundNewWallet.main Tools.FundNewWallet.on_fatal
     Tools.FundNewWallet.ethToSend
     Tools.DeployToken.script Tools.DeployToken.module Tools.DeployToken.main
     Tools.DeployToken.uncaught Tools.DeployToken.compileContract
     Tools.DeployToken.deployContract Tools.DeployToken.verifyDeployment
     Tools.DeployToken.updateEnvFile Tools.DeployToken.lowBalance
     Tools.CheckSmartAccount.script Tools.CheckSmartAccount.main
     Tools.CheckSmartAccount.on_error
     Tools.run_program Tools.Program.fundNewWallet Tools.Program.imports
     Tools.Imported.publicClient Tools.Imported.owner Tools.Imported.clients
     extcall getSmartAccountClient readContract encodeFunctionData account_isDeployed
     sendTransaction waitForTransactionReceipt record
     process_env owner_address account_address faults owner_signature abi_encode
     account_encode_calls contract_view bundler inclusion
     fst snd chain trace status length app List.map nth Nat.add negb orb andb].

Ltac name_lookups :=
  repeat match goal with
    | H : ?v = ?m !! ?k |- context [?m !! ?k] => rewrite <- H
    end.

Ltac tools_run r :=
  eval_amounts;
  pattern r;
  lazymatch goal with
  | |- ?P _ =>
      let Post := fresh "Post" in
      set (Post := P);
      tools_norm; eval_amounts; name_lookups;
      repeat (exec_step; tools_norm);
      subst Post; cbv beta
  end.

(** The services and the world, as their fields. *)
Ltac open_services sv :=
  let w := fresh "w" in
  destruct sv as [w bal ws so wd dep cv];
  destruct w as [env own acc fl sig enc encs view bun inc];
  cbn [base process_env owner_address account_address faults abi_encode contract_view
       eth_balance solc] in *.

Ltac run_script script :=
  lazymatch goal with
  | |- context [script ?s ?c ?f] => tools_run (script s c f)
  end.

(** An entry of a log that is computed. *)
Ltac at_entry n := apply (nth_error_In _ n); vm_compute; reflexivity.

(** *** checkSmartAccount *)



(** *** fundNewWallet *)

(** X10.  The validation of the fundNewWallet program.  A run is
    stopped by a configuration error, before any network call, exactly
    when [SEPOLIA_RPC_URL] or [PRIVATE_KEY] is unset or empty, or
    [PRIVATE_KEY] does not start with [0x], or, [privateKeyToAccount]
    having accepted the key, [PIMLICO_API_KEY] is unset or empty, the
    address of the new wallet is unset or empty, or the token address
    is unset, empty or '0x'; the exit code is then 1.  When the imports
    succeed, [main] ends the run at once, with the error on the error
    stream and nothing else after the key was loaded, exactly when the
    address of the new wallet is unset or empty or the token address is
    unset, empty or '0x'.  The value '0x' is refused for the token
    only: with any non-empty address of the new wallet and a token
    address that passes, [main] goes on and asks for the smart account
    client. *)
Theorem funding_validates_the_environment (sv : Services) (c : Chain)
    (fs : gmap string EnvFile.JsString) :
  let run := run_program Program.fundNewWallet sv c fs in
  let log := events (machine run) in
  let w := base sv in
  let key := as_hex (process_env w !! "PRIVATE_KEY") in
  let newWalletAddress := process_env w !! "ADDRESS2" in
  let tokenAddress := process_env w !! "ERC20_TOKEN_ADDRESS" in
  (stopped_by_configuration run <->
     url_or_key_refused (process_env w) \/
     key_accepted w /\
     (unset_or_empty (process_env w !! "PIMLICO_API_KEY") \/
      unset_or_empty newWalletAddress \/ unset_empty_or_0x tokenAddress)) /\
  (stopped_by_configuration run -> exit_code run = 1) /\
  (imports_succeed w ->
     (unset_or_empty newWalletAddress \/ unset_empty_or_0x tokenAddress <->
      exists name,
        log =
          [ (PrivateKeyToAccount key, Plain RUnit);
            (Stderr (Fatal (Missing name)), Plain RUnit);
            (Shared (ProcessExit 1), Plain RUnit) ])) /\
  (imports_succeed w ->
   ~ unset_or_empty newWalletAddress -> ~ unset_empty_or_0x tokenAddress ->
   exists reply, log !! 1%nat = Some (Shared GetSmartAccountClient, reply)).
Proof.
  intros run log w key newWalletAddress tokenAddress.
  subst run log w key newWalletAddress tokenAddress.
  unfold stopped_by_configuration, errors_shown, imports_succeed, url_or_key_refused,
    key_accepted, unset_empty_or_0x.
  open_services sv.
  remember (env !! "SEPOLIA_RPC_URL") as rpcUrl.
  remember (env !! "PRIVATE_KEY") as privateKey.
  remember (env !! "PIMLICO_API_KEY") as pimlicoApiKey.
  remember (env !! "ADDRESS2") as newWalletAddress.
  remember (env !! "ERC20_TOKEN_ADDRESS") as tokenAddress.
  lazymatch goal with
  | |- context [run_program ?p ?s ?c ?f] => tools_run (run_program p s c f)
  end.
  all: checks_to_facts.
  all: cbn [exit_code uncaught_error machine events shown_in shown_by network_actions
            List.filter fst is_network_action is_network app].
  all: cbn [In is_configuration_error].
  all: split; [| split; [| split]].
  all: try (split; [intros (Hcode & (err & Herr & Hcfg) & Hnet) | intros Hbad]).
  all: try (intros (Hcode & (err & Herr & Hcfg) & Hnet); first [reflexivity | congruence]).
  all: try (intros (Hrefused & Hkey & Hpimlico);
            first [ split; [intros Hbad | intros [name Hlog]]
                  | intros Hwallet Htoken ]).
  all: try discriminate Hnet.
  all: try discriminate Hlog.
  all: try solve [intuition congruence].
  all: try solve [eexists; reflexivity].
  all: try solve [split; [discriminate |]; split;
                  [eexists; split; [left; reflexivity | reflexivity] | reflexivity]].
  destruct Herr as [<- | []]. discriminate Hcfg.
Qed.

Lemma funding_validation_witness :
  let w := Demo.world_with (<["ADDRESS2" := "0x"]> DemoTools.program_env)
             (Some (Demo.receipt_with success)) in
  let sv := DemoTools.services_of w DemoTools.rich in
  exists reply,
    events (machine (run_program Program.fundNewWallet sv Demo.fresh_chain ∅)) !! 1%nat =
    Some (Shared GetSmartAccountClient, reply).
Proof.
  intros w sv.
  apply (proj2 (proj2 (proj2 (funding_validates_the_environment sv Demo.fresh_chain ∅)))).
  - split; [| split].
    + intros [[H | H] | [[H | H] | H]]; vm_compute in H; discriminate H.
    + reflexivity.
    + intros [H | H]; vm_compute in H; discriminate H.
  - intros [H | H]; vm_compute in H; discriminate H.
  - intros [[H | H] | H]; vm_compute in H; discriminate H.
Defined.

(** X11. fundNewWallet sends nothing it cannot cover.  When the owner
    holds less than 0.1 ETH, or the smart account less than 10,000
    tokens (both as the chain has them when the script starts), the run
    ends with exit code 1 and submits no transaction of either kind.
    Whenever the ETH transfer is sent, it goes to the new wallet, its
    value is 0.1 ETH, and both balances were sufficient.  The error the
    run reports for an insufficient balance is raised only when that
    balance is insufficient, the one for the token only when the ETH
    balance suffices; the number its message shows after "have" is the
    balance as a JavaScript number divided by [1e18], which rounds: a
    balance of 0.1 ETH less one wei is shown as the number a balance of
    0.1 ETH gives. *)
Theorem insufficient_balance_sends_nothing (sv : Services) (c : Chain)
    (fs : gmap string EnvFile.JsString) :
  let run := FundNewWallet.script sv c fs in
  let w := base sv in
  let newWalletAddress := as_hex (process_env w !! "ADDRESS2") in
  let tokenAddress := as_hex (process_env w !! "ERC20_TOKEN_ADDRESS") in
  let eth := eth_balance sv c (owner_address w) in
  let ttk := contract_view w c tokenAddress "balanceOf" [ArgAddress (account_address w)] in
  (eth < 100000000000000000 \/ ttk < 10000 * 10 ^ 18 ->
   fst run = 1 /\ transactions (events (snd run)) = []) /\
  (forall to value reply,
     In (WalletSendTransaction to value, reply) (events (snd run)) ->
     to = newWalletAddress /\ value = 100000000000000000 /\
     100000000000000000 <= eth /\ 10000 * 10 ^ 18 <= ttk) /\
  (forall have,
     In (Stderr (Fatal (InsufficientEth have)), Plain RUnit) (events (snd run)) ->
     have = in_units eth /\ eth < 100000000000000000) /\
  (forall have,
     In (Stderr (Fatal (InsufficientTtk have)), Plain RUnit) (events (snd run)) ->
     have = in_units ttk /\ ttk < 10000 * 10 ^ 18 /\ 100000000000000000 <= eth) /\
  in_units 99999999999999999 = in_units 100000000000000000.
Proof.
  intros run w newWalletAddress tokenAddress eth ttk.
  subst run w newWalletAddress tokenAddress eth ttk.
  split; [| split; [| split; [| split]]]; [| | | | vm_compute; reflexivity].
  all: open_services sv.
  all: remember (env !! "ADDRESS2") as newWalletAddress.
  all: remember (env !! "ERC20_TOKEN_ADDRESS") as tokenAddress.
  - run_script FundNewWallet.script.
    all: cbn.
    all: intros Hlow; first [split; reflexivity | exfalso; lia].
  - run_script FundNewWallet.script.
    all: cbn.
    all: intros to value reply Hin; in_log; repeat split; first [reflexivity | lia].
  - run_script FundNewWallet.script.
    all: cbn.
    all: intros have Hin; in_log; repeat split; first [reflexivity | lia].
  - run_script FundNewWallet.script.
    all: cbn.
    all: intros have Hin; in_log; repeat split; first [reflexivity | lia].
Qed.

Lemma insufficient_balance_witness :
  let sv := DemoTools.services DemoTools.env 99999999999999999 None success None in
  fst (FundNewWallet.script sv Demo.fresh_chain ∅) = 1 /\
  transactions (events (snd (FundNewWallet.script sv Demo.fresh_chain ∅))) = [] /\
  In (Stderr (Fatal (InsufficientEth (in_units 100000000000000000))), Plain RUnit)
     (events (snd (FundNewWallet.script sv Demo.fresh_chain ∅))).
Proof.
  intros sv.
  destruct (proj1 (insufficient_balance_sends_nothing sv Demo.fresh_chain ∅))
    as (Hcode & Hnone).
  - left. vm_compute. reflexivity.
  - split; [exact Hcode |]. split; [exact Hnone |].
    at_entry 5%nat.
Defined.



(** X13. How a run of fundNewWallet ends.  The exit code is 0 or 1.
    It is 0 only when both transfers were submitted, in this order, the
    receipts of both were obtained with the status success, and no
    request of the run was rejected.  A receipt with the status
    reverted ends the run with exit code 1: for the ETH transfer before
    the token transfer is submitted, for the token transfer with the
    ETH transfer already confirmed. *)
Theorem funding_ends_normally_only_when_both_are_confirmed (sv : Services) (c : Chain)
    (fs : gmap string EnvFile.JsString) :
  let run := FundNewWallet.script sv c fs in
  (fst run = 0 \/ fst run = 1) /\
  (fst run = 0 ->
   exists ethHash ethReceipt tx ttkHash ttkReceipt to value,
     transactions (events (snd run)) =
       [ (WalletSendTransaction to value, Plain (RHex ethHash));
         (Shared (SendTransaction tx), Plain (RHex ttkHash)) ] /\
     In (Shared (WaitForTransactionReceipt ethHash 120000), Plain (RReceipt ethReceipt))
        (events (snd run)) /\
     In (Shared (WaitForTransactionReceipt ttkHash 120000), Plain (RReceipt ttkReceipt))
        (events (snd run)) /\
     status ethReceipt = success /\ status ttkReceipt = success /\
     rejected (events (snd run)) = []) /\
  (forall hash receipt,
     In (Shared (WaitForTransactionReceipt hash 120000), Plain (RReceipt receipt))
        (events (snd run)) ->
     status receipt = reverted ->
     fst run = 1 /\
     (In (Stderr (Fatal EthReverted), Plain RUnit) (events (snd run)) /\
        length (transactions (events (snd run))) = 1%nat \/
      In (Stderr (Fatal TtkReverted), Plain RUnit) (events (snd run)) /\
        length (transactions (events (snd run))) = 2%nat)).
Proof.
  intros run; subst run.
  open_services sv.
  remember (env !! "ADDRESS2") as newWalletAddress.
  remember (env !! "ERC20_TOKEN_ADDRESS") as tokenAddress.
  run_script FundNewWallet.script.
  all: cbn.
  all: split; [auto |].
  all: split; [intros Hcode; try discriminate Hcode |].
  all: try (do 7 eexists; repeat split; first [reflexivity | find_in_log | assumption]).
  all: intros hash receipt Hin Hstatus; in_log.
  all: try (cbn in Hstatus; discriminate Hstatus).
  all: split; [reflexivity |].
  all: first [left; split; [find_in_log | reflexivity]
             | right; split; [find_in_log | reflexivity]].
Qed.

Lemma funding_reverted_witness :
  let sv := DemoTools.services DemoTools.env DemoTools.rich None reverted None in
  fst (FundNewWallet.script sv Demo.fresh_chain ∅) = 1 /\
  In (Stderr (Fatal EthReverted), Plain RUnit)
     (events (snd (FundNewWallet.script sv Demo.fresh_chain ∅))).
Proof.
  intros sv.
  assert (Hin : In (Shared (WaitForTransactionReceipt "0xeth" 120000),
                    Plain (RReceipt (Demo.receipt_with reverted)))
                   (events (snd (FundNewWallet.script sv Demo.fresh_chain ∅)))).
  { at_entry 6%nat. }
  split.
  - exact (proj1 (proj2 (proj2 (funding_ends_normally_only_when_both_are_confirmed
                                  sv Demo.fresh_chain ∅))
                    "0xeth" (Demo.receipt_with reverted) Hin eq_refl)).
  - at_entry 7%nat.
Defined.

(** *** deployToken *)

Lemma for_each_stderr {A} (xs : list A) (line : A -> Line) (sv : Services) (st : Machine) :
  for_each xs (fun x => console_error (line x)) sv st =
  (Done tt,
   {| m_chain := m_chain st; files := files st;
      events := (events st ++ List.map (fun x => (Stderr (line x), Plain RUnit)) xs)%list |}).
Proof.
  revert st; induction xs as [|x xs IH]; intros st.
  - cbn. unfold ret. rewrite app_nil_r. destruct st; reflexivity.
  - cbn [for_each]. unfold bind at 1. cbn [console_error log].
    rewrite IH. cbn. rewrite <- app_assoc. reflexivity.
Qed.

Lemma stderr_tail (xs : list CompilerMessage) (a : Action) (r : Reply) :
  In (a, r)
     (List.map (fun m => (Stderr (Formatted (formattedMessage m)), Plain RUnit)) xs ++
      [ (Shared (ProcessExit 1), Plain RUnit) ])%list ->
  (exists l, a = Stderr l) \/ a = Shared (ProcessExit 1).
Proof.
  intros H; apply in_app_or in H as [H | [H | []]].
  - apply in_map_iff in H as (m & Hm & _). injection Hm as <- _. eauto.
  - injection H as <- _. auto.
Qed.

Lemma no_errors (xs : list CompilerMessage) :
  (0 <? length xs)%nat = false -> xs = [].
Proof.
  destruct xs; [reflexivity |]. cbn. discriminate.
Qed.

(** The lines of the compilation errors, once they are written. *)
Ltac for_each_done :=
  match goal with
  | H : for_each ?xs _ ?sv ?st = (?r, ?m) |- _ =>
      let E := fresh "E" in
      pose proof (eq_trans (eq_sym (for_each_stderr xs
                    (fun x => Formatted (formattedMessage x)) sv st)) H) as E;
      clear H;
      first [discriminate E | injection E as E; subst m; tools_norm]
  end.

Ltac deploy_run :=
  run_script DeployToken.script; try for_each_done.

Ltac drop_tail :=
  try match goal with
    | H : In _ _ |- _ => apply stderr_tail in H as [[? H] | H]; discriminate H
    end.

(** X14. deployToken needs the private key and the RPC URL.  The run
    writes its two lines about missing environment variables and exits
    with code 1, with nothing else in its log, exactly when
    [PRIVATE_KEY] or [SEPOLIA_RPC_URL] is unset or empty; no file is
    read or written then.  Otherwise its first step is to derive the
    account from the private key. *)
Theorem deployment_needs_key_and_rpc_url (sv : Services) (c : Chain)
    (fs : gmap string EnvFile.JsString) :
  let run := DeployToken.script sv c fs in
  let key := process_env (base sv) !! "PRIVATE_KEY" in
  let url := process_env (base sv) !! "SEPOLIA_RPC_URL" in
  ((unset_or_empty key \/ unset_or_empty url) <->
   events (snd run) =
     [ (Stderr MissingVariables, Plain RUnit);
       (Stderr PleaseEnsure, Plain RUnit);
       (Shared (ProcessExit 1), Plain RUnit) ]) /\
  (unset_or_empty key \/ unset_or_empty url -> fst run = 1 /\ files (snd run) = fs) /\
  (~ unset_or_empty key -> ~ unset_or_empty url ->
   first_action (events (snd run)) = Some (PrivateKeyToAccount (as_hex key))).
Proof.
  intros run key url; subst run key url.
  open_services sv.
  remember (env !! "PRIVATE_KEY") as key.
  remember (env !! "SEPOLIA_RPC_URL") as url.
  deploy_run.
  all: checks_to_facts; cbn [fst snd events files m_chain first_action].
  all: (split; [split; [intros Hbad | intros Hlog] |]).
  all: try tauto.
  all: try discriminate Hlog.
  all: try reflexivity.
  all: split; [intros Hbad; first [split; reflexivity | tauto]
              | intros H1 H2; first [reflexivity | tauto]].
Qed.

Lemma deployment_gate_witness :
  let sv := DemoTools.services (delete "SEPOLIA_RPC_URL" DemoTools.env) DemoTools.rich None
              success None in
  fst (DeployToken.script sv Demo.fresh_chain DemoTools.sources) = 1 /\
  files (snd (DeployToken.script sv Demo.fresh_chain DemoTools.sources)) =
    DemoTools.sources.
Proof.
  intros sv.
  apply (proj1 (proj2 (deployment_needs_key_and_rpc_url sv Demo.fresh_chain
                         DemoTools.sources))).
  right. left. vm_compute. reflexivity.
Defined.

(** X15. Compilation errors stop deployToken before anything is sent.
    When the compiler output has messages of severity 'error', the run
    writes the heading and the formatted message of each of them, in
    the order of the output and leaving out the messages of any other
    severity, and exits with code 1: its log is the derivation of the
    account, the read of the source, the compilation and these lines;
    the chain and the files are as before. *)
Theorem compilation_errors_stop_the_deployment (sv : Services) (c : Chain)
    (fs : gmap string EnvFile.JsString) (source : EnvFile.JsString)
    (output : CompilerOutput) (all : list CompilerMessage) :
  let run := DeployToken.script sv c fs in
  let key := process_env (base sv) !! "PRIVATE_KEY" in
  In (SolcCompile source, RCompiled output) (events (snd run)) ->
  errors output = Some all ->
  List.filter DeployToken.is_error all <> [] ->
  fst run = 1 /\ files (snd run) = fs /\ m_chain (snd run) = c /\
  events (snd run) =
    ([ (PrivateKeyToAccount (as_hex key), Plain RUnit);
       (ReadFileSync "contracts/TestToken.sol", RText source);
       (SolcCompile source, RCompiled output);
       (Stderr CompilationErrors, Plain RUnit) ] ++
     List.map (fun m => (Stderr (Formatted (formattedMessage m)), Plain RUnit))
       (List.filter DeployToken.is_error all) ++
     [ (Shared (ProcessExit 1), Plain RUnit) ])%list.
Proof.
  intros run key; subst run key.
  open_services sv.
  remember (env !! "PRIVATE_KEY") as key.
  deploy_run.
  all: cbn [fst snd events files m_chain]; intros Hin Herr Hfilter.
  all: in_log.
  all: try discriminate Herr.
  all: try (injection Herr as ->).
  all: drop_tail.
  all: try match goal with
         | H : (0 <? _)%nat = false |- _ => apply no_errors in H; congruence
         end.
  all: repeat split; reflexivity.
Qed.

Lemma compilation_errors_witness :
  let messages :=
    [ {| severity := "warning"; formattedMessage := "Warning: unused variable" |};
      {| severity := "error"; formattedMessage := "Error: expected a semicolon" |} ] in
  let sv := DemoTools.services DemoTools.env DemoTools.rich None success (Some messages) in
  fst (DeployToken.script sv Demo.fresh_chain DemoTools.sources) = 1 /\
  files (snd (DeployToken.script sv Demo.fresh_chain DemoTools.sources)) =
    DemoTools.sources.
Proof.
  intros messages sv.
  assert (Hin : In (SolcCompile (EnvFile.js "contract TestToken {}"),
                    RCompiled (DemoTools.output_with (Some messages)))
                   (events (snd (DeployToken.script sv Demo.fresh_chain DemoTools.sources)))).
  { at_entry 2%nat. }
  assert (Herrors : List.filter DeployToken.is_error messages <> []).
  { vm_compute. discriminate. }
  split.
  - exact (proj1 (compilation_errors_stop_the_deployment sv Demo.fresh_chain
                    DemoTools.sources (EnvFile.js "contract TestToken {}")
                    (DemoTools.output_with (Some messages)) messages Hin eq_refl Herrors)).
  - exact (proj1 (proj2 (compilation_errors_stop_the_deployment sv Demo.fresh_chain
                    DemoTools.sources (EnvFile.js "contract TestToken {}")
                    (DemoTools.output_with (Some messages)) messages Hin eq_refl Herrors))).
Defined.

(** X16. A low balance only warns.  Once the balance of the deployer
    has been read, the deployment transaction is sent with the ABI and
    the bytecode of the compiled contract ('0x' followed by the
    bytecode object of the compiler output), whatever the balance is;
    the warning is written exactly when the balance is below 0.001 ETH.
    The compiler output that is deployed has no message of severity
    'error'. *)
Theorem deployment_is_sent_whatever_the_balance (sv : Services) (c : Chain)
    (fs : gmap string EnvFile.JsString) (address : Address) (balance : Z) :
  let run := DeployToken.script sv c fs in
  In (GetBalance address, Plain (RNumber balance)) (events (snd run)) ->
  address = owner_address (base sv) /\
  balance = eth_balance sv c address /\
  (balance < 1000000000000000 <->
   In (Stderr LowBalance, Plain RUnit) (events (snd run))) /\
  exists source contract reply,
    In (SolcCompile source, RCompiled (solc sv source)) (events (snd run)) /\
    artifact (solc sv source) = Some contract /\
    (forall all, errors (solc sv source) = Some all ->
                 List.filter DeployToken.is_error all = []) /\
    In (DeployContract (abi contract) ("0x" +:+ bytecode_object contract), reply)
       (events (snd run)).
Proof.
  intros run; subst run.
  open_services sv.
  deploy_run.
  all: cbn [fst snd events files m_chain]; intros Hin.
  all: in_log; drop_tail.
  all: repeat match goal with
         | H : (_ <? _)%Z = true |- _ => apply Z.ltb_lt in H
         | H : (_ <? _)%Z = false |- _ => apply Z.ltb_ge in H
         | H : (0 <? _)%nat = false |- _ => apply no_errors in H
         end.
  all: split; [reflexivity |]; split; [reflexivity |].
  all: split;
    [ split; [intros Hlow; first [find_in_log | exfalso; lia]
             | intros Hwarn; first [assumption | exfalso; in_log; fail] ] |].
  all: eexists; eexists; eexists.
  all: split; [match goal with H : _ = mkOutput _ _ |- _ => rewrite H end; find_in_log |].
  all: match goal with H : _ = mkOutput _ _ |- _ => rewrite H end; cbn [artifact errors].
  all: split; [reflexivity |].
  all: split; [intros all Hall; first [discriminate Hall | injection Hall as <-; assumption] |].
  all: find_in_log.
Qed.

Lemma low_balance_witness :
  let sv := DemoTools.services DemoTools.env 0 None success None in
  In (Stderr LowBalance, Plain RUnit)
     (events (snd (DeployToken.script sv Demo.fresh_chain DemoTools.sources))) /\
  exists source contract reply,
    In (DeployContract (abi contract) ("0x" +:+ bytecode_object contract), reply)
       (events (snd (DeployToken.script sv Demo.fresh_chain DemoTools.sources))) /\
    artifact (solc sv source) = Some contract.
Proof.
  intros sv.
  assert (Hin : In (GetBalance Demo.eoa, Plain (RNumber 0))
                   (events (snd (DeployToken.script sv Demo.fresh_chain DemoTools.sources)))).
  { at_entry 3%nat. }
  destruct (deployment_is_sent_whatever_the_balance sv Demo.fresh_chain DemoTools.sources
              Demo.eoa 0 Hin)
    as (_ & _ & Hwarn & source & contract & reply & _ & H1 & _ & H2).
  split.
  - apply Hwarn. reflexivity.
  - exists source, contract, reply. split; [exact H2 | exact H1].
Defined.

(** The ends of a run of deployToken, read off one symbolic run. *)
Lemma deploy_token_outcomes (sv : Services) (c : Chain)
    (fs : gmap string EnvFile.JsString) :
  let run := DeployToken.script sv c fs in
  (fst run = 0 \/ fst run = 1) /\
  (forall path content reply,
     In (WriteFileSync path content, reply) (events (snd run)) ->
     path = ".env" /\
     exists old hash receipt address abi name symbol supply balance,
       fs !! ".env" = Some old /\
       content = EnvFile.updateEnvContent old (EnvFile.js address) /\
       In (WaitForDeployment hash, RDeployed receipt address) (events (snd run)) /\
       status receipt = success /\
       In (ReadCompiled abi address "name" [], RValue name) (events (snd run)) /\
       In (ReadCompiled abi address "symbol" [], RValue symbol) (events (snd run)) /\
       In (ReadCompiled abi address "totalSupply" [], RValue supply) (events (snd run)) /\
       In (ReadCompiled abi address "balanceOf" [ArgAddress (owner_address (base sv))],
           RValue balance) (events (snd run)) /\
       (reply = Plain RUnit ->
        fst run = 0 /\ files (snd run) = <[".env" := content]> fs)) /\
  (fst run = 0 ->
   exists content, In (WriteFileSync ".env" content, Plain RUnit) (events (snd run))) /\
  ((forall path content,
      ~ In (WriteFileSync path content, Plain RUnit) (events (snd run))) ->
   fst run = 1 /\ files (snd run) = fs) /\
  (fs !! ".env" = None -> fst run = 1 /\ files (snd run) = fs) /\
  (forall hash receipt address,
     In (WaitForDeployment hash, RDeployed receipt address) (events (snd run)) ->
     status receipt = reverted ->
     fst run = 1 /\ files (snd run) = fs /\
     In (Stderr DeploymentReverted, Plain RUnit) (events (snd run)) /\
     (forall abi a f args r, ~ In (ReadCompiled abi a f args, r) (events (snd run))) /\
     ~ In (Stderr DeploymentFailed, Plain RUnit) (events (snd run))).
Proof.
  intros run; subst run.
  open_services sv.
  deploy_run.
  all: cbn [fst snd events files m_chain].
  all: split; [auto |].
  all: split;
    [ intros path content reply Hin; in_log; drop_tail;
      (split; [reflexivity |]);
      do 9 eexists;
      (split; [first [eassumption | reflexivity] |]); (split; [reflexivity |]);
      (split; [find_in_log |]); (split; [reflexivity |]);
      (split; [find_in_log |]); (split; [find_in_log |]);
      (split; [find_in_log |]); (split; [find_in_log |]);
      intros Hreply; first [discriminate Hreply | split; reflexivity] |].
  all: split;
    [ intros Hcode; first [discriminate Hcode | eexists; find_in_log] |].
  all: split;
    [ intros Hnone;
      first [ split; reflexivity
            | exfalso; eapply Hnone; find_in_log ] |].
  all: split;
    [ intros Hmissing; first [split; reflexivity | congruence] |].
  all: intros hash receipt address Hin Hstatus; in_log; drop_tail.
  all: try (cbn in Hstatus; discriminate Hstatus).
  all: split; [reflexivity |]; split; [reflexivity |]; split; [find_in_log |].
  all: split; [intros abi1 a1 f1 args1 r1 Hno | intros Hno]; in_log.
Qed.

(** X17. The [.env] file is written at the very end only.  Whenever
    deployToken writes a file, the file is [.env]; the deployment
    receipt was obtained with the status success; the four
    verification reads ([name], [symbol], [totalSupply] and the
    [balanceOf] of the deployer) of the contract at the address of that
    receipt were all answered; and the content written is the previous
    content of [.env] updated with that address.  The run ends with
    exit code 0 exactly when that write succeeded, and then the files
    are the old ones with the new [.env]; without a successful write
    the run ends with exit code 1 and the files are untouched. *)
Theorem env_file_is_written_after_verified_deployment (sv : Services) (c : Chain)
    (fs : gmap string EnvFile.JsString) :
  let run := DeployToken.script sv c fs in
  (forall path content reply,
     In (WriteFileSync path content, reply) (events (snd run)) ->
     path = ".env" /\
     exists old hash receipt address abi name symbol supply balance,
       fs !! ".env" = Some old /\
       content = EnvFile.updateEnvContent old (EnvFile.js address) /\
       In (WaitForDeployment hash, RDeployed receipt address) (events (snd run)) /\
       status receipt = success /\
       In (ReadCompiled abi address "name" [], RValue name) (events (snd run)) /\
       In (ReadCompiled abi address "symbol" [], RValue symbol) (events (snd run)) /\
       In (ReadCompiled abi address "totalSupply" [], RValue supply) (events (snd run)) /\
       In (ReadCompiled abi address "balanceOf" [ArgAddress (owner_address (base sv))],
           RValue balance) (events (snd run)) /\
       (reply = Plain RUnit ->
        fst run = 0 /\ files (snd run) = <[".env" := content]> fs)) /\
  (fst run = 0 <->
   exists content, In (WriteFileSync ".env" content, Plain RUnit) (events (snd run))) /\
  ((forall path content,
      ~ In (WriteFileSync path content, Plain RUnit) (events (snd run))) ->
   fst run = 1 /\ files (snd run) = fs).
Proof.
  intros run.
  destruct (deploy_token_outcomes sv c fs) as (_ & Hwrite & Hcode & Hnone & _).
  fold run in Hwrite, Hcode, Hnone.
  split; [exact Hwrite |]. split; [| exact Hnone].
  split; [exact Hcode |].
  intros [content Hin].
  destruct (Hwrite _ _ _ Hin) as (_ & old & hash & receipt & address & abi & name & symbol
                                  & supply & balance & _ & _ & _ & _ & _ & _ & _ & _ & Hok).
  exact (proj1 (Hok eq_refl)).
Qed.

Lemma env_file_witness :
  let sv := DemoTools.services DemoTools.env DemoTools.rich None success None in
  fst (DeployToken.script sv Demo.fresh_chain DemoTools.sources) = 0 /\
  files (snd (DeployToken.script sv Demo.fresh_chain DemoTools.sources)) !! ".env" =
    Some (EnvFile.js "PRIVATE_KEY=0x01" ++ [10%N] ++
          EnvFile.js "ERC20_TOKEN_ADDRESS=0x6666666666666666666666666666666666666666" ++
          [10%N])%list.
Proof.
  intros sv.
  split; [| vm_compute; reflexivity].
  apply (proj1 (proj2 (env_file_is_written_after_verified_deployment sv Demo.fresh_chain
                         DemoTools.sources))).
  eexists. at_entry 11%nat.
Defined.

(** X18. A deployment that reverted is not verified and not recorded.
    When the receipt of the deployment has the status reverted, the run
    writes its line about the failed deployment and exits with code 1
    at once: no view of the contract is read, no file is written, and
    the [catch] of [main] is not involved. *)
Theorem reverted_deployment_is_not_recorded (sv : Services) (c : Chain)
    (fs : gmap string EnvFile.JsString) (hash : Hash) (receipt : Receipt)
    (address : Address) :
  let run := DeployToken.script sv c fs in
  In (WaitForDeployment hash, RDeployed receipt address) (events (snd run)) ->
  status receipt = reverted ->
  fst run = 1 /\ files (snd run) = fs /\
  In (Stderr DeploymentReverted, Plain RUnit) (events (snd run)) /\
  (forall abi a f args r, ~ In (ReadCompiled abi a f args, r) (events (snd run))) /\
  ~ In (Stderr DeploymentFailed, Plain RUnit) (events (snd run)).
Proof.
  intros run.
  exact (proj2 (proj2 (proj2 (proj2 (proj2 (deploy_token_outcomes sv c fs)))))
           hash receipt address).
Qed.

Lemma reverted_deployment_witness :
  let sv := DemoTools.services DemoTools.env DemoTools.rich None reverted None in
  fst (DeployToken.script sv Demo.fresh_chain DemoTools.sources) = 1 /\
  files (snd (DeployToken.script sv Demo.fresh_chain DemoTools.sources)) =
    DemoTools.sources.
Proof.
  intros sv.
  assert (Hin : In (WaitForDeployment "0xdeploy",
                    RDeployed (Demo.receipt_with reverted) DemoTools.deployed)
                   (events (snd (DeployToken.script sv Demo.fresh_chain DemoTools.sources)))).
  { at_entry 5%nat. }
  split.
  - exact (proj1 (reverted_deployment_is_not_recorded sv Demo.fresh_chain
                    DemoTools.sources "0xdeploy" (Demo.receipt_with reverted)
                    DemoTools.deployed Hin eq_refl)).
  - exact (proj1 (proj2 (reverted_deployment_is_not_recorded sv Demo.fresh_chain
                    DemoTools.sources "0xdeploy" (Demo.receipt_with reverted)
                    DemoTools.deployed Hin eq_refl))).
Defined.

(** X19. Without a [.env] file deployToken cannot end normally.  The
    file is read before it is rewritten, and it is never created: when
    there is no [.env] file, every run ends with exit code 1 and leaves
    the files as they are, also a run in which the contract was
    deployed and verified. *)
Theorem missing_env_file_fails_the_run (sv : Services) (c : Chain)
    (fs : gmap string EnvFile.JsString) :
  fs !! ".env" = None ->
  fst (DeployToken.script sv c fs) = 1 /\
  files (snd (DeployToken.script sv c fs)) = fs.
Proof.
  exact (proj1 (proj2 (proj2 (proj2 (proj2 (deploy_token_outcomes sv c fs)))))).
Qed.

Lemma missing_env_file_witness :
  let sv := DemoTools.services DemoTools.env DemoTools.rich None success None in
  let fs := delete ".env" DemoTools.sources in
  fst (DeployToken.script sv Demo.fresh_chain fs) = 1 /\
  In (ReadCompiled "[abi]" DemoTools.deployed "totalSupply" [],
      RValue (VAmount DemoTools.rich))
     (events (snd (DeployToken.script sv Demo.fresh_chain fs))) /\
  In (Stderr (Thrown (NoSuchFile ".env")), Plain RUnit)
     (events (snd (DeployToken.script sv Demo.fresh_chain fs))).
Proof.
  intros sv fs.
  split; [| split].
  - apply (missing_env_file_fails_the_run sv Demo.fresh_chain fs).
    vm_compute. reflexivity.
  - at_entry 8%nat.
  - at_entry 12%nat.
Defined.

(** X20. After a run of deployToken that ends with exit code 0, the
    [.env] file names the deployed contract.  The deployment receipt of
    the run has the status success, and the new [.env] is the old one
    updated with the contract address of that receipt; for an address
    without line terminator and without [$] (as every address is), the
    first occurrence of [ERC20_TOKEN_ADDRESS=] in the file is followed
    by exactly that address, up to the end of the line. *)
Theorem deployed_address_is_recorded (sv : Services) (c : Chain)
    (fs : gmap string EnvFile.JsString) :
  let run := DeployToken.script sv c fs in
  fst run = 0 ->
  exists hash receipt address old,
    In (WaitForDeployment hash, RDeployed receipt address) (events (snd run)) /\
    status receipt = success /\
    fs !! ".env" = Some old /\
    files (snd run) =
      <[".env" := EnvFile.updateEnvContent old (EnvFile.js address)]> fs /\
    (EnvFile.one_line (EnvFile.js address) -> EnvFile.dollar_free (EnvFile.js address) ->
     exists before rest,
       files (snd run) !! ".env" =
         Some (before ++ EnvFile.KEY ++ EnvFile.js address ++ rest)%list /\
       EnvFile.includes EnvFile.KEY before = false /\ EnvFile.ends_line rest).
Proof.
  intros run Hcode.
  destruct (deploy_token_outcomes sv c fs) as (_ & Hwrite & Hdone & _).
  fold run in Hwrite, Hdone.
  destruct (Hdone Hcode) as [content Hin].
  destruct (Hwrite _ _ _ Hin) as (_ & old & hash & receipt & address & abi & name & symbol
                                  & supply & balance & Hold & -> & Hwait & Hstatus & _ & _
                                  & _ & _ & Hok).
  destruct (Hok eq_refl) as [_ Hfiles].
  exists hash, receipt, address, old.
  split; [exact Hwait |]. split; [exact Hstatus |]. split; [exact Hold |].
  split; [exact Hfiles |].
  intros Hline Hplain.
  destruct (updateEnvContent_shape old (EnvFile.js address) Hline Hplain)
    as (before & rest & Hshape & Hbefore & Hrest & _).
  exists before, rest.
  rewrite Hfiles, Hshape.
  split; [apply lookup_insert_eq | split; [exact Hbefore | exact Hrest]].
Qed.

Lemma deployed_address_witness :
  let sv := DemoTools.services DemoTools.env DemoTools.rich None success None in
  exists hash receipt address old,
    In (WaitForDeployment hash, RDeployed receipt address)
       (events (snd (DeployToken.script sv Demo.fresh_chain DemoTools.sources))) /\
    status receipt = success /\
    DemoTools.sources !! ".env" = Some old /\
    files (snd (DeployToken.script sv Demo.fresh_chain DemoTools.sources)) =
      <[".env" := EnvFile.updateEnvContent old (EnvFile.js address)]> DemoTools.sources.
Proof.
  intros sv.
  assert (Hcode : fst (DeployToken.script sv Demo.fresh_chain DemoTools.sources) = 0)
    by (vm_compute; reflexivity).
  destruct (deployed_address_is_recorded sv Demo.fresh_chain DemoTools.sources Hcode)
    as (hash & receipt & address & old & H1 & H2 & H3 & H4 & _).
  exists hash, receipt, address, old. auto.
Defined.

End MaintenanceScripts.

(** ** The cached account and client *)

Import Clients.

(** C9, at the failing input.  Two calls of [getSimple7702Account] made
    without awaiting the first ([Promise.all] of the two) both find the
    variable still [null], both build an account, and resolve to two
    different objects; the same holds of [getSmartAccountClient], which
    then builds two accounts and two clients. *)
Theorem overlapping_calls_build_twice :
  let account := getSimple7702Account Demo.no_rejection in
  let client := getSmartAccountClient Demo.no_rejection in
  (let (m, results) := overlapping 1 [account; account] fresh_process in
   results = [Resolved 0%nat; Resolved 1%nat] /\
   accounts_built m = [0%nat; 1%nat]) /\
  (let (m, results) := overlapping 3 [client; client] fresh_process in
   results = [Resolved 2%nat; Resolved 3%nat] /\
   accounts_built m = [0%nat; 1%nat] /\
   clients_built m = [(2%nat, 0%nat); (3%nat, 1%nat)]).
Proof.
  vm_compute. repeat split.
Qed.

Lemma account_awaited (rejects : nat -> option ExternalError) (m : Memory) :
  awaited (getSimple7702Account rejects) m =
    match _simple7702Account m with
    | Some account => (m, Resolved account)
    | None =>
        match rejects (account_requests m) with
        | Some e =>
            ({| _simple7702Account := None;
                _smartAccountClient := _smartAccountClient m;
                accounts_built := accounts_built m;
                clients_built := clients_built m;
                account_requests := S (account_requests m) |}, Failed e)
        | None =>
            ({| _simple7702Account := Some (fresh m);
                _smartAccountClient := _smartAccountClient m;
                accounts_built := accounts_built m ++ [fresh m];
                clients_built := clients_built m;
                account_requests := S (account_requests m) |}, Resolved (fresh m))
        end
    end.
Proof.
  unfold awaited, getSimple7702Account.
  destruct (_simple7702Account m) eqn:Hcache; cbn; [reflexivity |].
  destruct (rejects (account_requests m)); cbn; rewrite ?Hcache; reflexivity.
Qed.

Lemma client_awaited (rejects : nat -> option ExternalError) (m : Memory) :
  awaited (getSmartAccountClient rejects) m =
    match _smartAccountClient m with
    | Some client => (m, Resolved client)
    | None =>
        match awaited (getSimple7702Account rejects) m with
        | (m1, Resolved account) =>
            ({| _simple7702Account := _simple7702Account m1;
                _smartAccountClient := Some (fresh m1);
                accounts_built := accounts_built m1;
                clients_built := clients_built m1 ++ [(fresh m1, account)];
                account_requests := account_requests m1 |}, Resolved (fresh m1))
        | (m1, Failed e) => (m1, Failed e)
        | (m1, Await _) => (m1, Failed (LibraryError "unsettled"))
        end
    end.
Proof.
  rewrite account_awaited.
  unfold awaited, getSmartAccountClient, getSimple7702Account.
  destruct (_smartAccountClient m) eqn:Hclient; cbn; [reflexivity |].
  destruct (_simple7702Account m) eqn:Hcache; cbn; [reflexivity |].
  destruct (rejects (account_requests m)); cbn; reflexivity.
Qed.

Lemma fresh_process_coherent : coherent fresh_process.
Proof. split; reflexivity. Qed.

(** An awaited call keeps the two variables coherent, never resets one
    of them, and leaves the object it returns in its variable. *)
Lemma awaited_call_step (rejects : nat -> option ExternalError)
    (f : Factory) (m m' : Memory) (r : Async ObjRef) :
  coherent m ->
  awaited (factory_call rejects f) m = (m', r) ->
  coherent m' /\
  (forall g x, cache_of g m = Some x -> cache_of g m' = Some x) /\
  (forall x, r = Resolved x -> cache_of f m' = Some x).
Proof.
  intros [Hacc Hcli] Hcall.
  destruct f; cbn [factory_call] in Hcall.
  - rewrite account_awaited in Hcall.
    destruct (_simple7702Account m) as [a |] eqn:Ha.
    + inversion Hcall; subst. unfold coherent. rewrite Ha.
      repeat split; auto. intros x Hx. inversion Hx; subst. exact Ha.
    + destruct (rejects (account_requests m)); inversion Hcall; subst; clear Hcall.
      * unfold coherent; cbn. repeat split; auto.
        -- intros [|] x Hx; cbn in *; congruence.
        -- intros x Hx. discriminate Hx.
      * unfold coherent; cbn. rewrite Hacc. repeat split; auto.
        -- intros [|] x Hx; cbn in *; congruence.
        -- intros x Hx. inversion Hx; subst. reflexivity.
  - rewrite client_awaited, account_awaited in Hcall.
    destruct (_smartAccountClient m) as [cl |] eqn:Hc.
    + inversion Hcall; subst. unfold coherent. rewrite Hc.
      repeat split; auto. intros x Hx. inversion Hx; subst. exact Hc.
    + destruct (_simple7702Account m) as [a |] eqn:Ha.
      * inversion Hcall; subst; clear Hcall.
        unfold coherent; cbn. rewrite Ha, Hcli. repeat split; eauto.
        -- intros [|] x Hx; cbn in *; congruence.
        -- intros x Hx. inversion Hx; subst. reflexivity.
      * destruct (rejects (account_requests m)); inversion Hcall; subst; clear Hcall.
        -- unfold coherent; cbn. repeat split; auto.
           ++ intros [|] x Hx; cbn in *; congruence.
           ++ intros x Hx. discriminate Hx.
        -- unfold coherent; cbn. rewrite Hacc, Hcli. repeat split; eauto.
           ++ intros [|] x Hx; cbn in *; congruence.
           ++ intros x Hx. inversion Hx; subst. reflexivity.
Qed.

Lemma in_sequence_step (rejects : nat -> option ExternalError)
    (fs : list Factory) (m m' : Memory) (rs : list (Factory * Async ObjRef)) :
  coherent m ->
  in_sequence rejects fs m = (m', rs) ->
  coherent m' /\
  (forall g x, cache_of g m = Some x -> cache_of g m' = Some x) /\
  (forall f x, In (f, Resolved x) rs -> cache_of f m' = Some x).
Proof.
  revert m m' rs. induction fs as [| f fs IH]; intros m m' rs Hm Hrun.
  - inversion Hrun; subst. split; [exact Hm | split; [auto | intros f x []]].
  - cbn [in_sequence] in Hrun.
    destruct (awaited (factory_call rejects f) m) as [m1 r] eqn:Hcall.
    destruct (in_sequence rejects fs m1) as [m2 rs'] eqn:Hrest.
    inversion Hrun; subst; clear Hrun.
    destruct (awaited_call_step rejects f m m1 r Hm Hcall) as (Hm1 & Hkeep1 & Hret).
    destruct (IH m1 m' rs' Hm1 Hrest) as (Hm' & Hkeep & Hrs).
    split; [exact Hm' | split; [auto |]].
    intros g x [Hhead | Htail].
    + inversion Hhead; subst. apply Hkeep, Hret. reflexivity.
    + apply Hrs. exact Htail.
Qed.

(** X1.  When a call of [getSimple7702Account] (or of
    [getSmartAccountClient]) has resolved, a call made afterwards
    resolves to the identical object and builds nothing.  In a process
    in which every call is awaited before the next one is made, whatever
    the order of the calls of the two functions, at most one account and
    at most one client are ever built, and all calls of one function
    that resolve, resolve to one object. *)
Theorem cached_object_is_reused (rejects : nat -> option ExternalError) :
  (forall (f : Factory) (m m1 : Memory) (object : ObjRef),
     awaited (factory_call rejects f) m = (m1, Resolved object) ->
     awaited (factory_call rejects f) m1 = (m1, Resolved object)) /\
  (forall (fs : list Factory),
     let (m, results) := in_sequence rejects fs fresh_process in
     (length (accounts_built m) <= 1)%nat /\
     (length (clients_built m) <= 1)%nat /\
     forall f a b,
       In (f, Resolved a) results -> In (f, Resolved b) results -> a = b).
Proof.
  split.
  - intros f m m1 object Hcall.
    assert (Hcache : cache_of f m1 = Some object).
    { destruct f; cbn [factory_call] in Hcall.
      - rewrite account_awaited in Hcall.
        destruct (_simple7702Account m) eqn:Ha.
        + inversion Hcall; subst. exact Ha.
        + destruct (rejects (account_requests m)); inversion Hcall; subst. reflexivity.
      - rewrite client_awaited, account_awaited in Hcall.
        destruct (_smartAccountClient m) eqn:Hc.
        + inversion Hcall; subst. exact Hc.
        + destruct (_simple7702Account m) eqn:Ha.
          * inversion Hcall; subst. reflexivity.
          * destruct (rejects (account_requests m)); inversion Hcall; subst.
            reflexivity. }
    destruct f; cbn [factory_call cache_of] in *.
    + rewrite account_awaited, Hcache. reflexivity.
    + rewrite client_awaited, Hcache. reflexivity.
  - intros fs.
    destruct (in_sequence rejects fs fresh_process) as [m results] eqn:Hrun.
    destruct (in_sequence_step rejects fs fresh_process m results
                fresh_process_coherent Hrun) as ([Hacc Hcli] & _ & Hresults).
    split; [| split].
    + destruct (_simple7702Account m); rewrite Hacc; cbn; lia.
    + destruct (_smartAccountClient m) as [cl |];
        [destruct Hcli as [a ->] | rewrite Hcli]; cbn; lia.
    + intros f a b Ha Hb.
      apply Hresults in Ha. apply Hresults in Hb. congruence.
Qed.

Lemma cached_object_witness :
  let first := awaited (getSmartAccountClient Demo.no_rejection) fresh_process in
  first = (fst first, Resolved 1%nat) /\
  awaited (getSmartAccountClient Demo.no_rejection) (fst first) = (fst first, Resolved 1%nat) /\
  accounts_built (fst first) = [0%nat] /\
  clients_built (fst first) = [(1%nat, 0%nat)].
Proof.
  intros first.
  assert (Hfirst : awaited (factory_call Demo.no_rejection Client) fresh_process
                   = (fst first, Resolved 1%nat)) by (vm_compute; reflexivity).
  split; [exact Hfirst |].
  split; [| split; vm_compute; reflexivity].
  exact (proj1 (cached_object_is_reused Demo.no_rejection) Client fresh_process
           (fst first) 1%nat Hfirst).
Defined.
